(** * rpi2casterd: the Interface state machine of [rpi2casterd/main.py]

    A shallow embedding of the hardware-control interface of the
    rpi2caster daemon: the signal rewriting done before a combination
    goes to the valves, the pump / wedge bookkeeping, the cycle
    dispatcher for casting, punching and testing, the emergency-stop
    wrapper, the pump and machine control routines, the justification
    sequences and the speed meter.

    Conventions of the embedding
    - Python sets of signal names are [gset string]; [self.signals] is a
      Python list and stays a [list string].
    - The clock and every duration are exact rationals (seconds); the
      clock is kept in lowest terms.  Code between two calls of
      [time.sleep] takes no time.
    - The timestamps the sensor callback keeps for the speed meter are
      Python floats, and [rpm] computes with them as Python does: IEEE
      754 binary64 arithmetic, rounding to nearest with ties to even
      ([SpecFloat] of the standard library).  [time.time()] in the
      callback reads the float nearest to the date of the edge.
    - The sensor callback and the emergency-stop edge detector run on the
      GPIO library's thread.  They are modelled by a schedule of dated
      edges that is consumed whenever the clock moves, that is, inside
      [time.sleep].
    - Exceptions are an explicit outcome; the recursion through the
      emergency-stop wrapper and the two [while] loops are bounded by a
      fuel argument, whose exhaustion is a third outcome.
    - [KeyboardInterrupt] is an exception like the others and the
      emergency-stop wrapper catches it.  The daemon's signal handlers,
      which raise it, are not part of the environment: no primitive of
      the embedding raises it by itself. *)

From Stdlib Require Import QArith Qpower Qround Qabs Lqa ZArith List Bool Lia Ascii String.
From Stdlib Require SpecFloat.
From stdpp Require Import base gmap sets list strings pretty.

Open Scope string_scope.
Open Scope Z_scope.

(** ** Python helpers *)

(** [str.upper] on ASCII letters. *)
Definition upper_ascii (c : ascii) : ascii :=
  let n := nat_of_ascii c in
  if ((97 <=? n) && (n <=? 122))%nat then ascii_of_nat (n - 32) else c.

Fixpoint upper (s : string) : string :=
  match s with
  | EmptyString => EmptyString
  | String c r => String (upper_ascii c) (upper r)
  end.

(** Iterating over a Python string yields its one-character strings;
    this is what [set.update('O15')] and [set('NK')] do. *)
Fixpoint chars (s : string) : list string :=
  match s with
  | EmptyString => []
  | String c r => String c EmptyString :: chars r
  end.

(** [set.update(iterable)] with a string as the iterable. *)
Definition update (s : gset string) (iterable : string) : gset string :=
  s ∪ list_to_set (chars iterable).

(** [str(n)] for an integer. *)
Definition str (n : Z) : string := pretty n.

(** [x in l] for a list of names. *)
Definition inb (x : string) (l : list string) : bool := bool_decide (x ∈ l).

(** [x in s] for a set of names. *)
Definition mem (x : string) (s : gset string) : bool := bool_decide (x ∈ s).

(** [a or b] where [a] is an optional number: [None] and [0] are falsy. *)
Definition or_Q (a : option Q) (b : Q) : Q :=
  match a with
  | Some q => if Qeq_bool q 0 then b else q
  | None => b
  end.

Definition or_Z (a : option Z) (b : Z) : Z :=
  match a with
  | Some z => if z =? 0 then b else z
  | None => b
  end.

(** [collections.deque(maxlen=3).append]. *)
Definition deque_append {A} (maxlen : nat) (d : list A) (x : A) : list A :=
  if (maxlen <=? length d)%nat then (tl d ++ [x])%list else (d ++ [x])%list.

(** ** Python floats

    A Python float is an IEEE 754 binary64 number: 53 bits of mantissa,
    rounding to nearest with ties to even. *)
Definition float : Type := SpecFloat.spec_float.

Definition float_prec : Z := 53.
Definition float_emax : Z := 1024.

(** [x - y], [x * y] and [x / y] on floats. *)
Definition float_sub : float -> float -> float :=
  SpecFloat.SFsub float_prec float_emax.
Definition float_mul : float -> float -> float :=
  SpecFloat.SFmul float_prec float_emax.
Definition float_truediv : float -> float -> float :=
  SpecFloat.SFdiv float_prec float_emax.
Definition float_neg : float -> float := SpecFloat.SFopp.

(** [float(n)] for an integer, as the arithmetic converts an int
    operand. *)
Definition float_of_Z (n : Z) : float :=
  SpecFloat.binary_normalize float_prec float_emax n 0 false.

(** The float nearest to a rational number, ties to even: the value of
    a decimal literal, of [strtod], and of [time.time()] at that date. *)
Definition float_of_Q (q : Q) : float :=
  match Qnum q with
  | Z0 => SpecFloat.S754_zero false
  | Zpos p =>
      float_truediv (SpecFloat.S754_finite false p 0)
        (SpecFloat.S754_finite false (Qden q) 0)
  | Zneg p =>
      float_truediv (SpecFloat.S754_finite true p 0)
        (SpecFloat.S754_finite false (Qden q) 0)
  end.

(** The exact value [m * 2^e] of the magnitude of a finite float. *)
Definition magnitude (m : positive) (e : Z) : Q :=
  match e with
  | Z0 => Zpos m # 1
  | Zpos k => Zpos (m * 2 ^ k)%positive # 1
  | Zneg k => Zpos m # (2 ^ k)%positive
  end.

(** [bool(x)]: only the two zeros are falsy. *)
Definition float_bool (x : float) : bool :=
  match x with
  | SpecFloat.S754_zero _ => false
  | _ => true
  end.

(** [x > q] for a float [x] and a number of exact value [q]; Python
    compares the exact values, and nan compares false. *)
Definition float_gt (x : float) (q : Q) : bool :=
  match x with
  | SpecFloat.S754_zero _ => negb (Qle_bool 0 q)
  | SpecFloat.S754_finite false m e => negb (Qle_bool (magnitude m e) q)
  | SpecFloat.S754_finite true m e => negb (Qle_bool (- magnitude m e) q)
  | SpecFloat.S754_infinity s => negb s
  | SpecFloat.S754_nan => false
  end.

(** The nearest integer, ties to the even one. *)
Definition round_half_even (x : Q) : Z :=
  let f := Qfloor x in
  let r := (x - inject_Z f)%Q in
  match (r ?= 1 # 2)%Q with
  | Lt => f
  | Gt => f + 1
  | Eq => if Z.even f then f else f + 1
  end.

(** [round(x, 2)] on a float.  CPython rounds the exact value of [x] to
    the nearest decimal with two places, ties to even, and converts that
    decimal back to the nearest float, keeping the sign; zeros,
    infinities and nan round to themselves. *)
Definition round2 (x : float) : float :=
  match x with
  | SpecFloat.S754_finite s m e =>
      let n := round_half_even (magnitude m e * 100) in
      let r := float_of_Q (n # 100) in
      if s then float_neg r else r
  | _ => x
  end.

(** The numbers [rpm] returns: the int 0 or a float. *)
Inductive number :=
| Int (n : Z)
| Float (x : float).

(** ** Configuration *)

Record config := {
  startup_timeout : Q;
  sensor_timeout : Q;
  pump_stop_timeout : Q;
  punching_on_time : Q;
  punching_off_time : Q;
  default_mode : option string;
  default_row16_mode : option string;
  supported_modes : list string;
  supported_row16_modes : list string;
  error_led_gpio : Z;
  working_led_gpio : Z;
  air_gpio : Z;
  water_gpio : Z;
  motor_start_gpio : Z;
  motor_stop_gpio : Z;
  valve1 : list string;
  valve2 : list string;
  valve3 : list string;
  valve4 : list string
}.

(** The row 16 converters of [rpi2casterd.converters], which the
    interface only calls. *)
Record converters := {
  convert_unitshift : list string -> gset string;
  convert_hmn : list string -> gset string;
  convert_kmn : list string -> gset string
}.

(** Modelled from the spec: [converters.ordered_signals] is not part of
    the sources at hand.  It returns the input names in the canonical
    order given by the concatenation of the four configured valve
    tuples. *)
Definition ordered_signals (cfg : config) (source : gset string) : list string :=
  List.filter (fun sig => mem sig source)
              (valve1 cfg ++ valve2 cfg ++ valve3 cfg ++ valve4 cfg)%list.

(** ** Interface state *)

(** [self.state] *)
Record state := {
  wedge_0005 : Z;
  wedge_0075 : Z;
  working : bool;
  water : bool;
  air : bool;
  motor : bool;
  pump : bool;
  sensor : bool
}.

(** What the output driver and the timer see, in order. *)
Inductive event :=
| ValvesOn (sigs : gset string)
| ValvesOff
| Sleep (seconds : Q).

(** An edge on an input line, as seen by the GPIO library. *)
Inductive edge :=
| SensorEdge (level : bool)
| EmergencyStopEdge.

(** The GPIO lines, the clock and the output driver. *)
Record hardware := {
  outputs : gmap Z bool;
  emergency_stop_detected : bool;
  clock : Q;
  incoming : list (Q * edge);
  trace : list event
}.

Record interface := {
  st : state;
  signals : list string;
  meter_events : list float;
  _operation_mode : option (option string);
  _row16_mode : option (option string);
  hw : hardware;
  sent : list (list string * option Q)
}.

Definition set_wedge_0005 (v : Z) (s : state) : state :=
  {| wedge_0005 := v; wedge_0075 := wedge_0075 s; working := working s;
     water := water s; air := air s; motor := motor s; pump := pump s;
     sensor := sensor s |}.
Definition set_wedge_0075 (v : Z) (s : state) : state :=
  {| wedge_0005 := wedge_0005 s; wedge_0075 := v; working := working s;
     water := water s; air := air s; motor := motor s; pump := pump s;
     sensor := sensor s |}.
Definition set_working (v : bool) (s : state) : state :=
  {| wedge_0005 := wedge_0005 s; wedge_0075 := wedge_0075 s; working := v;
     water := water s; air := air s; motor := motor s; pump := pump s;
     sensor := sensor s |}.
Definition set_water (v : bool) (s : state) : state :=
  {| wedge_0005 := wedge_0005 s; wedge_0075 := wedge_0075 s; working := working s;
     water := v; air := air s; motor := motor s; pump := pump s;
     sensor := sensor s |}.
Definition set_air (v : bool) (s : state) : state :=
  {| wedge_0005 := wedge_0005 s; wedge_0075 := wedge_0075 s; working := working s;
     water := water s; air := v; motor := motor s; pump := pump s;
     sensor := sensor s |}.
Definition set_motor (v : bool) (s : state) : state :=
  {| wedge_0005 := wedge_0005 s; wedge_0075 := wedge_0075 s; working := working s;
     water := water s; air := air s; motor := v; pump := pump s;
     sensor := sensor s |}.
Definition set_pump (v : bool) (s : state) : state :=
  {| wedge_0005 := wedge_0005 s; wedge_0075 := wedge_0075 s; working := working s;
     water := water s; air := air s; motor := motor s; pump := v;
     sensor := sensor s |}.
Definition set_sensor (v : bool) (s : state) : state :=
  {| wedge_0005 := wedge_0005 s; wedge_0075 := wedge_0075 s; working := working s;
     water := water s; air := air s; motor := motor s; pump := pump s;
     sensor := v |}.

Definition set_outputs (v : gmap Z bool) (h : hardware) : hardware :=
  {| outputs := v; emergency_stop_detected := emergency_stop_detected h;
     clock := clock h; incoming := incoming h; trace := trace h |}.
Definition set_emergency_stop_detected (v : bool) (h : hardware) : hardware :=
  {| outputs := outputs h; emergency_stop_detected := v;
     clock := clock h; incoming := incoming h; trace := trace h |}.
Definition set_clock (v : Q) (h : hardware) : hardware :=
  {| outputs := outputs h; emergency_stop_detected := emergency_stop_detected h;
     clock := v; incoming := incoming h; trace := trace h |}.
Definition set_incoming (v : list (Q * edge)) (h : hardware) : hardware :=
  {| outputs := outputs h; emergency_stop_detected := emergency_stop_detected h;
     clock := clock h; incoming := v; trace := trace h |}.
Definition set_trace (v : list event) (h : hardware) : hardware :=
  {| outputs := outputs h; emergency_stop_detected := emergency_stop_detected h;
     clock := clock h; incoming := incoming h; trace := v |}.

Definition with_st (f : state -> state) (i : interface) : interface :=
  {| st := f (st i); signals := signals i; meter_events := meter_events i;
     _operation_mode := _operation_mode i; _row16_mode := _row16_mode i;
     hw := hw i; sent := sent i |}.
Definition set_signals (v : list string) (i : interface) : interface :=
  {| st := st i; signals := v; meter_events := meter_events i;
     _operation_mode := _operation_mode i; _row16_mode := _row16_mode i;
     hw := hw i; sent := sent i |}.
Definition set_meter_events (v : list float) (i : interface) : interface :=
  {| st := st i; signals := signals i; meter_events := v;
     _operation_mode := _operation_mode i; _row16_mode := _row16_mode i;
     hw := hw i; sent := sent i |}.
Definition set__operation_mode (v : option (option string)) (i : interface) : interface :=
  {| st := st i; signals := signals i; meter_events := meter_events i;
     _operation_mode := v; _row16_mode := _row16_mode i;
     hw := hw i; sent := sent i |}.
Definition set__row16_mode (v : option (option string)) (i : interface) : interface :=
  {| st := st i; signals := signals i; meter_events := meter_events i;
     _operation_mode := _operation_mode i; _row16_mode := v;
     hw := hw i; sent := sent i |}.
Definition with_hw (f : hardware -> hardware) (i : interface) : interface :=
  {| st := st i; signals := signals i; meter_events := meter_events i;
     _operation_mode := _operation_mode i; _row16_mode := _row16_mode i;
     hw := f (hw i); sent := sent i |}.
Definition set_sent (v : list (list string * option Q)) (i : interface) : interface :=
  {| st := st i; signals := signals i; meter_events := meter_events i;
     _operation_mode := _operation_mode i; _row16_mode := _row16_mode i;
     hw := hw i; sent := v |}.

(** [Interface.__init__]: the state a fresh interface starts in.  The
    schedule of input edges is the only thing the environment chooses. *)
Definition init_hardware (edges : list (Q * edge)) : hardware :=
  {| outputs := ∅; emergency_stop_detected := false; clock := 0%Q;
     incoming := edges; trace := [] |}.

Definition init (edges : list (Q * edge)) : interface :=
  {| st := {| wedge_0005 := 15; wedge_0075 := 15; working := false;
              water := false; air := false; motor := false; pump := false;
              sensor := false |};
     signals := [];
     meter_events := [];
     _operation_mode := None;
     _row16_mode := None;
     hw := init_hardware edges;
     sent := [] |}.

(** ** Signal rewriting: the local functions of [prepare_signals] *)

(** Get rid of the "16" signal and replace it with "15". *)
Definition strip_16 (source : list string) : gset string :=
  let sigset : gset string := list_to_set (map upper source) in
  if mem "16" sigset then (sigset ∖ {["16"]}) ∪ {["15"]} else sigset.

(** Change O and 15 to a combined O+15 signal. *)
Definition convert_o15 (source : gset string) : gset string :=
  fold_left
    (fun source_signals sig =>
       if mem sig source_signals
       then update (source_signals ∖ {[sig]}) "O15"
       else source_signals)
    ["O"; "15"] source.

(** For casting, don't use O+15. *)
Definition strip_o15 (source : gset string) : gset string :=
  source ∖ {["O15"]}.

(** If length of signals is less than 2, add an O+15. *)
Definition add_missing_o15 (source : gset string) : gset string :=
  if (size source <? 2)%nat then update source "O15" else source.

(** ** Pump and wedge bookkeeping *)

(** [set(code).issubset(self.signals)] *)
Definition found (code sigs : list string) : bool :=
  forallb (fun c => inb c sigs) code.

(** The [for pos in range(1, 15) ... break ... else 15] scan. *)
Definition earliest_row (sigs : list string) : Z :=
  default 15 (List.find (fun pos => inb (str pos) sigs) (seqZ 1 14)).

Definition update_pump_and_wedges (i : interface) : interface :=
  let sigs := signals i in
  let i :=
    if found ["0075"] sigs || found (chars "NK") sigs
    then with_st (set_pump true) i
    else if found ["0005"] sigs || found (chars "NJ") sigs
         then with_st (set_pump false) i
         else i in
  let i :=
    if found ["0075"] sigs || found (chars "NK") sigs
    then with_st (set_wedge_0075 (earliest_row sigs)) i
    else i in
  if found ["0005"] sigs || found (chars "NJ") sigs
  then with_st (set_wedge_0005 (earliest_row sigs)) i
  else i.

Definition check_pump (i : interface) : bool :=
  let sigs := signals i in
  if found ["0075"] sigs || found (chars "NK") sigs then true
  else if found ["0005"] sigs || found (chars "NJ") sigs then false
  else pump (st i).

(** ** Speed meter *)

Definition rpm (cfg : config) (i : interface) : number :=
  let events := meter_events i in
  match last events, head events with
  | Some last_event, Some first_event =>
      let duration := float_sub last_event first_event in
      if negb (float_bool duration) || float_gt duration (sensor_timeout cfg)
      then Int 0
      else
        let per_second :=
          float_truediv (float_of_Z (Z.of_nat (length events) - 1)) duration in
        Float (round2 (float_mul per_second (float_of_Z 60)))
  | _, _ => Int 0
  end.

(** ** Outcomes and the state monad of the interface *)

Inductive exn :=
| MachineStopped
| InterfaceBusy
| InterfaceNotStarted
| UnsupportedMode (mode : string)
| UnsupportedRow16Mode (mode : string)
| KeyError (key : option string)
| KeyboardInterrupt
| ValueError.

Inductive outcome (A : Type) :=
| Return (a : A)
| Raise (e : exn)
| Exhausted.
Arguments Return {A} a.
Arguments Raise {A} e.
Arguments Exhausted {A}.

Definition M (A : Type) : Type := interface -> outcome A * interface.

Definition ret {A} (a : A) : M A := fun i => (Return a, i).
Definition raise {A} (e : exn) : M A := fun i => (Raise e, i).
Definition exhausted {A} : M A := fun i => (Exhausted, i).
Definition bind {A B} (m : M A) (k : A -> M B) : M B :=
  fun i =>
    match m i with
    | (Return a, i') => k a i'
    | (Raise e, i') => (Raise e, i')
    | (Exhausted, i') => (Exhausted, i')
    end.
Definition gets {A} (f : interface -> A) : M A := fun i => (Return (f i), i).
Definition modify (f : interface -> interface) : M unit :=
  fun i => (Return tt, f i).

Notation "'let*' x ':=' m 'in' k" := (bind m (fun x => k))
  (at level 10, x name, m at level 100, k at level 200).
Notation "m >> k" := (bind m (fun _ => k))
  (at level 100, k at level 200, right associativity).

(** ** GPIO and timer primitives *)

Definition turn_on (gpio : Z) : M unit :=
  modify (with_hw (fun h => set_outputs (<[gpio := true]> (outputs h)) h)).

Definition turn_off (gpio : Z) : M unit :=
  modify (with_hw (fun h => set_outputs (<[gpio := false]> (outputs h)) h)).

Definition get_state (gpio : Z) : M bool :=
  gets (fun i => default false (outputs (hw i) !! gpio)).

Definition time_time : M Q := gets (fun i => clock (hw i)).

(** What the GPIO thread does with an edge dated [t]: [update_sensor] for
    the cycle sensor, a latched event for the emergency stop line. *)
Definition callback (t : Q) (e : edge) (i : interface) : interface :=
  match e with
  | SensorEdge level =>
      let i := with_st (set_sensor level) i in
      if level
      then set_meter_events (deque_append 3 (meter_events i) (float_of_Q t)) i
      else i
  | EmergencyStopEdge => with_hw (set_emergency_stop_detected true) i
  end.

Definition is_due (now : Q) (te : Q * edge) : bool := Qle_bool (fst te) now.

(** The state after [seconds] have passed: the clock has moved on and
    the edges that were due in the meantime have been handled. *)
Definition asleep (seconds : Q) (i : interface) : interface :=
  let now := Qred (clock (hw i) + seconds) in
  let due := List.filter (is_due now) (incoming (hw i)) in
  let later := List.filter (fun te => negb (is_due now te)) (incoming (hw i)) in
  let i := with_hw (fun h => set_trace (trace h ++ [Sleep seconds])%list
                               (set_incoming later (set_clock now h))) i in
  fold_left (fun i te => callback (fst te) (snd te) i) due i.

(** [time.sleep]: a negative length raises [ValueError] at once. *)
Definition time_sleep (seconds : Q) : M unit :=
  fun i =>
    if Qle_bool 0 seconds
    then (Return tt, asleep seconds i)
    else (Raise ValueError, i).

(** [GPIO.event_detected] on the emergency stop line: reading the latch
    clears it. *)
Definition event_detected : M bool :=
  fun i => (Return (emergency_stop_detected (hw i)),
            with_hw (set_emergency_stop_detected false) i).

Definition output_valves_on (sigs : gset string) : M unit :=
  modify (with_hw (fun h => set_trace (trace h ++ [ValvesOn sigs])%list h)).

Definition output_valves_off : M unit :=
  modify (with_hw (fun h => set_trace (trace h ++ [ValvesOff])%list h)).

(** A Python dict with names (or [None]) as keys; a missing key raises
    [KeyError]. *)
Fixpoint dict_get {V} (d : list (option string * V)) (key : option string) : M V :=
  match d with
  | [] => raise (KeyError key)
  | (k, v) :: rest => if bool_decide (k = key) then ret v else dict_get rest key
  end.

(** ** Mode attributes *)

Definition operation_mode (cfg : config) (i : interface) : option string :=
  default (default_mode cfg) (_operation_mode i).

Definition row16_mode (cfg : config) (i : interface) : option string :=
  default (default_row16_mode cfg) (_row16_mode i).

(** [Interface.operation_mode] setter *)
Definition operation_mode_setter (cfg : config) (mode : option string) : M unit :=
  if bool_decide (mode = Some "reset")
  then modify (set__operation_mode (Some (default_mode cfg)))
  else match mode with
       | None => modify (set__operation_mode (Some mode))
       | Some m =>
           if inb m (supported_modes cfg)
           then modify (set__operation_mode (Some mode))
           else raise (UnsupportedMode m)
       end.

(** [Interface.row16_mode] setter *)
Definition row16_mode_setter (cfg : config) (mode : option string) : M unit :=
  if bool_decide (mode = Some "reset")
  then modify (set__row16_mode (Some (default_row16_mode cfg)))
  else match mode with
       | None => modify (set__row16_mode (Some mode))
       | Some m =>
           let* current := gets (operation_mode cfg) in
           if bool_decide (current = Some "casting")
           then if inb m (supported_row16_modes cfg)
                then modify (set__row16_mode (Some mode))
                else raise (UnsupportedRow16Mode m)
           else if inb m ["HMN"; "KMN"; "unit shift"]
                then modify (set__row16_mode (Some mode))
                else ret tt
       end.

(** ** The emergency stop wrapper *)

Definition check_emergency_stop : M unit :=
  let* detected := event_detected in
  if detected then raise MachineStopped else ret tt.

(** [handle_machine_stop]: [machine_off] stands for
    [interface.machine_control(OFF)].  The [try] block is left by
    [MachineStopped] or by [KeyboardInterrupt]; both are answered the
    same way. *)
Definition handle_machine_stop {A} (machine_off : M bool) (routine : M A) : M A :=
  fun i =>
    match (check_emergency_stop >>
           let* retval := routine in
           check_emergency_stop >>
           ret retval) i with
    | (Raise MachineStopped, i') => (machine_off >> raise MachineStopped) i'
    | (Raise KeyboardInterrupt, i') => (machine_off >> raise MachineStopped) i'
    | other => other
    end.

(** The argument of [valves_control]: a set of signals, [False] or [None]. *)
Inductive valves_arg :=
| Signals (sigs : gset string)
| ValvesFalse
| ValvesNone.

Section Interface.

Variable cfg : config.
Variable cv : converters.
(** [self.machine_control(OFF)] as the wrapper calls it. *)
Variable machine_off : M bool.
(** Bound on the iterations of each [while] loop. *)
Variable fuel : nat.

Fixpoint wait_loop (n : nat) (new_state : bool) (timeout start_time : Q) : M unit :=
  fun i =>
    if eqb (sensor (st i)) new_state then (Return tt, i)
    else if negb (Qle_bool (clock (hw i) - start_time) timeout)
         then (Raise MachineStopped, i)
         else match n with
              | O => (Exhausted, i)
              | S n' => (time_sleep (1 # 100) >>
                         wait_loop n' new_state timeout start_time) i
              end.

Definition wait_for_sensor (new_state : bool) (timeout : option Q) : M unit :=
  handle_machine_stop machine_off
    (let* start_time := time_time in
     let timeout := or_Q timeout (sensor_timeout cfg) in
     wait_loop fuel new_state timeout start_time).

Fixpoint for_range (revolutions : nat) (body : M unit) : M unit :=
  match revolutions with
  | O => ret tt
  | S n => body >> for_range n body
  end.

Definition check_rotation (revolutions : nat) : M unit :=
  let timeout := startup_timeout cfg in
  for_range revolutions
    (wait_for_sensor true (Some timeout) >>
     wait_for_sensor false (Some timeout)).

Definition valves_control (state : valves_arg) : M (list string) :=
  handle_machine_stop machine_off
    ((match state with
      | Signals sigs =>
          if bool_decide (sigs = ∅)
          then output_valves_off
          else output_valves_on sigs >>
               modify update_pump_and_wedges >>
               modify (set_signals (ordered_signals cfg sigs))
      | ValvesNone => ret tt
      | ValvesFalse => output_valves_off
      end) >>
     gets signals).

Definition motor_control (state : option bool) : M bool :=
  handle_machine_stop machine_off
    (match state with
     | None => gets (fun i => motor (st i))
     | Some true =>
         let start_gpio := motor_start_gpio cfg in
         turn_on start_gpio >>
         time_sleep (1 # 2) >>
         turn_off start_gpio >>
         modify (with_st (set_motor true)) >>
         ret true
     | Some false =>
         let stop_gpio := motor_stop_gpio cfg in
         turn_on stop_gpio >>
         time_sleep (1 # 2) >>
         turn_off stop_gpio >>
         modify (with_st (set_motor false)) >>
         modify (set_meter_events []) >>
         ret false
     end).

Definition air_control (state : option bool) : M bool :=
  handle_machine_stop machine_off
    (match state with
     | None => gets (fun i => air (st i))
     | Some true =>
         turn_on (air_gpio cfg) >>
         modify (with_st (set_air true)) >>
         ret true
     | Some false =>
         turn_off (air_gpio cfg) >>
         modify (with_st (set_air false)) >>
         ret false
     end).

Definition water_control (state : option bool) : M bool :=
  handle_machine_stop machine_off
    (match state with
     | None => gets (fun i => water (st i))
     | Some true =>
         turn_on (water_gpio cfg) >>
         modify (with_st (set_water true)) >>
         ret true
     | Some false =>
         turn_off (water_gpio cfg) >>
         modify (with_st (set_water false)) >>
         ret false
     end).

Definition prepare_signals (input_signals : list string) : M (gset string) :=
  let row16_converters :=
    [(None, strip_16); (Some "unit shift", convert_unitshift cv);
     (Some "HMN", convert_hmn cv); (Some "KMN", convert_kmn cv)] in
  let* mode16 := gets (row16_mode cfg) in
  let* converter := dict_get row16_converters mode16 in
  let sigs := converter input_signals in
  let o15_converters :=
    [(Some "casting", strip_o15); (Some "punching", add_missing_o15);
     (None, convert_o15)] in
  let* mode := gets (operation_mode cfg) in
  let* o15_converter := dict_get o15_converters mode in
  ret (o15_converter sigs).

Definition cast (input_signals : list string) (timeout : option Q) : M unit :=
  operation_mode_setter cfg (Some "casting") >>
  let* codes := prepare_signals input_signals in
  let timeout := or_Q timeout (sensor_timeout cfg) in
  wait_for_sensor true (Some timeout) >>
  valves_control (Signals codes) >>
  wait_for_sensor false (Some timeout) >>
  valves_control ValvesFalse >>
  ret tt.

Definition test (input_signals : list string) : M unit :=
  operation_mode_setter cfg None >>
  let* codes := prepare_signals input_signals in
  valves_control ValvesFalse >>
  valves_control (Signals codes) >>
  ret tt.

Definition punch (input_signals : list string) : M unit :=
  operation_mode_setter cfg (Some "punching") >>
  let* codes := prepare_signals input_signals in
  valves_control (Signals codes) >>
  time_sleep (punching_on_time cfg) >>
  valves_control ValvesFalse >>
  time_sleep (punching_off_time cfg).

(** [sent] records, in order, the combinations [send_signals] was asked
    to send once the interface was found started. *)
Definition send_signals (sigs : list string) (timeout : option Q) : M unit :=
  let* started := gets (fun i => working (st i)) in
  if negb started then raise InterfaceNotStarted
  else
    let actions :=
      [(Some "casting", fun s => cast s timeout);
       (Some "punching", punch); (None, test)] in
    let* mode := gets (operation_mode cfg) in
    let* action := dict_get actions mode in
    modify (fun i => set_sent (sent i ++ [(sigs, timeout)])%list i) >>
    action sigs.

Fixpoint pump_stop_loop (n : nat) (pump_stop_code : list string) (timeout : Q) : M unit :=
  fun i =>
    if pump (st i)
    then match n with
         | O => (Exhausted, i)
         | S n' => (send_signals pump_stop_code (Some timeout) >>
                    send_signals pump_stop_code (Some timeout) >>
                    pump_stop_loop n' pump_stop_code timeout) i
         end
    else (Return tt, i).

Definition pump_start : M unit :=
  let pump_start_code := (chars "NKS" ++ ["0075"])%list in
  let* wedge_position := gets (fun i => wedge_0075 (st i)) in
  send_signals (pump_start_code ++ [str wedge_position])%list None.

Definition pump_stop : M unit :=
  let* running := gets (fun i => pump (st i)) in
  if negb running then ret tt
  else
    let working_led := working_led_gpio cfg in
    let* working_led_state := get_state working_led in
    (if working_led_state then turn_off (working_led_gpio cfg) else ret tt) >>
    turn_on (error_led_gpio cfg) >>
    let pump_stop_code := (chars "NJS" ++ ["0005"])%list in
    let* wedge_position := gets (fun i => wedge_0005 (st i)) in
    let pump_stop_code := (pump_stop_code ++ [str wedge_position])%list in
    let timeout := pump_stop_timeout cfg in
    pump_stop_loop fuel pump_stop_code timeout >>
    turn_off (error_led_gpio cfg) >>
    (if working_led_state then turn_on working_led else ret tt).

Definition pump_control (state : option bool) : M bool :=
  (match state with
   | None => ret tt
   | Some true => pump_start
   | Some false => pump_stop
   end) >>
  gets (fun i => pump (st i)).

Definition justification (galley_trip : bool) (arg_0005 arg_0075 : option Z) : M unit :=
  let* pump_working := gets (fun i => pump (st i)) in
  let* current_0005 := gets (fun i => wedge_0005 (st i)) in
  let* current_0075 := gets (fun i => wedge_0075 (st i)) in
  let new_0005 := or_Z arg_0005 current_0005 in
  let new_0075 := or_Z arg_0075 current_0075 in
  let send_double code :=
    send_signals (chars "NKJS" ++ ["0075"; "0005"; str code])%list None in
  let send_0005 :=
    send_signals (chars "NJS" ++ ["0005"; str new_0005])%list None in
  let send_0075 :=
    send_signals (chars "NKS" ++ ["0075"; str new_0075])%list None in
  if galley_trip
  then if pump_working
       then send_double new_0005 >> send_0075
       else send_double new_0075 >> send_0005
  else if (new_0005 =? current_0005) && (new_0075 =? current_0075)
       then ret tt
       else if pump_working
            then send_0005 >> send_0075
            else send_0075 >> send_0005.

(** The local function [start] of [machine_control]. *)
Definition start : M unit :=
  let* busy := gets (fun i => working (st i)) in
  if busy then raise InterfaceBusy
  else
    modify (set_meter_events []) >>
    air_control (Some true) >>
    let* mode := gets (operation_mode cfg) in
    (if bool_decide (mode = Some "casting")
     then water_control (Some true) >>
          motor_control (Some true) >>
          check_rotation 3
     else ret tt) >>
    turn_on (working_led_gpio cfg) >>
    modify (with_st (set_working true)).

(** The local function [stop] of [machine_control]. *)
Definition stop : M unit :=
  let* started := gets (fun i => working (st i)) in
  if negb started then ret tt
  else
    pump_control (Some false) >>
    valves_control ValvesFalse >>
    modify (set_signals []) >>
    let* mode := gets (operation_mode cfg) in
    (if bool_decide (mode = Some "casting")
     then motor_control (Some false) >>
          water_control (Some false) >>
          ret tt
     else ret tt) >>
    air_control (Some false) >>
    turn_off (working_led_gpio cfg) >>
    modify (with_st (set_working false)).

Definition machine_control_with (state : option bool) : M bool :=
  (match state with
   | None => ret tt
   | Some true => start
   | Some false => stop
   end) >>
  gets (fun i => working (st i)).

End Interface.

(** [machine_control(OFF)] called from the emergency stop wrapper: each
    nested call may itself go through the wrapper again. *)
Fixpoint machine_off (cfg : config) (cv : converters) (fuel : nat) : M bool :=
  match fuel with
  | O => exhausted
  | S n => machine_control_with cfg cv (machine_off cfg cv n) n (Some false)
  end.

(** The public operations, with the recursion tied. *)
Definition machine_control cfg cv fuel (state : option bool) : M bool :=
  machine_control_with cfg cv (machine_off cfg cv fuel) fuel state.

(** ** Concrete configurations for the scenarios *)

(** The [DEFAULTS] of [main.py], with the default operation mode of the
    interface section left to choose and row 16 addressing off. *)
Definition default_config (mode : option string) : config :=
  {| startup_timeout := 30;
     sensor_timeout := 5;
     pump_stop_timeout := 120;
     punching_on_time := 2 # 10;
     punching_off_time := 3 # 10;
     default_mode := mode;
     default_row16_mode := None;
     supported_modes := ["casting"; "punching"];
     supported_row16_modes := ["HMN"; "KMN"; "unit shift"];
     error_led_gpio := 26;
     working_led_gpio := 25;
     air_gpio := 19;
     water_gpio := 13;
     motor_start_gpio := 5;
     motor_stop_gpio := 6;
     valve1 := ["N"; "M"; "L"; "K"; "J"; "I"; "H"; "G"];
     valve2 := ["F"; "S"; "E"; "D"; "0075"; "C"; "B"; "A"];
     valve3 := ["1"; "2"; "3"; "4"; "5"; "6"; "7"; "8"];
     valve4 := ["9"; "10"; "11"; "12"; "13"; "14"; "0005"; "O15"] |}.

(** The scenarios run with row 16 addressing off, where none of the three
    converters is ever selected; this instance only closes them. *)
Definition row16_unused : converters :=
  {| convert_unitshift := strip_16;
     convert_hmn := strip_16;
     convert_kmn := strip_16 |}.

Definition casting_config : config := default_config (Some "casting").
Definition punching_config : config := default_config (Some "punching").

(** The level of an output line, as [get_state] reads it. *)
Definition led (gpio : Z) (i : interface) : bool :=
  default false (outputs (hw i) !! gpio).

(** A cycle sensor that goes ON at 0.05 s and OFF at 0.10 s of every
    tenth of a second, for [n] revolutions starting at [t0]. *)
Fixpoint revolutions (n : nat) (t0 : Q) : list (Q * edge) :=
  match n with
  | O => []
  | S k => (Qred (t0 + (5 # 100)), SensorEdge true)
           :: (Qred (t0 + (10 # 100)), SensorEdge false)
           :: revolutions k (Qred (t0 + (10 # 100)))
  end.

(** The combinations handed to the output driver, in order. *)
Fixpoint valves_on_events (tr : list event) : list (gset string) :=
  match tr with
  | [] => []
  | ValvesOn sigs :: rest => sigs :: valves_on_events rest
  | _ :: rest => valves_on_events rest
  end.

(** What a run from [i] to [i'] added to the driver trace. *)
Definition new_trace (i i' : interface) : list event :=
  drop (length (trace (hw i))) (trace (hw i')).

(** What a run from [i] to [i'] added to the combinations sent. *)
Definition new_sent (i i' : interface) : list (list string * option Q) :=
  drop (length (sent i)) (sent i').

(** Relations between the state before and after a normal return. *)
Definition respects (R : interface -> interface -> Prop) {A} (m : M A) : Prop :=
  forall i a i', m i = (Return a, i') -> R i i'.

(** Properties kept whatever the outcome. *)
Definition preserves (P : interface -> Prop) {A} (m : M A) : Prop :=
  forall i, P i -> P (snd (m i)).

(** ** Reachable states *)

(** The calls a client (or the passing of time) can make on an interface. *)
Inductive call :=
| MachineControl (state : option bool)
| PumpControl (state : option bool)
| ValvesControl (state : valves_arg)
| MotorControl (state : option bool)
| AirControl (state : option bool)
| WaterControl (state : option bool)
| Justification (galley_trip : bool) (arg_0005 arg_0075 : option Z)
| SendSignals (sigs : list string) (timeout : option Q)
| SetOperationMode (mode : option string)
| SetRow16Mode (mode : option string)
| WaitForSensor (new_state : bool) (timeout : option Q)
| CheckRotation (revolutions : nat)
| Elapse (seconds : Q).

(** The state a call leaves behind, whatever its outcome. *)
Definition perform (cfg : config) (cv : converters) (fuel : nat)
  (c : call) (i : interface) : interface :=
  let off := machine_off cfg cv fuel in
  match c with
  | MachineControl state => snd (machine_control cfg cv fuel state i)
  | PumpControl state => snd (pump_control cfg cv off fuel state i)
  | ValvesControl state => snd (valves_control cfg off state i)
  | MotorControl state => snd (motor_control cfg off state i)
  | AirControl state => snd (air_control cfg off state i)
  | WaterControl state => snd (water_control cfg off state i)
  | Justification galley_trip arg_0005 arg_0075 =>
      snd (justification cfg cv off fuel galley_trip arg_0005 arg_0075 i)
  | SendSignals sigs timeout => snd (send_signals cfg cv off fuel sigs timeout i)
  | SetOperationMode mode => snd (operation_mode_setter cfg mode i)
  | SetRow16Mode mode => snd (row16_mode_setter cfg mode i)
  | WaitForSensor new_state timeout =>
      snd (wait_for_sensor cfg off fuel new_state timeout i)
  | CheckRotation n => snd (check_rotation cfg off fuel n i)
  | Elapse seconds => snd (time_sleep seconds i)
  end.

Inductive reachable (cfg : config) (cv : converters) : interface -> Prop :=
| reachable_init edges : reachable cfg cv (init edges)
| reachable_call i c fuel :
    reachable cfg cv i -> reachable cfg cv (perform cfg cv fuel c i).

Definition wedges_ok (i : interface) : Prop :=
  (1 <= wedge_0005 (st i) <= 15) /\ (1 <= wedge_0075 (st i) <= 15).

Definition casting_api : M bool := machine_off casting_config row16_unused 100.

(** Scenario of the justification claim: casting, started on a turning
    machine, then three combinations that leave the pump on with the 0005
    wedge at 8 and the 0075 wedge at 3. *)
Definition pump_running_8_3 : interface :=
  perform casting_config row16_unused 100 (SendSignals ["G"] None)
    (perform casting_config row16_unused 100
       (SendSignals ["N"; "K"; "S"; "0075"; "3"] None)
       (perform casting_config row16_unused 100
          (SendSignals ["N"; "J"; "S"; "0005"; "8"] None)
          (perform casting_config row16_unused 100 (MachineControl (Some true))
             (init (revolutions 40 0))))).

(** A started punching interface. *)
Definition punching_started : interface :=
  perform punching_config row16_unused 10 (MachineControl (Some true)) (init []).

(** ** What a run leaves alone *)

(** [same f i i']: the run from [i] to [i'] did not change [f]. *)
Definition same {T} (f : interface -> T) (i i' : interface) : Prop := f i' = f i.

(** Everything the environment cannot change: all of the interface but
    the sensor flag, the meter events, the latched emergency stop edge,
    the clock, the schedule and the driver trace. *)
Definition control (i : interface) :=
  (wedge_0005 (st i), wedge_0075 (st i), working (st i), water (st i),
   air (st i), motor (st i), pump (st i), signals i,
   _operation_mode i, _row16_mode i, outputs (hw i), sent i).

Definition quiet : interface -> interface -> Prop := same control.

Definition lines_and_sent (i : interface) := (outputs (hw i), sent i).

Definition pump_and_signals (i : interface) := (pump (st i), signals i).

(** The pump stop combination for a given position of the 0005 wedge. *)
Definition pump_stop_code (wedge_position : Z) : list string :=
  (chars "NJS" ++ ["0005"] ++ [str wedge_position])%list.

(** A casting interface whose start failed: nothing turns, so
    [check_rotation] times out after the startup timeout. *)
Definition failed_start : interface :=
  perform casting_config row16_unused 3100 (MachineControl (Some true)) (init []).

(** An emergency stop edge arrives 5 ms into a wait for the sensor, which
    goes ON at 50 ms. *)
Definition estop_during_wait : interface :=
  init [(1 # 200, EmergencyStopEdge); (1 # 20, SensorEdge true)]%Q.

(** Two states that differ at most in the latched emergency stop edge. *)
Definition latch_apart (i j : interface) : Prop :=
  with_hw (set_emergency_stop_detected false) i
  = with_hw (set_emergency_stop_detected false) j.

(** A configuration whose default row 16 mode is a name the interface
    has no converter for. *)
Definition odd_row16_config : config :=
  {| startup_timeout := 30;
     sensor_timeout := 5;
     pump_stop_timeout := 120;
     punching_on_time := 2 # 10;
     punching_off_time := 3 # 10;
     default_mode := Some "casting";
     default_row16_mode := Some "off";
     supported_modes := ["casting"; "punching"];
     supported_row16_modes := ["HMN"; "KMN"; "unit shift"];
     error_led_gpio := 26;
     working_led_gpio := 25;
     air_gpio := 19;
     water_gpio := 13;
     motor_start_gpio := 5;
     motor_stop_gpio := 6;
     valve1 := ["N"; "M"; "L"; "K"; "J"; "I"; "H"; "G"];
     valve2 := ["F"; "S"; "E"; "D"; "0075"; "C"; "B"; "A"];
     valve3 := ["1"; "2"; "3"; "4"; "5"; "6"; "7"; "8"];
     valve4 := ["9"; "10"; "11"; "12"; "13"; "14"; "0005"; "O15"] |}.

(** The calls made on the output driver, without the sleeps in between. *)
Definition driver_calls (tr : list event) : list event :=
  List.filter (fun e => match e with Sleep _ => false | _ => true end) tr.

(** What [valves_control] tells the driver for a set of signals: an
    empty set releases the valves. *)
Definition valves_event (codes : gset string) : event :=
  if bool_decide (codes = ∅) then ValvesOff else ValvesOn codes.

Definition calls (i : interface) : list event := driver_calls (trace (hw i)).

(** ** Runs that end in machine-stopped *)

(** [stops Q m]: whenever [m] raises machine-stopped, [Q] holds of the
    state it leaves. *)
Definition stops (Q : interface -> Prop) {A} (m : M A) : Prop :=
  forall i i', m i = (Raise MachineStopped, i') -> Q i'.

(** [settles Q off]: whenever [off] returns normally or raises
    machine-stopped, [Q] holds of the state it leaves. *)
Definition settles (Q : interface -> Prop) (off : M bool) : Prop :=
  forall i i',
    (exists b, off i = (Return b, i')) \/ off i = (Raise MachineStopped, i') ->
    Q i'.

(** A call with its outcome, the value returned left out. *)
Definition attempt (cfg : config) (cv : converters) (fuel : nat)
  (c : call) : M unit :=
  let off := machine_off cfg cv fuel in
  match c with
  | MachineControl state => machine_control cfg cv fuel state >> ret tt
  | PumpControl state => pump_control cfg cv off fuel state >> ret tt
  | ValvesControl state => valves_control cfg off state >> ret tt
  | MotorControl state => motor_control cfg off state >> ret tt
  | AirControl state => air_control cfg off state >> ret tt
  | WaterControl state => water_control cfg off state >> ret tt
  | Justification galley_trip arg_0005 arg_0075 =>
      justification cfg cv off fuel galley_trip arg_0005 arg_0075
  | SendSignals sigs timeout => send_signals cfg cv off fuel sigs timeout
  | SetOperationMode mode => operation_mode_setter cfg mode
  | SetRow16Mode mode => row16_mode_setter cfg mode
  | WaitForSensor new_state timeout =>
      wait_for_sensor cfg off fuel new_state timeout
  | CheckRotation n => check_rotation cfg off fuel n
  | Elapse seconds => time_sleep seconds
  end.

Definition meter_ok (i : interface) : Prop := (length (meter_events i) <= 3)%nat.

(** ** The LED helper of the daemon *)

(** [blink]: [LEDS] is the module's registry of LED names; a missing
    name and a line number 0 are both falsy for [if not led_gpio]. *)
Definition blink (LEDS : gmap string Z) (gpio : option string)
  (seconds : Q) (times : nat) : M unit :=
  let led_gpio :=
    match gpio with
    | Some name => LEDS !! name
    | None => None
    end in
  match led_gpio with
  | None => ret tt
  | Some led_gpio =>
      if led_gpio =? 0 then ret tt
      else for_range times
             (turn_off led_gpio >>
              time_sleep seconds >>
              turn_on led_gpio >>
              time_sleep seconds)
  end.

(** The modes in force and the machine's switches: what sending a
    combination leaves alone. *)
Definition actuators (cfg : config) (i : interface) :=
  (operation_mode cfg i, row16_mode cfg i, working (st i), water (st i),
   air (st i), motor (st i)).

(** Modelled from the spec: the exact value of a float, which the
    infinities and nan do not have. *)
Definition float_value (x : float) : option Q :=
  match x with
  | SpecFloat.S754_zero _ => Some 0%Q
  | SpecFloat.S754_finite s m e =>
      Some (if s then - (inject_Z (Zpos m) * 2 ^ e) else inject_Z (Zpos m) * 2 ^ e)%Q
  | _ => None
  end.

(** Modelled from the spec: "the span is 0". *)
Definition span_is_zero (x : float) : Prop :=
  exists v, float_value x = Some v /\ (v == 0)%Q.

(** Modelled from the spec: "the span exceeds" a number of exact value
    [q]. *)
Definition exceeds (x : float) (q : Q) : Prop :=
  x = SpecFloat.S754_infinity false \/
  exists v, float_value x = Some v /\ (q < v)%Q.

(** Modelled from the spec: "rounded to two decimal places".  [n]
    hundredths is a decimal with two places nearest to [q], the even one
    of the two when [q] lies half way. *)
Definition nearest_hundredth (q : Q) (n : Z) : Prop :=
  (Qabs (inject_Z n / 100 - q) <= 1 # 200)%Q /\
  ((Qabs (inject_Z n / 100 - q) == 1 # 200)%Q -> Z.even n = true).

(** Modelled from the spec: the float [r] is the float [x] rounded to two
    decimal places: the float nearest to the nearest decimal of the
    exact value of [x], with the sign of [x]; a float without a value
    stays as it is, and so does a zero. *)
Definition rounded_to_hundredths (x r : float) : Prop :=
  match x with
  | SpecFloat.S754_finite s _ _ =>
      exists v n,
        float_value x = Some v /\
        nearest_hundredth (Qabs v) n /\
        r = (if s then float_neg (float_of_Q (n # 100)) else float_of_Q (n # 100))
  | _ => r = x
  end.

(** * Theorems *)

(** Closed goals about concrete runs: split the conjunctions and evaluate
    each part. *)
Ltac evaluate :=
  repeat match goal with |- _ /\ _ => split end;
  vm_compute; exact eq_refl.


(** ** Mode setters and the busy check *)

(** C6: [machine_control(on)] on an interface that is already working
    raises interface-busy and leaves the whole interface state as it was. *)
Theorem machine_control_on_busy cfg cv fuel (i : interface) :
  working (st i) = true ->
  machine_control cfg cv fuel (Some true) i = (Raise InterfaceBusy, i).
Proof.
  intros Hw. unfold machine_control, machine_control_with, start, bind, gets.
  rewrite Hw. reflexivity.
Qed.

Lemma machine_control_on_busy_witness :
  working (st punching_started) = true /\
  machine_control punching_config row16_unused 10 (Some true) punching_started
  = (Raise InterfaceBusy, punching_started).
Proof.
  split; [reflexivity | apply machine_control_on_busy; reflexivity].
Defined.

(** C10: outside casting, a row 16 mode that is none of HMN, KMN,
    unit shift, reset (nor [None]) is ignored: the setter returns normally
    and nothing changes; and no call of the setter raises at all. *)
Theorem row16_mode_ignored_outside_casting cfg (i : interface) :
  operation_mode cfg i <> Some "casting" ->
  (forall m : string,
      m ∉ ["HMN"; "KMN"; "unit shift"; "reset"] ->
      row16_mode_setter cfg (Some m) i = (Return tt, i)) /\
  (forall mode e i', row16_mode_setter cfg mode i <> (Raise e, i')).
Proof.
  intros Hmode. split.
  - intros m Hm. unfold row16_mode_setter.
    rewrite bool_decide_eq_false_2.
    2:{ intros [= ->]. apply Hm. apply (bool_decide_unpack _). vm_compute. exact I. }
    unfold bind, gets. rewrite (bool_decide_eq_false_2 _ Hmode).
    unfold inb. rewrite bool_decide_eq_false_2; [reflexivity|].
    intros Hin. apply Hm. revert Hin. rewrite !elem_of_cons. tauto.
  - intros mode e i'. unfold row16_mode_setter.
    destruct (bool_decide (mode = Some "reset")); [discriminate|].
    destruct mode as [m|]; [|discriminate].
    unfold bind, gets. rewrite (bool_decide_eq_false_2 _ Hmode).
    destruct (inb m _); discriminate.
Qed.

Lemma row16_mode_ignored_outside_casting_witness :
  row16_mode_setter punching_config (Some "16 as 15") punching_started
  = (Return tt, punching_started).
Proof.
  apply (row16_mode_ignored_outside_casting punching_config punching_started).
  - discriminate.
  - apply (bool_decide_unpack _). vm_compute. exact I.
Defined.

(** ** Speed meter *)

(** The magnitude the code computes with is the exact value. *)
Lemma magnitude_value (m : positive) (e : Z) :
  (magnitude m e == inject_Z (Zpos m) * 2 ^ e)%Q.
Proof.
  destruct e as [|k|k]; unfold magnitude.
  - change (2 ^ 0)%Q with 1%Q. rewrite Qmult_1_r. reflexivity.
  - change 2%Q with (inject_Z 2). rewrite <- Zpower_Qpower by lia.
    rewrite <- inject_Z_mult, Pos2Z.inj_mul, Pos2Z.inj_pow. reflexivity.
  - change (Z.neg k) with (- Z.pos k)%Z. rewrite Qpower_opp.
    change 2%Q with (inject_Z 2). rewrite <- Zpower_Qpower by lia.
    rewrite <- Pos2Z.inj_pow, (Qmake_Qdiv (Z.pos m) (2 ^ k)).
    reflexivity.
Qed.

Lemma magnitude_pos (m : positive) (e : Z) : (0 < magnitude m e)%Q.
Proof. destruct e; reflexivity. Qed.

Lemma value_abs (s : bool) (m : positive) (e : Z) :
  (Qabs (if s then - (inject_Z (Zpos m) * 2 ^ e) else inject_Z (Zpos m) * 2 ^ e)
   == magnitude m e)%Q.
Proof.
  pose proof (magnitude_pos m e) as Hpos. destruct s.
  - rewrite <- magnitude_value, Qabs_opp, Qabs_pos by lra. reflexivity.
  - rewrite <- magnitude_value, Qabs_pos by lra. reflexivity.
Qed.

(** Truth value and comparison of a float, on its exact value. *)
Lemma float_bool_spec (x : float) : float_bool x = false <-> span_is_zero x.
Proof.
  unfold span_is_zero. destruct x as [s|s| |s m e]; simpl.
  - split; [intros _; exists 0%Q; split; reflexivity | reflexivity].
  - split; [discriminate | intros (v & Hv & _); discriminate Hv].
  - split; [discriminate | intros (v & Hv & _); discriminate Hv].
  - split; [discriminate|]. intros (v & [= <-] & Hv). exfalso.
    pose proof (magnitude_pos m e) as Hpos.
    pose proof (value_abs s m e) as Habs. rewrite Hv in Habs.
    change (Qabs 0) with 0%Q in Habs. lra.
Qed.

Lemma not_Qle_bool (a q : Q) : negb (Qle_bool a q) = true <-> (q < a)%Q.
Proof.
  rewrite negb_true_iff. split.
  - intros H. apply Qnot_le_lt. intros Hle. apply Qle_bool_iff in Hle. congruence.
  - intros H. apply not_true_is_false. intros Hle. apply Qle_bool_iff in Hle. lra.
Qed.

Lemma float_gt_spec (x : float) (q : Q) : float_gt x q = true <-> exceeds x q.
Proof.
  unfold exceeds. destruct x as [s|s| |s m e]; simpl.
  - rewrite not_Qle_bool. split.
    + intros H. right. exists 0%Q. auto.
    + intros [H|(v & [= <-] & H)]; [discriminate H | exact H].
  - split.
    + destruct s; [discriminate | auto].
    + intros [[= ->]|(v & Hv & _)]; [reflexivity | discriminate Hv].
  - split; [discriminate|].
    intros [H|(v & Hv & _)]; [discriminate H | discriminate Hv].
  - pose proof (magnitude_value m e) as Hm. destruct s; rewrite not_Qle_bool.
    + split.
      * intros H. right. eexists. split; [reflexivity|]. lra.
      * intros [H|(v & [= <-] & H)]; [discriminate H | lra].
    + split.
      * intros H. right. eexists. split; [reflexivity|]. lra.
      * intros [H|(v & [= <-] & H)]; [discriminate H | lra].
Qed.

(** The difference of a timestamp and itself is zero. *)
Lemma float_sub_self (x : float) :
  float_value x <> None -> float_bool (float_sub x x) = false.
Proof.
  destruct x as [[|]|[|]| |s m e]; try reflexivity; try (intros H; exfalso; apply H; reflexivity).
  intros _. unfold float_sub, SpecFloat.SFsub.
  rewrite Z.sub_diag. reflexivity.
Qed.

(** The rounding used by [rpm] stays within half a hundredth. *)
Lemma round_half_even_close (x : Q) :
  (Qabs (inject_Z (round_half_even x) - x) <= 1 # 2)%Q.
Proof.
  unfold round_half_even.
  pose proof (Qfloor_le x) as Hlo.
  pose proof (Qlt_floor x) as Hhi.
  rewrite inject_Z_plus in Hhi. change (inject_Z 1) with 1%Q in Hhi.
  set (f := Qfloor x) in *.
  assert (Hcase : forall c, (x - inject_Z f ?= 1 # 2)%Q = c ->
            (Qabs (inject_Z (match c with
                              | Lt => f
                              | Gt => f + 1
                              | Eq => if Z.even f then f else f + 1
                              end) - x) <= 1 # 2)%Q).
  { intros c Hc. apply Qabs_Qle_condition.
    destruct c.
    - apply Qeq_alt in Hc.
      destruct (Z.even f);
        [|rewrite inject_Z_plus; change (inject_Z 1) with 1%Q]; split; lra.
    - apply Qlt_alt in Hc. split; lra.
    - apply Qgt_alt in Hc. rewrite inject_Z_plus.
      change (inject_Z 1) with 1%Q. split; lra. }
  apply Hcase. reflexivity.
Qed.

(** On a tie the even neighbour is taken. *)
Lemma round_half_even_tie (x : Q) :
  (Qabs (inject_Z (round_half_even x) - x) == 1 # 2)%Q ->
  Z.even (round_half_even x) = true.
Proof.
  unfold round_half_even.
  pose proof (Qfloor_le x) as Hlo.
  pose proof (Qlt_floor x) as Hhi.
  rewrite inject_Z_plus in Hhi. change (inject_Z 1) with 1%Q in Hhi.
  set (f := Qfloor x) in *.
  destruct (x - inject_Z f ?= 1 # 2)%Q eqn:Hc; intros Htie.
  - destruct (Z.even f) eqn:He; [exact He|].
    rewrite Z.even_add, He. reflexivity.
  - apply Qlt_alt in Hc. exfalso.
    rewrite Qabs_neg in Htie by lra. lra.
  - apply Qgt_alt in Hc. exfalso.
    rewrite inject_Z_plus in Htie. change (inject_Z 1) with 1%Q in Htie.
    rewrite Qabs_pos in Htie by lra. lra.
Qed.

Lemma nearest_hundredth_round_half_even (q : Q) :
  nearest_hundredth q (round_half_even (q * 100)).
Proof.
  unfold nearest_hundredth.
  pose proof (round_half_even_close (q * 100)) as Hclose.
  pose proof (round_half_even_tie (q * 100)) as Htie.
  set (z := inject_Z (round_half_even (q * 100))) in *.
  assert (Hscale : (z / 100 - q == (z - q * 100) * (1 # 100))%Q) by field.
  assert (Habs : (Qabs (z / 100 - q) == Qabs (z - q * 100) * (1 # 100))%Q).
  { rewrite Hscale, Qabs_Qmult. reflexivity. }
  split.
  - rewrite Habs. lra.
  - intros H. apply Htie. rewrite Habs in H. lra.
Qed.

(** The nearest decimal, ties to even, is unique. *)
Lemma nearest_hundredth_unique (q : Q) (n n' : Z) :
  nearest_hundredth q n -> nearest_hundredth q n' -> n = n'.
Proof.
  intros [Hn Tn] [Hn' Tn'].
  assert (Hcase : forall a b : Z,
             (Qabs (inject_Z a / 100 - q) <= 1 # 200)%Q ->
             (Qabs (inject_Z b / 100 - q) <= 1 # 200)%Q ->
             ((Qabs (inject_Z a / 100 - q) == 1 # 200)%Q -> Z.even a = true) ->
             ((Qabs (inject_Z b / 100 - q) == 1 # 200)%Q -> Z.even b = true) ->
             a < b -> False).
  { intros a b Ha Hb Ta Tb Hlt.
    apply Qabs_Qle_condition in Ha. apply Qabs_Qle_condition in Hb.
    assert (Hb1 : (inject_Z a + 1 <= inject_Z b)%Q).
    { change 1%Q with (inject_Z 1). rewrite <- inject_Z_plus.
      rewrite <- Zle_Qle. lia. }
    assert (Ea : (inject_Z a / 100 - q == - (1 # 200))%Q).
    { assert (inject_Z a / 100 == inject_Z a * (1 # 100))%Q by field.
      assert (inject_Z b / 100 == inject_Z b * (1 # 100))%Q by field.
      lra. }
    assert (Eb : (inject_Z b / 100 - q == 1 # 200)%Q).
    { assert (inject_Z a / 100 == inject_Z a * (1 # 100))%Q by field.
      assert (inject_Z b / 100 == inject_Z b * (1 # 100))%Q by field.
      lra. }
    assert (Hab : (inject_Z b == inject_Z a + 1)%Q).
    { assert (inject_Z a / 100 == inject_Z a * (1 # 100))%Q by field.
      assert (inject_Z b / 100 == inject_Z b * (1 # 100))%Q by field.
      lra. }
    change 1%Q with (inject_Z 1) in Hab. rewrite <- inject_Z_plus in Hab.
    apply (proj1 (inject_Z_injective _ _)) in Hab.
    assert (Ha' : Z.even a = true).
    { apply Ta. rewrite Ea. reflexivity. }
    assert (Hb' : Z.even b = true).
    { apply Tb. rewrite Eb. reflexivity. }
    rewrite Hab, Z.even_add, Ha' in Hb'. discriminate Hb'. }
  destruct (Z.lt_trichotomy n n') as [Hlt|[Heq|Hgt]].
  - exfalso. exact (Hcase n n' Hn Hn' Tn Tn' Hlt).
  - exact Heq.
  - exfalso. exact (Hcase n' n Hn' Hn Tn' Tn Hgt).
Qed.

Lemma nearest_hundredth_comp (q q' : Q) (n : Z) :
  (q == q')%Q -> nearest_hundredth q n -> nearest_hundredth q' n.
Proof.
  intros E [H T]. split.
  - rewrite <- E. exact H.
  - intros H'. apply T. rewrite E. exact H'.
Qed.

(** [round2] rounds to two decimal places, and nothing else does. *)
Lemma round2_spec (x r : float) :
  rounded_to_hundredths x r <-> r = round2 x.
Proof.
  destruct x as [s|s| |s m e]; simpl; try tauto.
  pose proof (nearest_hundredth_round_half_even (magnitude m e)) as Hcode.
  split.
  - intros (v & n & [= <-] & Hn & ->).
    apply (nearest_hundredth_comp _ _ _ (value_abs s m e)) in Hn.
    rewrite (nearest_hundredth_unique _ _ _ Hn Hcode). reflexivity.
  - intros ->. eexists. exists (round_half_even (magnitude m e * 100)).
    split; [reflexivity|]. split; [|reflexivity].
    apply (nearest_hundredth_comp (magnitude m e)); [|exact Hcode].
    symmetry. apply value_abs.
Qed.

(** C8: [rpm] is the int 0 with fewer than two timestamps, with a span
    of 0 and with a span above the sensor timeout; otherwise it is the
    number of events minus one, divided by the span, times 60, rounded to
    two decimal places.  The arithmetic is Python's float arithmetic, and
    a single timestamp is taken to be a number. *)
Theorem rpm_spec cfg (i : interface) :
  ((length (meter_events i) < 2)%nat ->
   Forall (fun t => float_value t <> None) (meter_events i) ->
   rpm cfg i = Int 0) /\
  (forall first_event last_event,
      head (meter_events i) = Some first_event ->
      last (meter_events i) = Some last_event ->
      let span := float_sub last_event first_event in
      (span_is_zero span -> rpm cfg i = Int 0) /\
      (exceeds span (sensor_timeout cfg) -> rpm cfg i = Int 0) /\
      (~ span_is_zero span ->
       ~ exceeds span (sensor_timeout cfg) ->
       exists r,
         rpm cfg i = Float r /\
         rounded_to_hundredths
           (float_mul
              (float_truediv
                 (float_of_Z (Z.of_nat (length (meter_events i)) - 1)) span)
              (float_of_Z 60))
           r)).
Proof.
  unfold rpm. split.
  - destruct (meter_events i) as [|x [|y l]]; simpl; intros Hlen Hnum.
    + reflexivity.
    + apply Forall_inv in Hnum. rewrite float_sub_self by exact Hnum.
      reflexivity.
    + lia.
  - intros first_event last_event -> ->. cbv zeta.
    set (span := float_sub last_event first_event).
    repeat split.
    + intros H. apply float_bool_spec in H. rewrite H. reflexivity.
    + intros H. apply float_gt_spec in H. rewrite H, orb_true_r. reflexivity.
    + intros Hnz Hle.
      destruct (float_bool span) eqn:Hb;
        [|exfalso; apply Hnz, float_bool_spec, Hb].
      destruct (float_gt span (sensor_timeout cfg)) eqn:Hg;
        [exfalso; apply Hle, float_gt_spec, Hg|].
      simpl negb. cbv iota.
      eexists. split; [reflexivity|]. apply round2_spec. reflexivity.
Qed.

(** One revolution in 3.84 s is 15.625 rpm on paper, a tie that would go
    to 15.62; the float nearest to 3.84 is a little smaller, the quotient
    a little larger, and [rpm] returns 15.63. *)
Lemma rpm_spec_witness :
  let i := set_meter_events [float_of_Q 0; float_of_Q (384 # 100)] (init []) in
  rpm casting_config i = Float (float_of_Q (1563 # 100)) /\
  exists r,
    rpm casting_config i = Float r /\
    rounded_to_hundredths
      (float_mul
         (float_truediv (float_of_Z (Z.of_nat (length (meter_events i)) - 1))
            (float_sub (float_of_Q (384 # 100)) (float_of_Q 0)))
         (float_of_Z 60))
      r.
Proof.
  intros i. split; [vm_compute; reflexivity|].
  apply (proj2 (rpm_spec casting_config i)
               (float_of_Q 0) (float_of_Q (384 # 100)) eq_refl eq_refl).
  - intros H. apply float_bool_spec in H. vm_compute in H. discriminate H.
  - intros H. apply float_gt_spec in H. vm_compute in H. discriminate H.
Defined.

(** ** The defects seen at concrete inputs *)

(** C1 (code as it is): on a fresh interface, [valves_control] with the
    pump start combination hands the set to the driver, but the pump and
    the 0075 wedge stay at their old values, because
    [update_pump_and_wedges] reads [self.signals] before the new
    combination is stored there.  The same bookkeeping run on the stored
    combination gives pump on and wedge 3. *)
Theorem valves_control_reads_previous_signals :
  let sigs : gset string := list_to_set ["N"; "K"; "S"; "0075"; "3"] in
  let run := valves_control casting_config casting_api (Signals sigs) (init []) in
  fst run = Return ["N"; "K"; "S"; "0075"; "3"] /\
  trace (hw (snd run)) = [ValvesOn sigs] /\
  signals (snd run) = ["N"; "K"; "S"; "0075"; "3"] /\
  pump (st (snd run)) = false /\
  wedge_0075 (st (snd run)) = 15 /\
  pump (st (update_pump_and_wedges (snd run))) = true /\
  wedge_0075 (st (update_pump_and_wedges (snd run))) = 3.
Proof. cbv zeta. evaluate. Qed.

(** C2 (code as it is): punching the single signal A hands the four
    names A, O, 1 and 5 to the driver, not A and O15: [set.update('O15')]
    adds the characters of the string.  The timing of the cycle is as
    claimed. *)
Theorem punch_short_input_adds_characters :
  let run := send_signals punching_config row16_unused
               (machine_off punching_config row16_unused 10) 10
               ["A"] None punching_started in
  let received : gset string := list_to_set ["A"; "O"; "1"; "5"] in
  fst run = Return tt /\
  new_trace punching_started (snd run)
  = [ValvesOn received; Sleep (2 # 10); ValvesOff; Sleep (3 # 10)] /\
  mem "O15" received = false /\
  size received = 4%nat /\
  signals (snd run) = ["A"; "1"; "5"].
Proof. cbv zeta. evaluate. Qed.

(** C5 (code as it is): with the pump on, wedge 0005 at 8 and wedge 0075
    at 3, the galley trip with new wedges 12 and 4 sends the two claimed
    combinations in order, but ends with both wedges at 12: the second
    combination is never read back by [update_pump_and_wedges]. *)
Theorem justification_galley_trip_wedges :
  let i := pump_running_8_3 in
  let run := justification casting_config row16_unused casting_api 100
               true (Some 12) (Some 4) i in
  (working (st i) = true /\ pump (st i) = true /\
   wedge_0005 (st i) = 8 /\ wedge_0075 (st i) = 3) /\
  fst run = Return tt /\
  new_sent i (snd run)
  = [(["N"; "K"; "J"; "S"; "0075"; "0005"; "12"], None);
     (["N"; "K"; "S"; "0075"; "4"], None)] /\
  valves_on_events (new_trace i (snd run))
  = [list_to_set ["N"; "K"; "J"; "S"; "0075"; "0005"; "12"];
     list_to_set ["N"; "K"; "S"; "0075"; "4"]] /\
  wedge_0005 (st (snd run)) = 12 /\
  wedge_0075 (st (snd run)) = 12.
Proof. cbv zeta. evaluate. Qed.

(** ** Reasoning about runs *)

Lemma bind_Return {A B} (m : M A) (k : A -> M B) i b i' :
  bind m k i = (Return b, i') ->
  exists a i1, m i = (Return a, i1) /\ k a i1 = (Return b, i').
Proof.
  unfold bind. destruct (m i) as [[a| |] i1]; try discriminate. eauto.
Qed.

Lemma time_sleep_nonneg seconds (i : interface) :
  Qle_bool 0 seconds = true ->
  time_sleep seconds i = (Return tt, asleep seconds i).
Proof. intros H. unfold time_sleep. rewrite H. reflexivity. Qed.

Lemma time_sleep_negative seconds (i : interface) :
  Qle_bool 0 seconds = false ->
  time_sleep seconds i = (Raise ValueError, i).
Proof. intros H. unfold time_sleep. rewrite H. reflexivity. Qed.

Lemma time_sleep_Return seconds (i : interface) u i' :
  time_sleep seconds i = (Return u, i') ->
  Qle_bool 0 seconds = true /\ i' = asleep seconds i.
Proof.
  unfold time_sleep. destruct (Qle_bool 0 seconds); [|discriminate].
  intros [= _ <-]. auto.
Qed.

Lemma clear_latch_idle (i : interface) :
  emergency_stop_detected (hw i) = false ->
  with_hw (set_emergency_stop_detected false) i = i.
Proof.
  destruct i as [s sg me om rm [o e c inc tr] sn]. simpl. intros ->. reflexivity.
Qed.

Lemma check_emergency_stop_clear (i : interface) :
  emergency_stop_detected (hw i) = false ->
  check_emergency_stop i = (Return tt, i).
Proof.
  intros H. unfold check_emergency_stop, bind, event_detected.
  rewrite H. unfold ret. rewrite clear_latch_idle; auto.
Qed.

Lemma check_emergency_stop_latched (i : interface) :
  emergency_stop_detected (hw i) = true ->
  check_emergency_stop i
  = (Raise MachineStopped, with_hw (set_emergency_stop_detected false) i).
Proof.
  intros H. unfold check_emergency_stop, bind, event_detected.
  rewrite H. reflexivity.
Qed.

Lemma check_emergency_stop_Return (i : interface) u i' :
  check_emergency_stop i = (Return u, i') ->
  emergency_stop_detected (hw i) = false /\ i' = i.
Proof.
  destruct (emergency_stop_detected (hw i)) eqn:E.
  - rewrite check_emergency_stop_latched by assumption. discriminate.
  - rewrite check_emergency_stop_clear by assumption. intros [= _ <-]. auto.
Qed.

Lemma stop_then_raise_not_Return {A} (machine_off : M bool) i (a : A) i' :
  (machine_off >> raise MachineStopped) i <> (Return a, i').
Proof.
  unfold bind, raise. destruct (machine_off i) as [[b| |] i1]; discriminate.
Qed.

(** A wrapped routine that returns normally saw no emergency stop edge
    before or after, and the wrapper added nothing. *)
Lemma handle_machine_stop_Return {A} (machine_off : M bool) (routine : M A) i a i' :
  handle_machine_stop machine_off routine i = (Return a, i') ->
  emergency_stop_detected (hw i) = false /\
  routine i = (Return a, i') /\
  emergency_stop_detected (hw i') = false.
Proof.
  unfold handle_machine_stop.
  destruct ((check_emergency_stop >>
             (let* retval := routine in check_emergency_stop >> ret retval)) i)
    as [[r|e|] i1] eqn:E.
  - intros [= -> ->].
    apply bind_Return in E as (u & i2 & Hc & E).
    apply check_emergency_stop_Return in Hc as [Hc ->].
    apply bind_Return in E as (r & i3 & Hr & E).
    apply bind_Return in E as (u' & i4 & Hc' & E).
    apply check_emergency_stop_Return in Hc' as [Hc' ->].
    injection E as <- <-. auto.
  - destruct e; try discriminate;
      intros H; exfalso; eapply stop_then_raise_not_Return; exact H.
  - discriminate.
Qed.

Section Respects.

Variable R : interface -> interface -> Prop.
Hypothesis R_refl : forall i, R i i.
Hypothesis R_trans : forall i j k, R i j -> R j k -> R i k.

Lemma respects_ret {A} (a : A) : respects R (ret a).
Proof. intros i b i' [= _ <-]. apply R_refl. Qed.

Lemma respects_raise {A} e : respects R (raise (A := A) e).
Proof. intros i b i'. discriminate. Qed.

Lemma respects_gets {A} (f : interface -> A) : respects R (gets f).
Proof. intros i b i' [= _ <-]. apply R_refl. Qed.

Lemma respects_modify f : (forall i, R i (f i)) -> respects R (modify f).
Proof. intros H i b i' [= Hi]. subst i'. apply H. Qed.

Lemma respects_bind {A B} (m : M A) (k : A -> M B) :
  respects R m -> (forall a, respects R (k a)) -> respects R (bind m k).
Proof.
  intros Hm Hk i b i' H.
  apply bind_Return in H as (a & i1 & H1 & H2).
  eapply R_trans; [eapply Hm | eapply Hk]; eassumption.
Qed.

Lemma respects_dict_get {V} (d : list (option string * V)) key :
  respects R (dict_get d key).
Proof.
  induction d as [|[k v] d IH]; simpl.
  - apply respects_raise.
  - destruct (bool_decide (k = key)); [apply respects_ret | exact IH].
Qed.

Lemma respects_dict_get_bind {V B} (d : list (option string * V)) key
      (k : V -> M B) :
  (forall v, In v (map snd d) -> respects R (k v)) ->
  respects R (bind (dict_get d key) k).
Proof.
  induction d as [|[k0 v0] d IH]; intros Hk.
  - intros i b i'. discriminate.
  - simpl dict_get. destruct (bool_decide (k0 = key)).
    + intros i b i' H. eapply (Hk v0); [left; reflexivity | exact H].
    + apply IH. intros v Hv. apply Hk. right. exact Hv.
Qed.

Lemma respects_handle_machine_stop {A} machine_off (routine : M A) :
  respects R routine -> respects R (handle_machine_stop machine_off routine).
Proof.
  intros Hr i a i' H. apply handle_machine_stop_Return in H as (_ & H & _).
  eapply Hr; eassumption.
Qed.

Lemma respects_for_range n (body : M unit) :
  respects R body -> respects R (for_range n body).
Proof.
  intros Hb. induction n; simpl.
  - apply respects_ret.
  - apply respects_bind; auto.
Qed.

End Respects.

Section Preserves.

Variable P : interface -> Prop.

Lemma preserves_ret {A} (a : A) : preserves P (ret a).
Proof. intros i H. exact H. Qed.

Lemma preserves_raise {A} e : preserves P (raise (A := A) e).
Proof. intros i H. exact H. Qed.

Lemma preserves_exhausted {A} : preserves P (exhausted (A := A)).
Proof. intros i H. exact H. Qed.

Lemma preserves_gets {A} (f : interface -> A) : preserves P (gets f).
Proof. intros i H. exact H. Qed.

Lemma preserves_modify f : (forall i, P i -> P (f i)) -> preserves P (modify f).
Proof. intros H i Hi. apply H, Hi. Qed.

Lemma preserves_bind {A B} (m : M A) (k : A -> M B) :
  preserves P m -> (forall a, preserves P (k a)) -> preserves P (bind m k).
Proof.
  intros Hm Hk i Hi. unfold bind. specialize (Hm i Hi).
  destruct (m i) as [[a| |] i1]; simpl in *; auto.
  apply Hk, Hm.
Qed.

Lemma preserves_dict_get {V} (d : list (option string * V)) key :
  preserves P (dict_get d key).
Proof.
  induction d as [|[k v] d IH]; simpl.
  - apply preserves_raise.
  - destruct (bool_decide (k = key)); [apply preserves_ret | exact IH].
Qed.

Lemma preserves_dict_get_bind {V B} (d : list (option string * V)) key
      (k : V -> M B) :
  (forall v, In v (map snd d) -> preserves P (k v)) ->
  preserves P (bind (dict_get d key) k).
Proof.
  induction d as [|[k0 v0] d IH]; intros Hk.
  - intros i Hi. exact Hi.
  - simpl dict_get. destruct (bool_decide (k0 = key)).
    + intros i Hi. apply (Hk v0); [left; reflexivity | exact Hi].
    + apply IH. intros v Hv. apply Hk. right. exact Hv.
Qed.

Lemma preserves_for_range n (body : M unit) :
  preserves P body -> preserves P (for_range n body).
Proof.
  intros Hb. induction n; simpl.
  - apply preserves_ret.
  - apply preserves_bind; auto.
Qed.

Hypothesis P_latch :
  forall b i, P i -> P (with_hw (set_emergency_stop_detected b) i).

Lemma preserves_check_emergency_stop : preserves P check_emergency_stop.
Proof.
  intros i Hi. unfold check_emergency_stop, bind, event_detected.
  destruct (emergency_stop_detected (hw i)); simpl; apply P_latch, Hi.
Qed.

Lemma preserves_handle_machine_stop {A} machine_off (routine : M A) :
  preserves P machine_off -> preserves P routine ->
  preserves P (handle_machine_stop machine_off routine).
Proof.
  intros Hoff Hr i Hi. unfold handle_machine_stop.
  assert (Hbody : preserves P
            (check_emergency_stop >>
             (let* retval := routine in check_emergency_stop >> ret retval))).
  { apply preserves_bind; [apply preserves_check_emergency_stop|intros _].
    apply preserves_bind; [exact Hr|intros r].
    apply preserves_bind; [apply preserves_check_emergency_stop|intros _].
    apply preserves_ret. }
  specialize (Hbody i Hi).
  destruct ((check_emergency_stop >>
             (let* retval := routine in check_emergency_stop >> ret retval)) i)
    as [[r|e|] i1]; simpl in *; auto.
  destruct e; simpl; auto;
    apply (preserves_bind machine_off (fun _ => raise MachineStopped));
    [exact Hoff | intros _; apply preserves_raise | exact Hbody
    |exact Hoff | intros _; apply preserves_raise | exact Hbody].
Qed.

End Preserves.

(** ** The wedge positions stay between 1 and 15 *)

Lemma find_seqZ (f : Z -> bool) (n : nat) (m : Z) :
  match List.find f (seqZ m (Z.of_nat n)) with
  | Some x => (m <= x < m + Z.of_nat n) /\ f x = true /\
              forall p, m <= p < x -> f p = false
  | None => forall p, m <= p < m + Z.of_nat n -> f p = false
  end.
Proof.
  revert m. induction n as [|n IH]; intros m.
  - simpl. intros p Hp. lia.
  - rewrite seqZ_cons by lia.
    replace (Z.pred (Z.of_nat (S n))) with (Z.of_nat n) by lia.
    simpl List.find. destruct (f m) eqn:Hm.
    + split; [lia|]. split; [exact Hm|]. intros p Hp. lia.
    + specialize (IH (Z.succ m)).
      destruct (List.find f (seqZ (Z.succ m) (Z.of_nat n))) as [x|].
      * destruct IH as (Hx & Hfx & Hlt).
        split; [lia|]. split; [exact Hfx|].
        intros p Hp. destruct (decide (p = m)) as [->|Hne]; auto.
        apply Hlt. lia.
      * intros p Hp. destruct (decide (p = m)) as [->|Hne]; auto.
        apply IH. lia.
Qed.

(** The scan picks the smallest of 1..14 whose name is in the list, and
    15 when there is none. *)
Lemma earliest_row_spec (sigs : list string) :
  let r := earliest_row sigs in
  (1 <= r <= 14 /\ str r ∈ sigs /\ forall p, 1 <= p < r -> str p ∉ sigs) \/
  (r = 15 /\ forall p, 1 <= p <= 14 -> str p ∉ sigs).
Proof.
  unfold earliest_row.
  pose proof (find_seqZ (fun pos => inb (str pos) sigs) 14 1) as H.
  change (Z.of_nat 14) with 14 in H.
  destruct (List.find _ (seqZ 1 14)) as [x|]; simpl.
  - left. destruct H as (Hx & Hin & Hlt). split; [lia|]. split.
    + unfold inb in Hin. apply bool_decide_eq_true_1 in Hin. exact Hin.
    + intros p Hp. specialize (Hlt p Hp). unfold inb in Hlt.
      apply bool_decide_eq_false_1 in Hlt. exact Hlt.
  - right. split; [reflexivity|]. intros p Hp.
    assert (Hf : inb (str p) sigs = false) by (apply H; lia).
    unfold inb in Hf. apply bool_decide_eq_false_1 in Hf. exact Hf.
Qed.

Lemma earliest_row_range (sigs : list string) : 1 <= earliest_row sigs <= 15.
Proof.
  destruct (earliest_row_spec sigs) as [(H & _)|(H & _)]; simpl in H; lia.
Qed.

Lemma update_pump_and_wedges_0075 (i : interface) :
  wedge_0075 (st (update_pump_and_wedges i))
  = if found ["0075"] (signals i) || found (chars "NK") (signals i)
    then earliest_row (signals i) else wedge_0075 (st i).
Proof.
  unfold update_pump_and_wedges.
  destruct (found ["0075"] (signals i) || found (chars "NK") (signals i));
    destruct (found ["0005"] (signals i) || found (chars "NJ") (signals i));
    reflexivity.
Qed.

Lemma update_pump_and_wedges_0005 (i : interface) :
  wedge_0005 (st (update_pump_and_wedges i))
  = if found ["0005"] (signals i) || found (chars "NJ") (signals i)
    then earliest_row (signals i) else wedge_0005 (st i).
Proof.
  unfold update_pump_and_wedges.
  destruct (found ["0075"] (signals i) || found (chars "NK") (signals i));
    destruct (found ["0005"] (signals i) || found (chars "NJ") (signals i));
    reflexivity.
Qed.

Lemma update_pump_and_wedges_ok (i : interface) :
  wedges_ok i -> wedges_ok (update_pump_and_wedges i).
Proof.
  intros [H5 H75]. unfold wedges_ok.
  rewrite update_pump_and_wedges_0005, update_pump_and_wedges_0075.
  pose proof (earliest_row_range (signals i)).
  split; [destruct (found ["0005"] _ || _) | destruct (found ["0075"] _ || _)];
    assumption.
Qed.

Lemma callback_wedges_ok t e (i : interface) :
  wedges_ok i -> wedges_ok (callback t e i).
Proof. destruct e as [[|]|]; intros H; exact H. Qed.

Lemma time_sleep_wedges_ok seconds : preserves wedges_ok (time_sleep seconds).
Proof.
  intros i Hi. unfold time_sleep.
  destruct (Qle_bool 0 seconds); [|exact Hi]. unfold asleep. simpl.
  match goal with |- wedges_ok (fold_left _ ?due ?j) =>
    assert (Hj : wedges_ok j) by exact Hi; generalize dependent j; generalize due
  end.
  intros due. induction due as [|[t e] due IH]; intros j Hj; simpl; auto.
  apply IH, callback_wedges_ok, Hj.
Qed.

(** Steps that do not touch the wedges. *)
Ltac wedges_step :=
  lazymatch goal with
  | |- preserves _ (let _ := _ in _) => cbv zeta
  | |- preserves _ (if ?b then _ else _) => destruct b
  | |- preserves _ (match ?x with _ => _ end) => destruct x
  | |- preserves _ (bind _ _) => apply preserves_bind; [|intros ?]
  | |- preserves _ (ret _) => apply preserves_ret
  | |- preserves _ (raise _) => apply preserves_raise
  | |- preserves _ exhausted => apply preserves_exhausted
  | |- preserves _ (gets _) => apply preserves_gets
  | |- preserves _ (dict_get _ _) => apply preserves_dict_get
  | |- preserves _ (time_sleep _) => apply time_sleep_wedges_ok
  | |- preserves _ (modify update_pump_and_wedges) =>
      apply preserves_modify; intros ? ?;
      apply update_pump_and_wedges_ok; assumption
  | |- preserves _ (modify _) => apply preserves_modify; intros ? ?; assumption
  | |- preserves _ (handle_machine_stop _ _) =>
      apply preserves_handle_machine_stop;
      [intros ? ? ?; assumption | assumption |]
  end.

Section WedgeRange.

Variable cfg : config.
Variable cv : converters.
Variable off : M bool.
Variable fuel : nat.
Hypothesis off_ok : preserves wedges_ok off.

Lemma operation_mode_setter_wedges_ok mode :
  preserves wedges_ok (operation_mode_setter cfg mode).
Proof. unfold operation_mode_setter. repeat wedges_step. Qed.

Lemma row16_mode_setter_wedges_ok mode :
  preserves wedges_ok (row16_mode_setter cfg mode).
Proof. unfold row16_mode_setter. repeat wedges_step. Qed.

Lemma wait_loop_wedges_ok n new_state timeout start_time :
  preserves wedges_ok (wait_loop n new_state timeout start_time).
Proof.
  induction n as [|n IH]; intros i Hi; simpl;
    destruct (eqb _ _); auto; destruct (negb _); auto.
  apply (preserves_bind wedges_ok (time_sleep (1 # 100))
           (fun _ => wait_loop n new_state timeout start_time));
    [apply time_sleep_wedges_ok | intros _; exact IH | exact Hi].
Qed.

Lemma wait_for_sensor_wedges_ok new_state timeout :
  preserves wedges_ok (wait_for_sensor cfg off fuel new_state timeout).
Proof.
  unfold wait_for_sensor, time_time. repeat wedges_step.
  apply wait_loop_wedges_ok.
Qed.

Lemma check_rotation_wedges_ok n :
  preserves wedges_ok (check_rotation cfg off fuel n).
Proof.
  unfold check_rotation. apply preserves_for_range.
  apply preserves_bind; [|intros _]; apply wait_for_sensor_wedges_ok.
Qed.

Lemma valves_control_wedges_ok state :
  preserves wedges_ok (valves_control cfg off state).
Proof.
  unfold valves_control, output_valves_on, output_valves_off.
  repeat wedges_step.
Qed.

Lemma motor_control_wedges_ok state :
  preserves wedges_ok (motor_control cfg off state).
Proof. unfold motor_control, turn_on, turn_off. repeat wedges_step. Qed.

Lemma air_control_wedges_ok state :
  preserves wedges_ok (air_control cfg off state).
Proof. unfold air_control, turn_on, turn_off. repeat wedges_step. Qed.

Lemma water_control_wedges_ok state :
  preserves wedges_ok (water_control cfg off state).
Proof. unfold water_control, turn_on, turn_off. repeat wedges_step. Qed.

Lemma prepare_signals_wedges_ok input :
  preserves wedges_ok (prepare_signals cfg cv input).
Proof. unfold prepare_signals. repeat wedges_step. Qed.

Lemma send_signals_wedges_ok sigs timeout :
  preserves wedges_ok (send_signals cfg cv off fuel sigs timeout).
Proof.
  assert (Hcast : forall s t, preserves wedges_ok (cast cfg cv off fuel s t)).
  { intros s t. unfold cast.
    repeat first [ apply operation_mode_setter_wedges_ok
                 | apply prepare_signals_wedges_ok
                 | apply wait_for_sensor_wedges_ok
                 | apply valves_control_wedges_ok
                 | wedges_step ]. }
  assert (Htest : forall s, preserves wedges_ok (test cfg cv off s)).
  { intros s. unfold test.
    repeat first [ apply operation_mode_setter_wedges_ok
                 | apply prepare_signals_wedges_ok
                 | apply valves_control_wedges_ok
                 | wedges_step ]. }
  assert (Hpunch : forall s, preserves wedges_ok (punch cfg cv off s)).
  { intros s. unfold punch.
    repeat first [ apply operation_mode_setter_wedges_ok
                 | apply prepare_signals_wedges_ok
                 | apply valves_control_wedges_ok
                 | wedges_step ]. }
  unfold send_signals.
  apply preserves_bind; [apply preserves_gets|intros started].
  destruct (negb started); [apply preserves_raise|].
  apply preserves_bind; [apply preserves_gets|intros mode].
  apply preserves_dict_get_bind. intros action Haction.
  apply preserves_bind; [apply preserves_modify; intros ? H; exact H|intros _].
  simpl in Haction. destruct Haction as [<-|[<-|[<-|[]]]]; auto.
Qed.

Lemma pump_stop_loop_wedges_ok n code timeout :
  preserves wedges_ok (pump_stop_loop cfg cv off fuel n code timeout).
Proof.
  induction n as [|n IH]; intros i Hi; simpl;
    destruct (pump (st i)); auto.
  revert i Hi.
  change (preserves wedges_ok
            (send_signals cfg cv off fuel code (Some timeout) >>
             send_signals cfg cv off fuel code (Some timeout) >>
             pump_stop_loop cfg cv off fuel n code timeout)).
  repeat (apply preserves_bind; [apply send_signals_wedges_ok|intros _]).
  exact IH.
Qed.

Lemma pump_control_wedges_ok state :
  preserves wedges_ok (pump_control cfg cv off fuel state).
Proof.
  unfold pump_control, pump_start, pump_stop, get_state, turn_on, turn_off.
  repeat lazymatch goal with
         | |- preserves _ (send_signals _ _ _ _ _ _) =>
             apply send_signals_wedges_ok; assumption
         | |- preserves _ (pump_stop_loop _ _ _ _ _ _ _) =>
             apply pump_stop_loop_wedges_ok
         | |- _ => wedges_step
         end.
Qed.

Lemma justification_wedges_ok galley_trip arg_0005 arg_0075 :
  preserves wedges_ok
    (justification cfg cv off fuel galley_trip arg_0005 arg_0075).
Proof.
  unfold justification.
  repeat lazymatch goal with
         | |- preserves _ (send_signals _ _ _ _ _ _) =>
             apply send_signals_wedges_ok; assumption
         | |- _ => wedges_step
         end.
Qed.

Lemma machine_control_with_wedges_ok state :
  preserves wedges_ok (machine_control_with cfg cv off fuel state).
Proof.
  unfold machine_control_with, start, stop, turn_on, turn_off.
  repeat lazymatch goal with
         | |- preserves _ (pump_control _ _ _ _ _) =>
             apply pump_control_wedges_ok; assumption
         | |- preserves _ (valves_control _ _ _) =>
             apply valves_control_wedges_ok; assumption
         | |- preserves _ (motor_control _ _ _) =>
             apply motor_control_wedges_ok; assumption
         | |- preserves _ (water_control _ _ _) =>
             apply water_control_wedges_ok; assumption
         | |- preserves _ (air_control _ _ _) =>
             apply air_control_wedges_ok; assumption
         | |- preserves _ (check_rotation _ _ _ _) =>
             apply check_rotation_wedges_ok; assumption
         | |- _ => wedges_step
         end.
Qed.

End WedgeRange.

Lemma machine_off_wedges_ok cfg cv fuel :
  preserves wedges_ok (machine_off cfg cv fuel).
Proof.
  induction fuel as [|n IH]; simpl.
  - apply preserves_exhausted.
  - apply machine_control_with_wedges_ok. exact IH.
Qed.

Lemma perform_wedges_ok cfg cv fuel c (i : interface) :
  wedges_ok i -> wedges_ok (perform cfg cv fuel c i).
Proof.
  pose proof (machine_off_wedges_ok cfg cv fuel) as Hoff.
  intros Hi.
  destruct c as [s|s|s|s|s|s|g a5 a75|sigs t|mode|mode|ns t|n|d];
    unfold perform, machine_control.
  - exact (machine_control_with_wedges_ok cfg cv _ fuel Hoff s i Hi).
  - exact (pump_control_wedges_ok cfg cv _ fuel Hoff s i Hi).
  - exact (valves_control_wedges_ok cfg _ Hoff s i Hi).
  - exact (motor_control_wedges_ok cfg _ Hoff s i Hi).
  - exact (air_control_wedges_ok cfg _ Hoff s i Hi).
  - exact (water_control_wedges_ok cfg _ Hoff s i Hi).
  - exact (justification_wedges_ok cfg cv _ fuel Hoff g a5 a75 i Hi).
  - exact (send_signals_wedges_ok cfg cv _ fuel Hoff sigs t i Hi).
  - exact (operation_mode_setter_wedges_ok cfg mode i Hi).
  - exact (row16_mode_setter_wedges_ok cfg mode i Hi).
  - exact (wait_for_sensor_wedges_ok cfg _ fuel Hoff ns t i Hi).
  - exact (check_rotation_wedges_ok cfg _ fuel Hoff n i Hi).
  - exact (time_sleep_wedges_ok d i Hi).
Qed.

(** C9: the wedges start at 15; in every reachable state both are
    between 1 and 15; and each update of a wedge stores the smallest of
    1..14 whose name is in the signal list, or 15 when there is none. *)
Theorem wedges_in_range cfg cv :
  (forall edges,
      wedge_0005 (st (init edges)) = 15 /\ wedge_0075 (st (init edges)) = 15) /\
  (forall i, reachable cfg cv i ->
      1 <= wedge_0005 (st i) <= 15 /\ 1 <= wedge_0075 (st i) <= 15) /\
  (forall i,
      let sigs := signals i in
      let i' := update_pump_and_wedges i in
      (wedge_0005 (st i') = wedge_0005 (st i) \/
       wedge_0005 (st i') = earliest_row sigs) /\
      (wedge_0075 (st i') = wedge_0075 (st i) \/
       wedge_0075 (st i') = earliest_row sigs) /\
      ((1 <= earliest_row sigs <= 14 /\ str (earliest_row sigs) ∈ sigs /\
        forall p, 1 <= p < earliest_row sigs -> str p ∉ sigs) \/
       (earliest_row sigs = 15 /\ forall p, 1 <= p <= 14 -> str p ∉ sigs))).
Proof.
  split; [|split].
  - intros edges. split; reflexivity.
  - intros i Hreach. change (wedges_ok i).
    induction Hreach as [edges|i c fuel _ IH].
    + unfold wedges_ok. simpl. lia.
    + apply perform_wedges_ok, IH.
  - intros i sigs i'. split; [|split].
    + subst i'. rewrite update_pump_and_wedges_0005.
      destruct (_ || _); auto.
    + subst i'. rewrite update_pump_and_wedges_0075.
      destruct (_ || _); auto.
    + apply earliest_row_spec.
Qed.

Lemma wedges_in_range_witness :
  1 <= wedge_0005 (st pump_running_8_3) <= 15 /\
  1 <= wedge_0075 (st pump_running_8_3) <= 15.
Proof.
  apply (proj1 (proj2 (wedges_in_range casting_config row16_unused))).
  unfold pump_running_8_3.
  repeat apply reachable_call. apply reachable_init.
Defined.

(** ** Runs that return normally *)

Lemma same_refl {T} (f : interface -> T) i : same f i i.
Proof. reflexivity. Qed.

Lemma same_trans {T} (f : interface -> T) i j k :
  same f i j -> same f j k -> same f i k.
Proof. unfold same. congruence. Qed.

Lemma same_bind {T A B} (f : interface -> T) (m : M A) (k : A -> M B) :
  respects (same f) m -> (forall a, respects (same f) (k a)) ->
  respects (same f) (bind m k).
Proof. apply respects_bind, same_trans. Qed.

Lemma respects_weaken (R R' : interface -> interface -> Prop) {A} (m : M A) :
  (forall i i', R i i' -> R' i i') -> respects R m -> respects R' m.
Proof. intros HR Hm i a i' H. apply HR. eapply Hm. exact H. Qed.

Lemma callback_quiet t e (i : interface) : quiet i (callback t e i).
Proof. destruct e as [[|]|]; reflexivity. Qed.

Lemma time_sleep_quiet seconds (i : interface) : quiet i (snd (time_sleep seconds i)).
Proof.
  unfold time_sleep. destruct (Qle_bool 0 seconds); [|reflexivity].
  unfold asleep. simpl.
  match goal with |- quiet _ (fold_left _ ?due ?j) =>
    assert (Hj : quiet i j) by reflexivity; generalize dependent j; generalize due
  end.
  intros due. induction due as [|[t e] due IH]; intros j Hj; simpl; auto.
  apply IH. eapply same_trans; [exact Hj | apply callback_quiet].
Qed.

Lemma time_sleep_respects_quiet seconds : respects quiet (time_sleep seconds).
Proof.
  intros i a i' H. pose proof (time_sleep_quiet seconds i) as Hq.
  rewrite H in Hq. exact Hq.
Qed.

Lemma wait_loop_quiet n new_state timeout start_time (i : interface) :
  quiet i (snd (wait_loop n new_state timeout start_time i)).
Proof.
  revert i. induction n as [|n IH]; intros i; simpl;
    destruct (eqb _ _); try reflexivity; destruct (negb _); try reflexivity.
  unfold bind. pose proof (time_sleep_quiet (1 # 100) i) as Hs.
  destruct (time_sleep (1 # 100) i) as [[u| |] i1] eqn:E; simpl in *; auto.
  eapply same_trans; [exact Hs | apply IH].
Qed.

(** Projections that the environment cannot change either. *)
Ltac from_quiet :=
  let H := fresh "H" in
  intros ? ? H; unfold quiet, same, control in H;
  injection H; intros; unfold same, lines_and_sent, pump_and_signals; simpl;
  congruence.

Ltac same_step :=
  first
    [ apply respects_ret; apply same_refl
    | apply respects_raise
    | apply respects_gets; apply same_refl
    | apply respects_modify; intros ?; reflexivity
    | apply (respects_weaken quiet); [from_quiet | apply time_sleep_respects_quiet]
    | apply same_bind; [|intros ?]
    | apply respects_handle_machine_stop
    | progress cbv zeta
    | match goal with
      | |- respects _ (if ?b then _ else _) => destruct b
      | |- respects _ (match ?x with _ => _ end) => destruct x
      end ].

Lemma update_pump_and_wedges_lines_and_sent (i : interface) :
  same lines_and_sent i (update_pump_and_wedges i).
Proof.
  unfold update_pump_and_wedges.
  repeat match goal with |- context [if ?b then _ else _] => destruct b end;
    reflexivity.
Qed.

Section Returns.

Variable cfg : config.
Variable cv : converters.
Variable off : M bool.
Variable fuel : nat.

Lemma wait_for_sensor_quiet new_state timeout :
  respects quiet (wait_for_sensor cfg off fuel new_state timeout).
Proof.
  unfold wait_for_sensor, time_time. repeat same_step.
  intros i u i' H. pose proof (wait_loop_quiet fuel new_state
    (or_Q timeout (sensor_timeout cfg)) a i) as Hq.
  rewrite H in Hq. exact Hq.
Qed.

Lemma valves_off_quiet : respects quiet (valves_control cfg off ValvesFalse).
Proof. unfold valves_control, output_valves_off. repeat same_step. Qed.

Lemma valves_control_lines_and_sent state :
  respects (same lines_and_sent) (valves_control cfg off state).
Proof.
  unfold valves_control, output_valves_on, output_valves_off.
  repeat first [ apply respects_modify; apply update_pump_and_wedges_lines_and_sent
               | same_step ].
Qed.

Lemma operation_mode_setter_lines_and_sent mode :
  respects (same lines_and_sent) (operation_mode_setter cfg mode).
Proof. unfold operation_mode_setter. repeat same_step. Qed.

Lemma prepare_signals_quiet input :
  respects quiet (prepare_signals cfg cv input).
Proof.
  unfold prepare_signals.
  repeat first [ apply respects_dict_get_bind; intros ? _
               | same_step ].
Qed.

End Returns.

Lemma dict_get_Return {V} (d : list (option string * V)) key i v i' :
  dict_get d key i = (Return v, i') -> i' = i /\ In v (map snd d).
Proof.
  induction d as [|[k0 v0] d IH]; simpl.
  - discriminate.
  - destruct (bool_decide (k0 = key)).
    + intros [= <- <-]. auto.
    + intros H. apply IH in H as [-> H]. auto.
Qed.

Lemma repeat_double {A} (x : A) (k : nat) :
  repeat x (2 * S k) = x :: x :: repeat x (2 * k).
Proof.
  replace (2 * S k)%nat with (S (S (2 * k)))%nat by lia. reflexivity.
Qed.

Section SendSignals.

Variable cfg : config.
Variable cv : converters.
Variable off : M bool.
Variable fuel : nat.

Lemma cast_lines_and_sent sigs timeout :
  respects (same lines_and_sent) (cast cfg cv off fuel sigs timeout).
Proof.
  unfold cast.
  repeat first
    [ apply operation_mode_setter_lines_and_sent
    | apply valves_control_lines_and_sent
    | apply (respects_weaken quiet);
      [from_quiet | first [apply prepare_signals_quiet | apply wait_for_sensor_quiet]]
    | same_step ].
Qed.

Lemma test_lines_and_sent sigs :
  respects (same lines_and_sent) (test cfg cv off sigs).
Proof.
  unfold test.
  repeat first
    [ apply operation_mode_setter_lines_and_sent
    | apply valves_control_lines_and_sent
    | apply (respects_weaken quiet); [from_quiet | apply prepare_signals_quiet]
    | same_step ].
Qed.

Lemma punch_lines_and_sent sigs :
  respects (same lines_and_sent) (punch cfg cv off sigs).
Proof.
  unfold punch.
  repeat first
    [ apply operation_mode_setter_lines_and_sent
    | apply valves_control_lines_and_sent
    | apply (respects_weaken quiet); [from_quiet | apply prepare_signals_quiet]
    | same_step ].
Qed.

(** A [send_signals] that returns normally recorded its combination
    once and left the output lines as they were. *)
Lemma send_signals_Return sigs timeout i u i' :
  send_signals cfg cv off fuel sigs timeout i = (Return u, i') ->
  outputs (hw i') = outputs (hw i) /\
  sent i' = (sent i ++ [(sigs, timeout)])%list.
Proof.
  unfold send_signals. intros H.
  apply bind_Return in H as (started & i1 & [= <- <-] & H).
  destruct (negb (working (st i))); [discriminate|].
  apply bind_Return in H as (mode & i1 & [= <- <-] & H).
  apply bind_Return in H as (action & i1 & Hget & H).
  apply dict_get_Return in Hget as [-> Hin].
  apply bind_Return in H as ([] & i1 & [= <-] & H).
  assert (Hact : respects (same lines_and_sent) (action sigs)).
  { simpl in Hin. destruct Hin as [<-|[<-|[<-|[]]]].
    - apply cast_lines_and_sent.
    - apply punch_lines_and_sent.
    - apply test_lines_and_sent. }
  apply Hact in H. unfold same, lines_and_sent in H. simpl in H.
  injection H as Ho Hs. auto.
Qed.

Lemma pump_stop_loop_Return n code timeout i u i' :
  pump_stop_loop cfg cv off fuel n code timeout i = (Return u, i') ->
  pump (st i') = false /\
  outputs (hw i') = outputs (hw i) /\
  exists k, sent i' = (sent i ++ repeat (code, Some timeout) (2 * k))%list /\
            (pump (st i) = true -> (1 <= k)%nat).
Proof.
  revert i. induction n as [|n IH]; intros i; cbn [pump_stop_loop];
    destruct (pump (st i)) eqn:Hp; try discriminate.
  - intros [= _ <-]. repeat split; auto. exists O. simpl.
    rewrite app_nil_r. split; [reflexivity | discriminate].
  - intros H.
    apply bind_Return in H as ([] & i1 & H1 & H).
    apply bind_Return in H as ([] & i2 & H2 & H).
    apply send_signals_Return in H1 as [Ho1 Hs1].
    apply send_signals_Return in H2 as [Ho2 Hs2].
    apply IH in H as (Hpump & Ho & k & Hs & _).
    split; [exact Hpump|]. split; [congruence|].
    exists (S k). split; [|lia].
    rewrite Hs, Hs2, Hs1, repeat_double, <- !app_assoc. reflexivity.
  - intros [= _ <-]. repeat split; auto. exists O. simpl.
    rewrite app_nil_r. split; [reflexivity | discriminate].
Qed.

End SendSignals.

(** ** Stopping the pump *)

(** C4: [pump_control(off)] that returns normally leaves the pump off.
    If the pump was already off, nothing at all changed.  If it was on,
    the stop combination N J S 0005 + wedge position was sent 2k times
    (k >= 1) with the pump stop timeout, the error LED is off and the
    working LED is as it was before the call. *)
Theorem pump_control_off_spec cfg cv off fuel (i : interface) r i' :
  error_led_gpio cfg <> working_led_gpio cfg ->
  pump_control cfg cv off fuel (Some false) i = (Return r, i') ->
  r = false /\ pump (st i') = false /\
  (pump (st i) = false -> i' = i) /\
  (pump (st i) = true ->
   led (error_led_gpio cfg) i' = false /\
   led (working_led_gpio cfg) i' = led (working_led_gpio cfg) i /\
   exists k, (1 <= k)%nat /\
     sent i' = (sent i ++ repeat (pump_stop_code (wedge_0005 (st i)),
                                  Some (pump_stop_timeout cfg)) (2 * k))%list).
Proof.
  intros Hne H. unfold pump_control in H.
  apply bind_Return in H as ([] & i1 & Hstop & [= <- <-]).
  unfold pump_stop in Hstop.
  apply bind_Return in Hstop as (running & i0 & [= <- <-] & Hstop).
  destruct (pump (st i)) eqn:Hp; simpl negb in Hstop; cbv iota in Hstop.
  - apply bind_Return in Hstop as (led_state & i0 & [= <- <-] & Hstop).
    apply bind_Return in Hstop as ([] & i2 & Hoff & Hstop).
    apply bind_Return in Hstop as ([] & i3 & [= <-] & Hstop).
    apply bind_Return in Hstop as (position & i0 & [= <- <-] & Hstop).
    apply bind_Return in Hstop as ([] & i4 & Hloop & Hstop).
    apply bind_Return in Hstop as ([] & i5 & [= <-] & Hlast).
    apply pump_stop_loop_Return in Hloop as (Hpump & Ho & k & Hs & Hk).
    simpl in Ho, Hs, Hk.
    assert (Hst2 : st i2 = st i /\ sent i2 = sent i /\
                   outputs (hw i2)
                   = if led (working_led_gpio cfg) i
                     then <[working_led_gpio cfg := false]> (outputs (hw i))
                     else outputs (hw i)).
    { unfold led. destruct (default false (outputs (hw i) !! working_led_gpio cfg));
        injection Hoff as <-; auto. }
    destruct Hst2 as (Hst2 & Hsent2 & Ho2).
    assert (Hfinal : pump (st i1) = false /\ sent i1 = sent i4 /\
                     outputs (hw i1)
                     = if led (working_led_gpio cfg) i
                       then <[working_led_gpio cfg := true]>
                              (<[error_led_gpio cfg := false]> (outputs (hw i4)))
                       else <[error_led_gpio cfg := false]> (outputs (hw i4))).
    { unfold led. destruct (default false (outputs (hw i) !! working_led_gpio cfg));
        injection Hlast as <-; auto. }
    destruct Hfinal as (Hpump1 & Hsent1 & Ho1).
    split; [exact Hpump1|]. split; [exact Hpump1|].
    split; [discriminate|]. intros _.
    split; [|split].
    + unfold led at 1. rewrite Ho1.
      destruct (led (working_led_gpio cfg) i).
      * rewrite lookup_insert_ne by congruence.
        rewrite lookup_insert_eq. reflexivity.
      * rewrite lookup_insert_eq. reflexivity.
    + unfold led at 1. rewrite Ho1, Ho, Ho2.
      destruct (led (working_led_gpio cfg) i) eqn:Hled.
      * rewrite lookup_insert_eq. reflexivity.
      * rewrite !lookup_insert_ne by congruence. exact Hled.
    + exists k. split; [apply Hk; rewrite Hst2; exact Hp|].
      rewrite Hsent1, Hs, Hsent2, Hst2. reflexivity.
  - injection Hstop as <-.
    repeat split; auto; discriminate.
Qed.

Lemma pump_control_off_spec_witness :
  let i := pump_running_8_3 in
  let i' := snd (pump_control casting_config row16_unused casting_api 100
                   (Some false) i) in
  pump (st i) = true /\ pump (st i') = false /\
  led 26 i' = false /\ led 25 i' = led 25 i /\
  exists k, (1 <= k)%nat /\
    sent i' = (sent i ++ repeat (pump_stop_code (wedge_0005 (st i)),
                                 Some (pump_stop_timeout casting_config))
                                (2 * k))%list.
Proof.
  intros i i'.
  assert (Hon : pump (st i) = true) by (vm_compute; reflexivity).
  destruct (pump_control_off_spec casting_config row16_unused casting_api 100
              i false i') as (_ & Hp & _ & Hrun).
  - vm_compute. discriminate.
  - vm_compute. reflexivity.
  - destruct (Hrun Hon) as (He & Hw & Hk). auto.
Defined.

(** ** Stopping the machine *)

Section Stop.

Variable cfg : config.
Variable cv : converters.
Variable off : M bool.
Variable fuel : nat.

Lemma pump_control_off_pump i r i' :
  pump_control cfg cv off fuel (Some false) i = (Return r, i') ->
  r = false /\ pump (st i') = false /\ (pump (st i) = false -> i' = i).
Proof.
  intros H. unfold pump_control in H.
  apply bind_Return in H as ([] & i1 & Hstop & [= <- <-]).
  unfold pump_stop in Hstop.
  apply bind_Return in Hstop as (running & i0 & [= <- <-] & Hstop).
  destruct (pump (st i)) eqn:Hp; simpl negb in Hstop; cbv iota in Hstop.
  - apply bind_Return in Hstop as (led_state & i0 & [= <- <-] & Hstop).
    apply bind_Return in Hstop as ([] & i2 & Hoff & Hstop).
    apply bind_Return in Hstop as ([] & i3 & [= <-] & Hstop).
    apply bind_Return in Hstop as (position & i0 & [= <- <-] & Hstop).
    apply bind_Return in Hstop as ([] & i4 & Hloop & Hstop).
    apply bind_Return in Hstop as ([] & i5 & [= <-] & Hlast).
    apply pump_stop_loop_Return in Hloop as (Hpump & _).
    assert (Hpump1 : pump (st i1) = false).
    { match type of Hlast with
      | context [if ?b then _ else _] => destruct b
      end; injection Hlast as <-; exact Hpump. }
    repeat split; auto. discriminate.
  - injection Hstop as <-. auto.
Qed.

Lemma motor_off_pump_and_signals :
  respects (same pump_and_signals) (motor_control cfg off (Some false)).
Proof. unfold motor_control, turn_on, turn_off. repeat same_step. Qed.

Lemma water_off_pump_and_signals :
  respects (same pump_and_signals) (water_control cfg off (Some false)).
Proof. unfold water_control, turn_on, turn_off. repeat same_step. Qed.

Lemma air_off_Return i r i' :
  air_control cfg off (Some false) i = (Return r, i') ->
  air (st i') = false /\ same pump_and_signals i i'.
Proof.
  intros H. apply handle_machine_stop_Return in H as (_ & H & _).
  unfold turn_off in H.
  apply bind_Return in H as ([] & i1 & [= <-] & H).
  apply bind_Return in H as ([] & i2 & [= <-] & H).
  injection H as _ <-. split; reflexivity.
Qed.

Lemma motor_water_off_pump_and_signals (casting : bool) :
  respects (same pump_and_signals)
    (if casting
     then motor_control cfg off (Some false) >>
          water_control cfg off (Some false) >> ret tt
     else ret tt).
Proof.
  destruct casting;
    repeat first [ apply motor_off_pump_and_signals
                 | apply water_off_pump_and_signals
                 | same_step ].
Qed.

(** The local function [stop] on a working interface. *)
Lemma stop_working_Return i u i' :
  working (st i) = true ->
  stop cfg cv off fuel i = (Return u, i') ->
  working (st i') = false /\ pump (st i') = false /\
  air (st i') = false /\ signals i' = [].
Proof.
  intros Hw H. unfold stop in H.
  apply bind_Return in H as (started & i0 & [= <- <-] & H).
  rewrite Hw in H. simpl negb in H. cbv iota in H.
  apply bind_Return in H as (b & i1 & Hpump & H).
  apply pump_control_off_pump in Hpump as (_ & Hp1 & _).
  apply bind_Return in H as (sigs & i2 & Hvalves & H).
  apply valves_off_quiet in Hvalves.
  assert (Hp2 : pump (st i2) = false).
  { unfold quiet, same, control in Hvalves. injection Hvalves; intros.
    congruence. }
  apply bind_Return in H as ([] & i3 & [= <-] & H).
  apply bind_Return in H as (mode & i0 & [= <- <-] & H).
  apply bind_Return in H as ([] & i4 & Hmotor & H).
  apply motor_water_off_pump_and_signals in Hmotor.
  apply bind_Return in H as (b' & i5 & Hair & H).
  apply air_off_Return in Hair as (Hair & H5).
  unfold turn_off in H.
  apply bind_Return in H as ([] & i6 & [= <-] & H).
  injection H as _ <-.
  unfold same, pump_and_signals in Hmotor, H5. simpl in Hmotor.
  injection Hmotor as Hp4 Hs4. injection H5 as Hp5 Hs5.
  simpl. repeat split; congruence.
Qed.

End Stop.

(** C7 (as amended): on a working interface, [machine_control(off)] that
    returns normally leaves working, pump and air false and no signals;
    on an interface that is not working it returns at once and changes
    nothing. *)
Theorem machine_control_off_spec cfg cv fuel (i : interface) r i' :
  machine_control cfg cv fuel (Some false) i = (Return r, i') ->
  r = false /\ working (st i') = false /\
  (working (st i) = true ->
   pump (st i') = false /\ air (st i') = false /\ length (signals i') = 0%nat) /\
  (working (st i) = false -> i' = i).
Proof.
  intros H. unfold machine_control, machine_control_with in H.
  apply bind_Return in H as ([] & i1 & Hstop & [= <- <-]).
  destruct (working (st i)) eqn:Hw.
  - apply stop_working_Return in Hstop as (Hw1 & Hp & Ha & Hs); [|exact Hw].
    rewrite Hs. split; [exact Hw1|]. split; [exact Hw1|].
    split; [intros _; auto | discriminate].
  - unfold stop in Hstop.
    apply bind_Return in Hstop as (started & i0 & [= <- <-] & Hstop).
    rewrite Hw in Hstop. injection Hstop as <-.
    split; [exact Hw|]. split; [exact Hw|].
    split; [discriminate | reflexivity].
Qed.

Lemma machine_control_off_spec_witness :
  let i := pump_running_8_3 in
  let i' := snd (machine_control casting_config row16_unused 100 (Some false) i) in
  working (st i) = true /\ working (st i') = false /\ pump (st i') = false /\
  air (st i') = false /\ length (signals i') = 0%nat.
Proof.
  intros i i'.
  assert (Hw : working (st i) = true) by (vm_compute; reflexivity).
  destruct (machine_control_off_spec casting_config row16_unused 100
              i false i') as (_ & Hw' & Hon & _).
  - vm_compute. reflexivity.
  - destruct (Hon Hw) as (Hp & Ha & Hs). auto.
Defined.

(** C7 (as stated) fails: after a start that failed in [check_rotation]
    the interface is reachable, not working, with the air still on;
    [machine_control(off)] then returns normally at once and the air
    stays on. *)
Lemma machine_control_off_after_failed_start :
  ~ (forall fuel i r i',
        reachable casting_config row16_unused i ->
        machine_control casting_config row16_unused fuel (Some false) i
        = (Return r, i') ->
        working (st i') = false /\ pump (st i') = false /\
        air (st i') = false /\ length (signals i') = 0%nat).
Proof.
  intros claim.
  destruct (claim 10%nat failed_start false failed_start) as (_ & _ & Hair & _).
  - apply reachable_call, reachable_init.
  - vm_compute. reflexivity.
  - vm_compute in Hair. discriminate Hair.
Qed.

(** ** Waiting for the sensor and the emergency stop *)

Lemma callback_latched t e (i : interface) :
  emergency_stop_detected (hw i) = true ->
  emergency_stop_detected (hw (callback t e i)) = true.
Proof. destruct e as [[|]|]; simpl; auto. Qed.

Lemma time_sleep_latched seconds :
  preserves (fun i => emergency_stop_detected (hw i) = true) (time_sleep seconds).
Proof.
  intros i Hi. unfold time_sleep.
  destruct (Qle_bool 0 seconds); [|exact Hi]. unfold asleep. simpl.
  match goal with |- context [fold_left _ ?due ?j] =>
    assert (Hj : emergency_stop_detected (hw j) = true) by exact Hi;
    generalize dependent j; generalize due
  end.
  intros due. induction due as [|[t e] due IH]; intros j Hj; simpl; auto.
  apply IH, callback_latched, Hj.
Qed.

(** The polling loop never clears a latched edge. *)
Lemma wait_loop_latched n new_state timeout start_time :
  preserves (fun i => emergency_stop_detected (hw i) = true)
    (wait_loop n new_state timeout start_time).
Proof.
  induction n as [|n IH]; intros i Hi; simpl;
    destruct (eqb _ _); auto; destruct (negb _); auto.
  apply (preserves_bind (fun i => emergency_stop_detected (hw i) = true)
           (time_sleep (1 # 100))
           (fun _ => wait_loop n new_state timeout start_time));
    [apply time_sleep_latched | intros _; exact IH | exact Hi].
Qed.

Lemma latch_apart_fields (i j : interface) :
  latch_apart i j ->
  st i = st j /\ meter_events i = meter_events j /\
  clock (hw i) = clock (hw j) /\ incoming (hw i) = incoming (hw j).
Proof.
  destruct i as [s sg me om rm [o e c inc tr] sn].
  destruct j as [s' sg' me' om' rm' [o' e' c' inc' tr'] sn'].
  unfold latch_apart. simpl. intros [= -> -> -> -> -> -> -> -> -> ->]. auto.
Qed.

Lemma callback_latch_apart t e (i j : interface) :
  latch_apart i j -> latch_apart (callback t e i) (callback t e j).
Proof.
  destruct i as [s sg me om rm [o l c inc tr] sn].
  destruct j as [s' sg' me' om' rm' [o' l' c' inc' tr'] sn'].
  unfold latch_apart. simpl. intros [= -> -> -> -> -> -> -> -> -> ->].
  destruct e as [[|]|]; reflexivity.
Qed.

Lemma fold_callback_latch_apart (due : list (Q * edge)) (a b : interface) :
  latch_apart a b ->
  latch_apart (fold_left (fun i te => callback (fst te) (snd te) i) due a)
              (fold_left (fun i te => callback (fst te) (snd te) i) due b).
Proof.
  revert a b. induction due as [|[t e] due IH]; intros a b Hab; simpl; auto.
  apply IH, callback_latch_apart, Hab.
Qed.

Lemma time_sleep_latch_apart seconds (i j : interface) :
  latch_apart i j ->
  latch_apart (snd (time_sleep seconds i)) (snd (time_sleep seconds j)).
Proof.
  intros H. pose proof (latch_apart_fields i j H) as (_ & _ & Hc & Hinc).
  unfold time_sleep. destruct (Qle_bool 0 seconds); [|exact H].
  unfold asleep. simpl. rewrite Hc, Hinc.
  apply fold_callback_latch_apart.
  destruct i as [s sg me om rm [o l c inc tr] sn].
  destruct j as [s' sg' me' om' rm' [o' l' c' inc' tr'] sn'].
  unfold latch_apart in *. simpl in *.
  injection H as -> -> -> -> -> -> -> -> -> ->. reflexivity.
Qed.

(** The polling loop does not read the latch: from two states that
    differ only there, it ends the same way. *)
Lemma wait_loop_latch_apart n new_state timeout start_time (i j : interface) :
  latch_apart i j ->
  fst (wait_loop n new_state timeout start_time i)
  = fst (wait_loop n new_state timeout start_time j) /\
  latch_apart (snd (wait_loop n new_state timeout start_time i))
              (snd (wait_loop n new_state timeout start_time j)).
Proof.
  revert i j. induction n as [|n IH]; intros i j H;
    pose proof (latch_apart_fields i j H) as (Hst & _ & Hc & _);
    simpl; rewrite Hst, Hc;
    destruct (eqb _ _); auto; destruct (negb _); auto.
  unfold bind.
  pose proof (time_sleep_latch_apart (1 # 100) i j H) as Hs.
  rewrite !(time_sleep_nonneg (1 # 100)) in * by reflexivity.
  apply IH, Hs.
Qed.

Lemma handle_machine_stop_latched {A} (off : M bool) (routine : M A) i :
  emergency_stop_detected (hw i) = true ->
  handle_machine_stop off routine i
  = (off >> raise MachineStopped) (with_hw (set_emergency_stop_detected false) i).
Proof.
  intros Hl. unfold handle_machine_stop.
  assert (E : (check_emergency_stop >>
               (let* retval := routine in check_emergency_stop >> ret retval)) i
              = (Raise MachineStopped,
                 with_hw (set_emergency_stop_detected false) i)).
  { unfold bind. rewrite check_emergency_stop_latched by exact Hl. reflexivity. }
  rewrite E. reflexivity.
Qed.

Lemma handle_machine_stop_clear {A} (off : M bool) (routine : M A) i :
  emergency_stop_detected (hw i) = false ->
  handle_machine_stop off routine i
  = match routine i with
    | (Return a, i') =>
        if emergency_stop_detected (hw i')
        then (off >> raise MachineStopped)
               (with_hw (set_emergency_stop_detected false) i')
        else (Return a, i')
    | (Raise MachineStopped, i') => (off >> raise MachineStopped) i'
    | (Raise KeyboardInterrupt, i') => (off >> raise MachineStopped) i'
    | other => other
    end.
Proof.
  intros Hc. unfold handle_machine_stop.
  assert (E : (check_emergency_stop >>
               (let* retval := routine in check_emergency_stop >> ret retval)) i
              = match routine i with
                | (Return a, i') =>
                    if emergency_stop_detected (hw i')
                    then (Raise MachineStopped,
                          with_hw (set_emergency_stop_detected false) i')
                    else (Return a, i')
                | other => other
                end).
  { unfold bind. rewrite check_emergency_stop_clear by exact Hc.
    destruct (routine i) as [[a|e|] i']; try reflexivity.
    destruct (emergency_stop_detected (hw i')) eqn:Hl.
    - rewrite check_emergency_stop_latched by exact Hl. reflexivity.
    - rewrite check_emergency_stop_clear by exact Hl. reflexivity. }
  rewrite E. destruct (routine i) as [[a|e|] i'];
    [destruct (emergency_stop_detected (hw i')) | destruct e | ];
    reflexivity.
Qed.

(** The only exception of the polling loop is machine-stopped. *)
Lemma wait_loop_raises n new_state timeout start_time (i : interface) e i' :
  wait_loop n new_state timeout start_time i = (Raise e, i') ->
  e = MachineStopped.
Proof.
  revert i. induction n as [|n IH]; intros i; simpl;
    destruct (eqb _ _); try discriminate;
    destruct (negb _); try discriminate; try (intros [= <- _]; reflexivity).
  unfold bind. rewrite (time_sleep_nonneg (1 # 100)) by reflexivity.
  apply IH.
Qed.

(** C3 (as amended): [wait_for_sensor] polls the latched emergency stop
    edge once before its polling loop and once after it, not in every
    iteration.  An edge latched on entry makes it run
    [machine_control(off)] and raise machine-stopped before any wait
    iteration.  Otherwise the loop runs to its end (sensor reached, or
    timeout); an edge latched meanwhile stays latched, does not change how
    the loop ends, and is acted on only after the loop. *)
Theorem wait_for_sensor_polls_around_loop cfg off fuel new_state timeout
    (i : interface) :
  (emergency_stop_detected (hw i) = true ->
   wait_for_sensor cfg off fuel new_state timeout i
   = (off >> raise MachineStopped)
       (with_hw (set_emergency_stop_detected false) i)) /\
  (emergency_stop_detected (hw i) = false ->
   wait_for_sensor cfg off fuel new_state timeout i
   = match wait_loop fuel new_state (or_Q timeout (sensor_timeout cfg))
             (clock (hw i)) i with
     | (Return _, i') =>
         if emergency_stop_detected (hw i')
         then (off >> raise MachineStopped)
                (with_hw (set_emergency_stop_detected false) i')
         else (Return tt, i')
     | (Raise MachineStopped, i') => (off >> raise MachineStopped) i'
     | other => other
     end) /\
  (forall n t start_time,
      (emergency_stop_detected (hw i) = true ->
       emergency_stop_detected (hw (snd (wait_loop n new_state t start_time i)))
       = true) /\
      (forall b,
          fst (wait_loop n new_state t start_time
                 (with_hw (set_emergency_stop_detected b) i))
          = fst (wait_loop n new_state t start_time i))).
Proof.
  split; [|split].
  - intros Hlatched. unfold wait_for_sensor.
    apply handle_machine_stop_latched, Hlatched.
  - intros Hclear. unfold wait_for_sensor.
    rewrite handle_machine_stop_clear by exact Hclear.
    unfold bind, time_time, gets.
    destruct (wait_loop fuel new_state (or_Q timeout (sensor_timeout cfg))
                (clock (hw i)) i) as [[[]|e|] i'] eqn:Hloop; try reflexivity.
    apply wait_loop_raises in Hloop. subst e. reflexivity.
  - intros n t start_time. split.
    + apply (wait_loop_latched n new_state t start_time i).
    + intros b. apply wait_loop_latch_apart.
      unfold latch_apart.
      destruct i as [s sg me om rm [o l c inc tr] sn]. reflexivity.
Qed.

Lemma wait_for_sensor_polls_around_loop_witness :
  let i := with_hw (set_emergency_stop_detected true) (init []) in
  wait_for_sensor casting_config casting_api 100 true (Some 5%Q) i
  = (Raise MachineStopped, init []).
Proof.
  intros i.
  rewrite (proj1 (wait_for_sensor_polls_around_loop casting_config casting_api
                    100 true (Some 5%Q) i) eq_refl).
  vm_compute. reflexivity.
Defined.

(** C3 (as stated) fails: the emergency stop edge is latched during the
    first 10 ms wait, yet four more wait iterations are completed, until
    the sensor goes ON at 50 ms; only then is machine-stopped raised. *)
Lemma wait_for_sensor_keeps_waiting_after_edge :
  let i0 := estop_during_wait in
  let i1 := snd (time_sleep (1 # 100) i0) in
  let run := wait_for_sensor casting_config casting_api 100 true (Some 5%Q) i0 in
  emergency_stop_detected (hw i1) = true /\
  fst (wait_loop 100 true 5 0 i1) = Return tt /\
  new_trace i1 (snd (wait_loop 100 true 5 0 i1)) = repeat (Sleep (1 # 100)) 4 /\
  fst run = Raise MachineStopped /\
  trace (hw (snd run)) = repeat (Sleep (1 # 100)) 5 /\
  clock (hw (snd run)) = (1 # 20)%Q.
Proof. cbv zeta. evaluate. Qed.

(** ** The bookkeeping lags one combination behind *)

Lemma update_pump_and_wedges_frame (i : interface) :
  hw (update_pump_and_wedges i) = hw i /\
  signals (update_pump_and_wedges i) = signals i.
Proof.
  unfold update_pump_and_wedges.
  repeat match goal with |- context [if ?b then _ else _] => destruct b end;
    split; reflexivity.
Qed.

Lemma update_pump_and_wedges_reads_signals_only (i : interface) g :
  st (update_pump_and_wedges (with_hw g i)) = st (update_pump_and_wedges i).
Proof.
  unfold update_pump_and_wedges. simpl.
  repeat match goal with |- context [if ?b then _ else _] => destruct b end;
    reflexivity.
Qed.

(** What [valves_control] does with a non-empty set when no emergency
    stop is pending: the set goes to the driver, the pump and the wedges
    are recomputed from the list stored by the previous call, and only
    then is the new list stored. *)
Lemma valves_control_on cfg off (sigs : gset string) (i : interface) :
  sigs <> ∅ ->
  emergency_stop_detected (hw i) = false ->
  valves_control cfg off (Signals sigs) i
  = (Return (ordered_signals cfg sigs),
     set_signals (ordered_signals cfg sigs)
       (update_pump_and_wedges
          (with_hw (fun h => set_trace (trace h ++ [ValvesOn sigs])%list h) i))).
Proof.
  intros Hne Hclear. unfold valves_control.
  rewrite handle_machine_stop_clear by exact Hclear.
  rewrite (bool_decide_eq_false_2 _ Hne).
  unfold bind, output_valves_on, modify, gets. simpl.
  destruct (update_pump_and_wedges_frame
              (with_hw (fun h => set_trace (trace h ++ [ValvesOn sigs])%list h) i))
    as [Hhw _].
  rewrite Hhw. simpl. rewrite Hclear. reflexivity.
Qed.

Lemma valves_control_state_from_previous_signals cfg off (sigs : gset string)
    (i : interface) :
  sigs <> ∅ ->
  emergency_stop_detected (hw i) = false ->
  st (snd (valves_control cfg off (Signals sigs) i))
  = st (update_pump_and_wedges i).
Proof.
  intros Hne Hclear. rewrite valves_control_on by assumption. simpl.
  apply update_pump_and_wedges_reads_signals_only.
Qed.

(** * Further properties of the code *)

(** ** Signal rewriting *)

(** X1: [strip_16] never leaves a "16" behind; "15" is in the result
    exactly when the upper-cased input had "15" or "16"; every other
    name is in the result exactly when the input had it in some case. *)
Theorem strip_16_spec (source : list string) :
  ("16" ∉ strip_16 source) /\
  ("15" ∈ strip_16 source <->
   "15" ∈ map upper source \/ "16" ∈ map upper source) /\
  (forall x, x <> "15" -> x <> "16" ->
             (x ∈ strip_16 source <-> x ∈ map upper source)).
Proof.
  unfold strip_16, mem. cbv zeta.
  case_bool_decide as H16; rewrite elem_of_list_to_set in H16.
  - split; [|split].
    + rewrite elem_of_union, elem_of_difference, !elem_of_singleton.
      intros [[_ H]|H]; [apply H; reflexivity | discriminate H].
    + rewrite elem_of_union, elem_of_difference, !elem_of_singleton,
        elem_of_list_to_set. split; [auto | intros _; right; reflexivity].
    + intros x H15 Hx.
      rewrite elem_of_union, elem_of_difference, !elem_of_singleton,
        elem_of_list_to_set. tauto.
  - split; [|split].
    + rewrite elem_of_list_to_set. exact H16.
    + rewrite elem_of_list_to_set. tauto.
    + intros x _ _. rewrite elem_of_list_to_set. tauto.
Qed.

Lemma mem_true (x : string) (s : gset string) : mem x s = true <-> x ∈ s.
Proof. unfold mem. apply bool_decide_eq_true. Qed.

Lemma mem_false (x : string) (s : gset string) : mem x s = false <-> x ∉ s.
Proof. unfold mem. apply bool_decide_eq_false. Qed.

Lemma elem_of_update_O15 (x : string) (s : gset string) :
  x ∈ update s "O15" <-> x ∈ s \/ x = "O" \/ x = "1" \/ x = "5".
Proof.
  unfold update. simpl chars.
  rewrite elem_of_union, elem_of_list_to_set, !elem_of_cons, elem_of_nil.
  tauto.
Qed.

Lemma elem_of_convert_o15 (x : string) (source : gset string) :
  x ∈ convert_o15 source <->
  if mem "O" source || mem "15" source
  then (x ∈ source /\ x <> "15") \/ x = "O" \/ x = "1" \/ x = "5"
  else x ∈ source.
Proof.
  unfold convert_o15. simpl fold_left.
  destruct (mem "O" source) eqn:HO.
  - apply mem_true in HO. simpl orb.
    destruct (mem "15" (update (source ∖ {["O"]}) "O15")) eqn:H15.
    + rewrite elem_of_update_O15, elem_of_difference, elem_of_singleton,
        elem_of_update_O15, elem_of_difference, elem_of_singleton.
      destruct (decide (x = "O")) as [->|HxO]; [tauto|].
      split; [intros [[[[H ?]|?] ?]|?]; tauto | intros [[? ?]|?]; tauto].
    + apply mem_false in H15.
      rewrite elem_of_update_O15, elem_of_difference, elem_of_singleton in H15.
      rewrite elem_of_update_O15, elem_of_difference, elem_of_singleton.
      destruct (decide (x = "O")) as [->|HxO]; [tauto|].
      destruct (decide (x = "15")) as [->|Hx15].
      * split; [intros [[H ?]|?]; [exfalso; apply H15; left; split;
                  [exact H | discriminate] | tauto] | tauto].
      * tauto.
  - apply mem_false in HO. simpl orb.
    destruct (mem "15" source) eqn:H15.
    + rewrite elem_of_update_O15, elem_of_difference, elem_of_singleton. tauto.
    + tauto.
Qed.

Lemma convert_o15_no_15 (source : gset string) : "15" ∉ convert_o15 source.
Proof.
  intros H. apply elem_of_convert_o15 in H.
  destruct (mem "O" source || mem "15" source) eqn:E.
  - destruct H as [[_ H]|[H|[H|H]]]; [apply H; reflexivity | discriminate H..].
  - apply orb_false_elim in E as [_ E]. apply mem_false in E. auto.
Qed.

Lemma add_missing_o15_size (source : gset string) :
  (2 <= size (add_missing_o15 source))%nat.
Proof.
  unfold add_missing_o15.
  destruct (size source <? 2)%nat eqn:E.
  - transitivity (size (list_to_set (chars "O15") : gset string)).
    + vm_compute. lia.
    + apply subseteq_size. unfold update. apply union_subseteq_r.
  - apply Nat.ltb_ge in E. exact E.
Qed.

(** X2: [convert_o15] in closed form.  A set with neither O nor 15 is
    returned as it is; otherwise 15 is removed and the three names O, 1
    and 5 are added.  The result never holds 15, and holds the combined
    name O15 only if the input did. *)
Theorem convert_o15_spec (source : gset string) :
  (forall x, x ∈ convert_o15 source <->
     if mem "O" source || mem "15" source
     then (x ∈ source /\ x <> "15") \/ x = "O" \/ x = "1" \/ x = "5"
     else x ∈ source) /\
  ("15" ∉ convert_o15 source) /\
  ("O15" ∈ convert_o15 source <-> "O15" ∈ source).
Proof.
  split; [intros x; apply elem_of_convert_o15|].
  split; [apply convert_o15_no_15|].
  rewrite elem_of_convert_o15. destruct (mem "O" source || mem "15" source).
  - split; [intros [[H _]|[H|[H|H]]]; [exact H | discriminate H..]
           | intros H; left; split; [exact H | discriminate]].
  - tauto.
Qed.

(** X3: [add_missing_o15] always returns at least two names and keeps
    every input name; what it adds to a short set are the names O, 1
    and 5, never the combined name O15. *)
Theorem add_missing_o15_spec (source : gset string) :
  (2 <= size (add_missing_o15 source))%nat /\
  source ⊆ add_missing_o15 source /\
  (forall x, x ∈ add_missing_o15 source ->
             x ∈ source \/ x = "O" \/ x = "1" \/ x = "5") /\
  ("O15" ∈ add_missing_o15 source <-> "O15" ∈ source) /\
  ((2 <= size source)%nat <-> add_missing_o15 source = source).
Proof.
  unfold add_missing_o15.
  destruct (size source <? 2)%nat eqn:E.
  - apply Nat.ltb_lt in E.
    assert (Hthree : (3 <= size (update source "O15"))%nat).
    { transitivity (size (list_to_set (chars "O15") : gset string)).
      - vm_compute. lia.
      - apply subseteq_size. unfold update. apply union_subseteq_r. }
    split; [lia|]. split; [unfold update; apply union_subseteq_l|].
    split; [intros x Hx; apply elem_of_update_O15 in Hx; exact Hx|].
    split.
    + rewrite elem_of_update_O15.
      split; [intros [H|[H|[H|H]]]; [exact H | discriminate H..] | auto].
    + split; [lia|]. intros Heq. rewrite Heq in Hthree. lia.
  - apply Nat.ltb_ge in E. split; [exact E|]. split; [reflexivity|].
    split; [auto|]. split; [tauto|]. split; auto.
Qed.

Lemma dict_get_head {V} (k : option string) (v : V) d i :
  dict_get ((k, v) :: d) k i = (Return v, i).
Proof. simpl. rewrite bool_decide_eq_true_2 by reflexivity. reflexivity. Qed.

Lemma dict_get_skip {V} (k key : option string) (v : V) d :
  k <> key -> dict_get ((k, v) :: d) key = dict_get d key.
Proof. intros H. simpl. rewrite bool_decide_eq_false_2 by exact H. reflexivity. Qed.

(** X4: [prepare_signals] changes nothing in the interface, and its
    result depends on the operation mode: for casting it never holds O15,
    for punching it holds at least two names, for testing it never holds
    15 -- whatever the row 16 converter did before. *)
Theorem prepare_signals_by_mode cfg cv input (i : interface) codes i' :
  prepare_signals cfg cv input i = (Return codes, i') ->
  i' = i /\
  (operation_mode cfg i = Some "casting" -> "O15" ∉ codes) /\
  (operation_mode cfg i = Some "punching" -> (2 <= size codes)%nat) /\
  (operation_mode cfg i = None -> "15" ∉ codes).
Proof.
  intros H. unfold prepare_signals in H. cbv zeta in H.
  apply bind_Return in H as (mode16 & i0 & [= <- <-] & H).
  apply bind_Return in H as (converter & i1 & Hget & H).
  apply dict_get_Return in Hget as [-> _].
  apply bind_Return in H as (mode & i0 & [= <- <-] & H).
  apply bind_Return in H as (o15 & i1 & Hget & H).
  pose proof (dict_get_Return _ _ _ _ _ Hget) as [-> _].
  injection H as <- <-.
  split; [reflexivity|].
  split; [|split]; intros Hmode; rewrite Hmode in Hget.
  - rewrite dict_get_head in Hget. injection Hget as <-.
    unfold strip_o15. rewrite elem_of_difference, elem_of_singleton. tauto.
  - rewrite dict_get_skip, dict_get_head in Hget by discriminate.
    injection Hget as <-. apply add_missing_o15_size.
  - rewrite !dict_get_skip, dict_get_head in Hget by discriminate.
    injection Hget as <-. apply convert_o15_no_15.
Qed.

Lemma prepare_signals_by_mode_witness :
  let codes : gset string := list_to_set ["A"; "O"; "1"; "5"] in
  (2 <= size codes)%nat.
Proof.
  intros codes.
  apply (prepare_signals_by_mode punching_config row16_unused ["A"]
           punching_started codes punching_started).
  - vm_compute. exact eq_refl.
  - reflexivity.
Defined.

(** X5: with a row 16 mode that is none of None, unit shift, HMN and
    KMN, [prepare_signals] raises KeyError for that mode and changes
    nothing. *)
Theorem prepare_signals_unknown_row16_mode cfg cv input (i : interface) :
  row16_mode cfg i ∉ [None; Some "unit shift"; Some "HMN"; Some "KMN"] ->
  prepare_signals cfg cv input i = (Raise (KeyError (row16_mode cfg i)), i).
Proof.
  intros H. rewrite !not_elem_of_cons in H.
  destruct H as (H1 & H2 & H3 & H4 & _).
  unfold prepare_signals. cbv zeta. unfold bind at 1. unfold gets at 1.
  unfold bind at 1.
  rewrite !dict_get_skip by congruence. reflexivity.
Qed.

Lemma prepare_signals_unknown_row16_mode_witness :
  prepare_signals odd_row16_config row16_unused ["A"] (init [])
  = (Raise (KeyError (Some "off")), init []).
Proof.
  apply (prepare_signals_unknown_row16_mode odd_row16_config row16_unused
           ["A"] (init [])).
  apply (bool_decide_unpack _). vm_compute. exact I.
Defined.

(** ** Mode setters *)

(** X6: the operation mode setter either stores the mode -- the
    configured default for "reset" -- so that the getter returns it, or,
    for a name that is neither "reset" nor a supported mode, raises
    unsupported-mode and changes nothing.  [None] is always accepted. *)
Theorem operation_mode_setter_spec cfg (mode : option string) (i : interface) :
  match operation_mode_setter cfg mode i with
  | (Return _, i') =>
      let stored :=
        if bool_decide (mode = Some "reset") then default_mode cfg else mode in
      i' = set__operation_mode (Some stored) i /\
      operation_mode cfg i' = stored /\
      (forall m, mode = Some m -> m = "reset" \/ m ∈ supported_modes cfg)
  | (Raise e, i') =>
      i' = i /\
      exists m, mode = Some m /\ m <> "reset" /\ (m ∉ supported_modes cfg) /\
                e = UnsupportedMode m
  | (Exhausted, _) => False
  end.
Proof.
  unfold operation_mode_setter.
  case_bool_decide as Hreset.
  - simpl. repeat split. intros m Hm. left. congruence.
  - destruct mode as [m|].
    + unfold inb. case_bool_decide as Hin; simpl.
      * repeat split. intros m' [= <-]. right. exact Hin.
      * split; [reflexivity|]. exists m. repeat split; auto. congruence.
    + simpl. repeat split. discriminate.
Qed.

(** X7: while the operation mode is casting, the row 16 mode setter
    stores "reset" (as the configured default), [None] and every
    supported mode, so that the getter returns it, and for any other name
    raises unsupported-row16-mode and changes nothing. *)
Theorem row16_mode_setter_casting cfg (mode : option string) (i : interface) :
  operation_mode cfg i = Some "casting" ->
  match row16_mode_setter cfg mode i with
  | (Return _, i') =>
      let stored :=
        if bool_decide (mode = Some "reset")
        then default_row16_mode cfg else mode in
      i' = set__row16_mode (Some stored) i /\
      row16_mode cfg i' = stored /\
      (forall m, mode = Some m -> m = "reset" \/ m ∈ supported_row16_modes cfg)
  | (Raise e, i') =>
      i' = i /\
      exists m, mode = Some m /\ m <> "reset" /\
                (m ∉ supported_row16_modes cfg) /\ e = UnsupportedRow16Mode m
  | (Exhausted, _) => False
  end.
Proof.
  intros Hcasting. unfold row16_mode_setter.
  case_bool_decide as Hreset.
  - simpl. repeat split. intros m Hm. left. congruence.
  - destruct mode as [m|].
    + unfold bind, gets. rewrite bool_decide_eq_true_2 by exact Hcasting.
      unfold inb. case_bool_decide as Hin; simpl.
      * repeat split. intros m' [= <-]. right. exact Hin.
      * split; [reflexivity|]. exists m. repeat split; auto. congruence.
    + simpl. repeat split. discriminate.
Qed.

Lemma row16_mode_setter_casting_witness :
  row16_mode_setter casting_config (Some "16 as 15") pump_running_8_3
  = (Raise (UnsupportedRow16Mode "16 as 15"), pump_running_8_3).
Proof.
  pose proof (row16_mode_setter_casting casting_config (Some "16 as 15")
                pump_running_8_3) as H.
  destruct (row16_mode_setter casting_config (Some "16 as 15") pump_running_8_3)
    as [[u|e|] i'].
  - exfalso. destruct H as (_ & _ & H); [vm_compute; exact eq_refl|].
    destruct (H _ eq_refl) as [H'|H']; [discriminate H'|].
    revert H'. apply (bool_decide_unpack _). vm_compute. exact I.
  - destruct H as (-> & m & [= <-] & _ & _ & ->); [vm_compute; exact eq_refl|].
    reflexivity.
  - exfalso. apply H. vm_compute. exact eq_refl.
Defined.

Lemma operation_mode_setter_spec_witness :
  operation_mode_setter punching_config (Some "testing") (init [])
  = (Raise (UnsupportedMode "testing"), init []).
Proof.
  pose proof (operation_mode_setter_spec punching_config (Some "testing")
                (init [])) as H.
  destruct (operation_mode_setter punching_config (Some "testing") (init []))
    as [[u|e|] i'].
  - exfalso. destruct H as (_ & _ & H).
    destruct (H _ eq_refl) as [H'|H']; [discriminate H'|].
    revert H'. apply (bool_decide_unpack _). vm_compute. exact I.
  - destruct H as (-> & m & [= <-] & _ & _ & ->). reflexivity.
  - exfalso. exact H.
Defined.

(** ** The emergency stop wrapper *)

(** X8: what [handle_machine_stop] adds to a routine.  With an edge
    latched on entry the routine is not run at all: the latch is cleared
    and the wrapper goes on as [machine_control(off)] followed by raising
    machine-stopped.  With no edge on entry, a routine that raises
    machine-stopped or [KeyboardInterrupt] is answered the same way, from
    the state the routine left; every other exception of the routine
    passes through as it is, without [machine_control(off)]; and after a
    routine that returns the latch is read once more.  A normal return of
    the wrapper is the routine's own, with no edge latched on entry nor
    at the end. *)
Theorem handle_machine_stop_spec {A} (off : M bool) (routine : M A)
    (i : interface) :
  (emergency_stop_detected (hw i) = true ->
   handle_machine_stop off routine i
   = (off >> raise MachineStopped)
       (with_hw (set_emergency_stop_detected false) i)) /\
  (emergency_stop_detected (hw i) = false ->
   (forall e i', routine i = (Raise e, i') ->
                 e = MachineStopped \/ e = KeyboardInterrupt ->
                 handle_machine_stop off routine i
                 = (off >> raise MachineStopped) i') /\
   (forall e i', routine i = (Raise e, i') ->
                 e <> MachineStopped -> e <> KeyboardInterrupt ->
                 handle_machine_stop off routine i = (Raise e, i')) /\
   (forall a i', routine i = (Return a, i') ->
                 handle_machine_stop off routine i
                 = if emergency_stop_detected (hw i')
                   then (off >> raise MachineStopped)
                          (with_hw (set_emergency_stop_detected false) i')
                   else (Return a, i'))) /\
  (forall a i', handle_machine_stop off routine i = (Return a, i') ->
                routine i = (Return a, i') /\
                emergency_stop_detected (hw i) = false /\
                emergency_stop_detected (hw i') = false).
Proof.
  split; [|split].
  - apply handle_machine_stop_latched.
  - intros Hclear. split; [|split].
    + intros e i' Hr [->| ->];
        rewrite handle_machine_stop_clear by exact Hclear; rewrite Hr;
        reflexivity.
    + intros e i' Hr He Hk.
      rewrite handle_machine_stop_clear by exact Hclear. rewrite Hr.
      destruct e; try reflexivity; exfalso; [apply He | apply Hk]; reflexivity.
    + intros a i' Hr.
      rewrite handle_machine_stop_clear by exact Hclear. rewrite Hr.
      reflexivity.
  - intros a i' H. apply handle_machine_stop_Return in H. tauto.
Qed.

(** A [KeyboardInterrupt] in a routine on a started interface stops the
    machine and comes out as machine-stopped. *)
Lemma handle_machine_stop_spec_witness :
  let off := machine_off punching_config row16_unused 10 in
  let run := handle_machine_stop off (raise (A := unit) KeyboardInterrupt)
               punching_started in
  working (st punching_started) = true /\
  fst run = Raise MachineStopped /\ working (st (snd run)) = false.
Proof.
  intros off run.
  assert (Hclear : emergency_stop_detected (hw punching_started) = false)
    by (vm_compute; reflexivity).
  assert (Hrun : run = (off >> raise MachineStopped) punching_started).
  { apply (proj1 (proj1 (proj2 (handle_machine_stop_spec off
                                  (raise (A := unit) KeyboardInterrupt)
                                  punching_started)) Hclear)
                 KeyboardInterrupt punching_started eq_refl).
    right. reflexivity. }
  rewrite Hrun. split; [|split]; vm_compute; reflexivity.
Defined.

(** ** Valves, queries and the motor *)

(** X9: with no emergency stop edge pending, [valves_control(None)] only
    returns the stored signals; [valves_control(False)] tells the driver
    to release the valves and keeps the stored signals; and an empty set
    of signals is treated like [False]. *)
Theorem valves_control_off_and_query cfg off (i : interface) :
  emergency_stop_detected (hw i) = false ->
  valves_control cfg off ValvesNone i = (Return (signals i), i) /\
  valves_control cfg off ValvesFalse i
  = (Return (signals i),
     with_hw (fun h => set_trace (trace h ++ [ValvesOff])%list h) i) /\
  valves_control cfg off (Signals ∅) i = valves_control cfg off ValvesFalse i.
Proof.
  intros Hclear. unfold valves_control.
  rewrite !handle_machine_stop_clear by exact Hclear.
  rewrite bool_decide_eq_true_2 by reflexivity.
  unfold bind, ret, gets, output_valves_off, modify. simpl.
  rewrite Hclear. auto.
Qed.

Lemma valves_control_off_and_query_witness :
  valves_control casting_config casting_api ValvesNone (init [])
  = (Return [], init []).
Proof.
  apply (valves_control_off_and_query casting_config casting_api (init [])).
  reflexivity.
Defined.

(** X10: the status queries.  [machine_control(None)] and
    [pump_control(None)] return the flag and change nothing.  The
    wrapped [motor_control(None)], [air_control(None)] and
    [water_control(None)] do so only while no emergency stop edge is
    pending; with an edge pending they clear it, run
    [machine_control(off)] and raise machine-stopped. *)
Theorem status_queries cfg cv off fuel (i : interface) :
  machine_control cfg cv fuel None i = (Return (working (st i)), i) /\
  pump_control cfg cv off fuel None i = (Return (pump (st i)), i) /\
  (emergency_stop_detected (hw i) = false ->
   motor_control cfg off None i = (Return (motor (st i)), i) /\
   air_control cfg off None i = (Return (air (st i)), i) /\
   water_control cfg off None i = (Return (water (st i)), i)) /\
  (emergency_stop_detected (hw i) = true ->
   let stopped := (off >> raise MachineStopped)
                    (with_hw (set_emergency_stop_detected false) i) in
   motor_control cfg off None i = stopped /\
   air_control cfg off None i = stopped /\
   water_control cfg off None i = stopped).
Proof.
  split; [reflexivity|]. split; [reflexivity|]. split.
  - intros Hclear. unfold motor_control, air_control, water_control.
    rewrite !handle_machine_stop_clear by exact Hclear.
    unfold gets. rewrite Hclear. auto.
  - intros Hl. unfold motor_control, air_control, water_control.
    rewrite !handle_machine_stop_latched by exact Hl. auto.
Qed.

Lemma status_queries_witness :
  air_control casting_config casting_api None (init [])
  = (Return false, init []).
Proof.
  destruct (status_queries casting_config row16_unused casting_api 100
              (init [])) as (_ & _ & H & _).
  destruct H as (_ & H & _); [reflexivity|]. exact H.
Defined.

(** X11: stopping the motor.  When [motor_control(off)] returns
    normally the motor flag is false, the meter events are gone, so that
    [rpm] reads 0, and half a second was spent on the stop pulse. *)
Theorem motor_control_off_spec cfg off (i : interface) r i' :
  motor_control cfg off (Some false) i = (Return r, i') ->
  r = false /\ motor (st i') = false /\ meter_events i' = [] /\
  rpm cfg i' = Int 0 /\
  clock (hw i') = Qred (clock (hw i) + (1 # 2)) /\
  led (motor_stop_gpio cfg) i' = false.
Proof.
  intros H. apply handle_machine_stop_Return in H as (_ & H & _).
  unfold turn_on, turn_off in H.
  apply bind_Return in H as ([] & i1 & [= <-] & H).
  apply bind_Return in H as ([] & i2 & Hsleep & H).
  apply bind_Return in H as ([] & i3 & [= <-] & H).
  apply bind_Return in H as ([] & i4 & [= <-] & H).
  apply bind_Return in H as ([] & i5 & [= <-] & H).
  injection H as <- <-.
  assert (Hclock : clock (hw i2) = Qred (clock (hw i) + (1 # 2))).
  { rewrite time_sleep_nonneg in Hsleep by reflexivity.
    injection Hsleep as <-. unfold asleep. simpl.
    match goal with |- clock (hw (fold_left _ ?due ?j)) = _ =>
      change (clock (hw (fold_left (fun i te => callback (fst te) (snd te) i)
                           due j)) = clock (hw j));
      generalize j; generalize due
    end.
    intros due. induction due as [|[t e] due IH]; intros j; simpl; auto.
    rewrite IH. destruct e as [[|]|]; reflexivity. }
  unfold rpm, led. simpl. rewrite lookup_insert_eq.
  repeat split; try reflexivity. exact Hclock.
Qed.

Lemma motor_control_off_spec_witness :
  let run := motor_control casting_config casting_api (Some false)
               pump_running_8_3 in
  rpm casting_config pump_running_8_3 = Float (float_of_Z 600) /\
  rpm casting_config (snd run) = Int 0.
Proof.
  intros run. split; [vm_compute; exact eq_refl|].
  destruct (motor_control_off_spec casting_config casting_api pump_running_8_3
              false (snd run)) as (_ & _ & _ & H & _).
  - vm_compute. exact eq_refl.
  - exact H.
Defined.

(** ** Pump and wedge bookkeeping *)

(** X12: [check_pump] and [update_pump_and_wedges] agree on the pump:
    the flag the update stores is the one [check_pump] returns. *)
Theorem check_pump_agrees (i : interface) :
  check_pump i = pump (st (update_pump_and_wedges i)).
Proof.
  unfold check_pump, update_pump_and_wedges. cbv zeta.
  destruct (found ["0075"] (signals i) || found (chars "NK") (signals i));
    destruct (found ["0005"] (signals i) || found (chars "NJ") (signals i));
    reflexivity.
Qed.

(** X13: [update_pump_and_wedges] is idempotent, and it changes nothing
    but the pump flag and the two wedge positions. *)
Theorem update_pump_and_wedges_idempotent (i : interface) :
  update_pump_and_wedges (update_pump_and_wedges i) = update_pump_and_wedges i /\
  update_pump_and_wedges i
  = with_st (fun s =>
               set_wedge_0005 (wedge_0005 (st (update_pump_and_wedges i)))
                 (set_wedge_0075 (wedge_0075 (st (update_pump_and_wedges i)))
                    (set_pump (pump (st (update_pump_and_wedges i))) s))) i.
Proof.
  split.
  - destruct (update_pump_and_wedges_frame i) as [_ Hs].
    unfold update_pump_and_wedges at 1. cbv zeta. rewrite Hs.
    unfold update_pump_and_wedges. cbv zeta.
    generalize (earliest_row (signals i)).
    generalize (found ["0075"] (signals i) || found (chars "NK") (signals i)).
    generalize (found ["0005"] (signals i) || found (chars "NJ") (signals i)).
    intros b a r.
    destruct a, b, i as [[w5 w75 wk wa ai mo pu se] sg me om rm h sn];
      reflexivity.
  - unfold update_pump_and_wedges. cbv zeta.
    generalize (earliest_row (signals i)).
    generalize (found ["0075"] (signals i) || found (chars "NK") (signals i)).
    generalize (found ["0005"] (signals i) || found (chars "NJ") (signals i)).
    intros b a r.
    destruct a, b, i as [[w5 w75 wk wa ai mo pu se] sg me om rm h sn];
      reflexivity.
Qed.

(** X23: [valves_control] with a non-empty set and no emergency stop
    edge pending hands the set to the driver, returns and stores its
    ordered form, and leaves the rest of the state as
    [update_pump_and_wedges] computes it from the signals stored before
    the call: the pump flag and the wedge positions after the call do not
    depend on the set that was passed. *)
Theorem valves_control_on_spec cfg off (sigs : gset string) (i : interface) :
  sigs <> ∅ ->
  emergency_stop_detected (hw i) = false ->
  let run := valves_control cfg off (Signals sigs) i in
  fst run = Return (ordered_signals cfg sigs) /\
  signals (snd run) = ordered_signals cfg sigs /\
  trace (hw (snd run)) = (trace (hw i) ++ [ValvesOn sigs])%list /\
  st (snd run) = st (update_pump_and_wedges i) /\
  (forall sigs' : gset string,
      sigs' <> ∅ ->
      st (snd (valves_control cfg off (Signals sigs') i)) = st (snd run)).
Proof.
  intros Hne Hclear. cbv zeta.
  rewrite valves_control_on by assumption. simpl.
  destruct (update_pump_and_wedges_frame
              (with_hw (fun h => set_trace (trace h ++ [ValvesOn sigs])%list h) i))
    as [Hhw _].
  split; [reflexivity|]. split; [reflexivity|].
  split; [rewrite Hhw; reflexivity|].
  split; [apply update_pump_and_wedges_reads_signals_only|].
  intros sigs' Hne'. rewrite valves_control_on by assumption. simpl.
  rewrite !update_pump_and_wedges_reads_signals_only. reflexivity.
Qed.

Lemma valves_control_on_spec_witness :
  let sigs : gset string := list_to_set ["N"; "K"; "S"; "0075"; "3"] in
  st (snd (valves_control casting_config casting_api (Signals sigs) (init [])))
  = st (update_pump_and_wedges (init [])).
Proof.
  intros sigs.
  assert (Hne : sigs <> ∅).
  { intros H. apply (f_equal size) in H. vm_compute in H. discriminate H. }
  exact (proj1 (proj2 (proj2 (proj2
    (valves_control_on_spec casting_config casting_api sigs (init [])
       Hne eq_refl))))).
Defined.

(** ** Sending combinations *)

Lemma send_signals_not_started cfg cv off fuel sigs timeout (i : interface) :
  working (st i) = false ->
  send_signals cfg cv off fuel sigs timeout i = (Raise InterfaceNotStarted, i).
Proof.
  intros H. unfold send_signals, bind, gets. rewrite H. reflexivity.
Qed.

Lemma bind_bind {A B C} (m : M A) (k : A -> M B) (h : B -> M C) i :
  bind (bind m k) h i = bind m (fun a => bind (k a) h) i.
Proof. unfold bind. destruct (m i) as [[a| |] i1]; reflexivity. Qed.

Lemma bind_gets {A B} (f : interface -> A) (k : A -> M B) i :
  bind (gets f) k i = k (f i) i.
Proof. reflexivity. Qed.

Lemma bind_modify {B} (f : interface -> interface) (k : unit -> M B) i :
  bind (modify f) k i = k tt (f i).
Proof. reflexivity. Qed.

Lemma bind_ret {A B} (a : A) (k : A -> M B) i : bind (ret a) k i = k a i.
Proof. reflexivity. Qed.

Lemma pump_stop_loop_not_started cfg cv off fuel n code timeout (j : interface) :
  working (st j) = false -> pump (st j) = true ->
  pump_stop_loop cfg cv off fuel (S n) code timeout j
  = (Raise InterfaceNotStarted, j).
Proof.
  intros Hw Hp. cbn [pump_stop_loop]. rewrite Hp. unfold bind at 1.
  rewrite send_signals_not_started by exact Hw. reflexivity.
Qed.

(** X14: on an interface that is not working, [send_signals],
    [pump_control(on)] and a galley trip raise interface-not-started and
    change nothing.  [pump_control(off)] with the pump believed on raises
    it too, but only after it has switched the error LED on: the LED
    stays on and nothing is sent. *)
Theorem not_started_refused cfg cv off fuel (i : interface) :
  working (st i) = false ->
  (forall sigs timeout,
      send_signals cfg cv off fuel sigs timeout i
      = (Raise InterfaceNotStarted, i)) /\
  pump_control cfg cv off fuel (Some true) i = (Raise InterfaceNotStarted, i) /\
  (forall arg_0005 arg_0075,
      justification cfg cv off fuel true arg_0005 arg_0075 i
      = (Raise InterfaceNotStarted, i)) /\
  (pump (st i) = true -> (1 <= fuel)%nat ->
   exists i',
     pump_control cfg cv off fuel (Some false) i = (Raise InterfaceNotStarted, i') /\
     st i' = st i /\ sent i' = sent i /\
     led (error_led_gpio cfg) i' = true).
Proof.
  intros Hw. split; [|split; [|split]].
  - intros sigs timeout. apply send_signals_not_started, Hw.
  - unfold pump_control, pump_start. cbv zeta. unfold bind at 1 2.
    unfold gets at 1. rewrite send_signals_not_started by exact Hw.
    reflexivity.
  - intros a5 a75. unfold justification. cbv zeta.
    unfold bind at 1. unfold gets at 1. unfold bind at 1. unfold gets at 1.
    unfold bind at 1. unfold gets at 1.
    destruct (pump (st i)); unfold bind at 1;
      rewrite send_signals_not_started by exact Hw; reflexivity.
  - intros Hp Hfuel. destruct fuel as [|n]; [lia|].
    unfold pump_control, pump_stop. cbv zeta.
    rewrite bind_bind, bind_gets, Hp. simpl negb. cbv iota.
    unfold get_state. rewrite bind_bind, bind_gets.
    destruct (default false (outputs (hw i) !! working_led_gpio cfg)).
    + unfold turn_off at 1. rewrite bind_bind, bind_modify.
      unfold turn_on at 1. rewrite bind_bind, bind_modify.
      rewrite bind_bind, bind_gets, bind_bind.
      unfold bind at 1.
      rewrite pump_stop_loop_not_started by (first [exact Hw | exact Hp]).
      eexists. split; [reflexivity|].
      unfold led. simpl. rewrite lookup_insert_eq. auto.
    + rewrite bind_bind, bind_ret.
      unfold turn_on at 1. rewrite bind_bind, bind_modify.
      rewrite bind_bind, bind_gets, bind_bind.
      unfold bind at 1.
      rewrite pump_stop_loop_not_started by (first [exact Hw | exact Hp]).
      eexists. split; [reflexivity|].
      unfold led. simpl. rewrite lookup_insert_eq. auto.
Qed.

Lemma not_started_refused_witness :
  send_signals casting_config row16_unused casting_api 100 ["G"] None (init [])
  = (Raise InterfaceNotStarted, init []).
Proof.
  apply (not_started_refused casting_config row16_unused casting_api 100
           (init [])).
  reflexivity.
Defined.

(** X15: a [justification] that returns normally sent nothing when no
    galley trip is asked and both wedges keep their positions (a missing
    or zero position means the current one), and otherwise sent exactly
    two combinations: for a galley trip the double combination N K J S
    0075 0005 with the position of the wedge that is set first, then the
    single combination of the other wedge; without galley trip the two
    single combinations.  The 0075 combination comes last when the pump
    is on and first when it is off.  No output line changed. *)
Theorem justification_sends cfg cv off fuel galley_trip arg_0005 arg_0075
    (i : interface) u i' :
  justification cfg cv off fuel galley_trip arg_0005 arg_0075 i = (Return u, i') ->
  let new_0005 := or_Z arg_0005 (wedge_0005 (st i)) in
  let new_0075 := or_Z arg_0075 (wedge_0075 (st i)) in
  let double code :=
    ((chars "NKJS" ++ ["0075"; "0005"; str code])%list, @None Q) in
  let single_0005 := ((chars "NJS" ++ ["0005"; str new_0005])%list, @None Q) in
  let single_0075 := ((chars "NKS" ++ ["0075"; str new_0075])%list, @None Q) in
  outputs (hw i') = outputs (hw i) /\
  sent i' =
  (sent i ++
   (if galley_trip
    then if pump (st i)
         then [double new_0005; single_0075]
         else [double new_0075; single_0005]
    else if (new_0005 =? wedge_0005 (st i)) && (new_0075 =? wedge_0075 (st i))
         then []
         else if pump (st i)
              then [single_0005; single_0075]
              else [single_0075; single_0005]))%list.
Proof.
  intros H. cbv zeta. unfold justification in H. cbv zeta in H.
  apply bind_Return in H as (pw & i0 & [= <- <-] & H).
  apply bind_Return in H as (c5 & i0 & [= <- <-] & H).
  apply bind_Return in H as (c75 & i0 & [= <- <-] & H).
  assert (Htwo : forall a b (j : interface) (v : unit) j',
             (send_signals cfg cv off fuel a None >>
              send_signals cfg cv off fuel b None) j = (Return v, j') ->
             outputs (hw j') = outputs (hw j) /\
             sent j' = (sent j ++ [(a, None); (b, None)])%list).
  { intros a b j v j' Hab.
    apply bind_Return in Hab as ([] & j1 & H1 & H2).
    apply send_signals_Return in H1 as [Ho1 Hs1].
    apply send_signals_Return in H2 as [Ho2 Hs2].
    split; [congruence|]. rewrite Hs2, Hs1, <- app_assoc. reflexivity. }
  destruct galley_trip.
  - destruct (pump (st i)); apply Htwo in H; exact H.
  - destruct ((or_Z arg_0005 (wedge_0005 (st i)) =? wedge_0005 (st i)) &&
              (or_Z arg_0075 (wedge_0075 (st i)) =? wedge_0075 (st i))).
    + injection H as _ <-. rewrite app_nil_r. auto.
    + destruct (pump (st i)); apply Htwo in H; exact H.
Qed.

(** A galley trip on a started punching interface with the pump off:
    the double combination carries the new 0075 position, the 0005
    combination follows. *)
Lemma justification_sends_witness :
  let off := machine_off punching_config row16_unused 10 in
  let run := justification punching_config row16_unused off 10
               true (Some 4) (Some 12) punching_started in
  fst run = Return tt /\
  sent (snd run) =
  [(["N"; "K"; "J"; "S"; "0075"; "0005"; "12"], None);
   (["N"; "J"; "S"; "0005"; "4"], None)].
Proof.
  intros off run. split; [vm_compute; reflexivity|].
  destruct (justification_sends punching_config row16_unused off 10
              true (Some 4) (Some 12) punching_started tt (snd run))
    as [_ Hsent].
  - vm_compute. reflexivity.
  - rewrite Hsent. vm_compute. reflexivity.
Defined.

(** X16: a [pump_control(on)] that returns normally sent exactly the
    combination N K S 0075 with the current position of the 0075 wedge,
    changed no output line, and returns the pump flag as stored. *)
Theorem pump_control_on_sends cfg cv off fuel (i : interface) r i' :
  pump_control cfg cv off fuel (Some true) i = (Return r, i') ->
  r = pump (st i') /\
  outputs (hw i') = outputs (hw i) /\
  sent i' = (sent i ++ [(["N"; "K"; "S"; "0075"; str (wedge_0075 (st i))],
                         None)])%list.
Proof.
  intros H. unfold pump_control, pump_start in H. cbv zeta in H.
  apply bind_Return in H as ([] & i1 & H & [= <- <-]).
  apply bind_Return in H as (w & i0 & [= <- <-] & H).
  apply send_signals_Return in H as [Ho Hs]. auto.
Qed.

Lemma pump_control_on_sends_witness :
  let run := pump_control punching_config row16_unused
               (machine_off punching_config row16_unused 10) 10 (Some true)
               punching_started in
  sent (snd run)
  = (sent punching_started ++
     [(["N"; "K"; "S"; "0075"; str (wedge_0075 (st punching_started))],
       None)])%list.
Proof.
  intros run.
  apply (pump_control_on_sends punching_config row16_unused
           (machine_off punching_config row16_unused 10) 10
           punching_started false (snd run)).
  vm_compute. exact eq_refl.
Defined.

(** ** The order of the driver calls in a cycle *)

Lemma callback_trace t e (i : interface) :
  trace (hw (callback t e i)) = trace (hw i).
Proof. destruct e as [[|]|]; reflexivity. Qed.

Lemma time_sleep_trace seconds (i : interface) :
  Qle_bool 0 seconds = true ->
  trace (hw (snd (time_sleep seconds i))) = (trace (hw i) ++ [Sleep seconds])%list.
Proof.
  intros Hs. rewrite time_sleep_nonneg by exact Hs. unfold asleep. simpl.
  match goal with |- trace (hw (fold_left _ ?due ?j)) = _ =>
    change (trace (hw (fold_left (fun i te => callback (fst te) (snd te) i)
                         due j)) = trace (hw j));
    generalize j; generalize due
  end.
  intros due. induction due as [|[t e] due IH]; intros j; simpl; auto.
  rewrite IH. apply callback_trace.
Qed.

Lemma time_sleep_calls seconds (i : interface) :
  same calls i (snd (time_sleep seconds i)).
Proof.
  destruct (Qle_bool 0 seconds) eqn:Hs;
    [|rewrite time_sleep_negative by exact Hs; reflexivity].
  unfold same, calls, driver_calls.
  rewrite time_sleep_trace, List.filter_app by exact Hs.
  simpl. apply app_nil_r.
Qed.

Lemma time_sleep_respects_calls seconds : respects (same calls) (time_sleep seconds).
Proof.
  intros i a i' H. pose proof (time_sleep_calls seconds i) as Hc.
  rewrite H in Hc. exact Hc.
Qed.

Lemma wait_loop_calls n new_state timeout start_time (i : interface) :
  same calls i (snd (wait_loop n new_state timeout start_time i)).
Proof.
  revert i. induction n as [|n IH]; intros i; simpl;
    destruct (eqb _ _); try reflexivity; destruct (negb _); try reflexivity.
  unfold bind. pose proof (time_sleep_calls (1 # 100) i) as Hs.
  destruct (time_sleep (1 # 100) i) as [[u| |] i1] eqn:E; simpl in *; auto.
  eapply same_trans; [exact Hs | apply IH].
Qed.

Lemma wait_for_sensor_calls cfg off fuel new_state timeout :
  respects (same calls) (wait_for_sensor cfg off fuel new_state timeout).
Proof.
  unfold wait_for_sensor. apply respects_handle_machine_stop.
  intros i u i' H. apply bind_Return in H as (t0 & i0 & [= <- <-] & H).
  pose proof (wait_loop_calls fuel new_state
                (or_Q timeout (sensor_timeout cfg)) (clock (hw i)) i) as Hc.
  rewrite H in Hc. exact Hc.
Qed.

Lemma valves_control_calls cfg off state (i : interface) sigs i' :
  valves_control cfg off state i = (Return sigs, i') ->
  calls i' = (calls i ++ match state with
                         | Signals codes => [valves_event codes]
                         | ValvesFalse => [ValvesOff]
                         | ValvesNone => []
                         end)%list.
Proof.
  intros H. apply handle_machine_stop_Return in H as (_ & H & _).
  apply bind_Return in H as ([] & i1 & H & [= _ <-]).
  unfold calls, driver_calls. destruct state as [codes| |].
  - unfold valves_event. destruct (bool_decide (codes = ∅)).
    + injection H as <-. simpl. rewrite List.filter_app. reflexivity.
    + apply bind_Return in H as ([] & i2 & [= <-] & H).
      apply bind_Return in H as ([] & i3 & [= <-] & H).
      injection H as <-. simpl.
      destruct (update_pump_and_wedges_frame
                  (with_hw (fun h => set_trace (trace h ++ [ValvesOn codes])%list h)
                     i)) as [Hhw _].
      rewrite Hhw. simpl. rewrite List.filter_app. reflexivity.
  - injection H as <-. simpl. rewrite List.filter_app. reflexivity.
  - injection H as <-. rewrite app_nil_r. reflexivity.
Qed.

Lemma dict_get_pure {V} (d : list (option string * V)) key :
  exists r, forall i, dict_get d key i = (r, i).
Proof.
  induction d as [|[k v] d IH]; simpl.
  - eexists. intros i. reflexivity.
  - destruct (bool_decide (k = key)); [|exact IH].
    eexists. intros i. reflexivity.
Qed.

(** [prepare_signals] reads the two modes and nothing else. *)
Lemma prepare_signals_pure cfg cv input (mode16 mode : option string) :
  exists r, forall i : interface,
      row16_mode cfg i = mode16 -> operation_mode cfg i = mode ->
      prepare_signals cfg cv input i = (r, i).
Proof.
  destruct (dict_get_pure
              [(None, strip_16); (Some "unit shift", convert_unitshift cv);
               (Some "HMN", convert_hmn cv); (Some "KMN", convert_kmn cv)]
              mode16) as [r1 H1].
  destruct (dict_get_pure
              [(Some "casting", strip_o15); (Some "punching", add_missing_o15);
               (None, convert_o15)] mode) as [r2 H2].
  exists (match r1 with
          | Return converter =>
              match r2 with
              | Return o15 => Return (o15 (converter input))
              | Raise e => Raise e
              | Exhausted => Exhausted
              end
          | Raise e => Raise e
          | Exhausted => Exhausted
          end).
  intros i E16 Eop. unfold prepare_signals. cbv zeta.
  rewrite bind_gets, E16. unfold bind at 1. rewrite H1.
  destruct r1 as [converter| |]; try reflexivity.
  rewrite bind_gets, Eop. unfold bind at 1. rewrite H2.
  destruct r2; reflexivity.
Qed.

Lemma prepare_signals_modes cfg cv input (i j : interface) :
  row16_mode cfg i = row16_mode cfg j ->
  operation_mode cfg i = operation_mode cfg j ->
  prepare_signals cfg cv input i
  = (fst (prepare_signals cfg cv input j), i).
Proof.
  intros H16 Hop.
  destruct (prepare_signals_pure cfg cv input (row16_mode cfg j)
              (operation_mode cfg j)) as [r Hr].
  rewrite (Hr i H16 Hop), (Hr j eq_refl eq_refl). reflexivity.
Qed.

Lemma operation_mode_setter_pins cfg (m : option string) (i : interface) u i' :
  m <> Some "reset" ->
  operation_mode cfg i = m ->
  operation_mode_setter cfg m i = (Return u, i') ->
  calls i' = calls i /\ row16_mode cfg i' = row16_mode cfg i /\
  operation_mode cfg i' = operation_mode cfg i.
Proof.
  intros Hreset Hm H. unfold operation_mode_setter in H.
  rewrite bool_decide_eq_false_2 in H by exact Hreset.
  destruct m as [m|].
  - destruct (inb m (supported_modes cfg)); [|discriminate].
    injection H as _ <-. split; [reflexivity|]. split; [reflexivity|].
    symmetry. exact Hm.
  - injection H as _ <-. split; [reflexivity|]. split; [reflexivity|].
    symmetry. exact Hm.
Qed.

Section Cycles.

Variable cfg : config.
Variable cv : converters.
Variable off : M bool.
Variable fuel : nat.

Lemma prepared_codes input (i j : interface) codes j' :
  row16_mode cfg j = row16_mode cfg i ->
  operation_mode cfg j = operation_mode cfg i ->
  prepare_signals cfg cv input j = (Return codes, j') ->
  fst (prepare_signals cfg cv input i) = Return codes /\ j' = j.
Proof.
  intros H16 Hop H. rewrite (prepare_signals_modes cfg cv input j i H16 Hop) in H.
  injection H as H <-. auto.
Qed.

Lemma cast_calls input timeout (i : interface) u i' :
  operation_mode cfg i = Some "casting" ->
  cast cfg cv off fuel input timeout i = (Return u, i') ->
  exists codes,
    fst (prepare_signals cfg cv input i) = Return codes /\
    calls i' = (calls i ++ [valves_event codes; ValvesOff])%list.
Proof.
  intros Hmode H. unfold cast in H.
  apply bind_Return in H as (u0 & i1 & Hset & H).
  apply operation_mode_setter_pins in Hset as (Hc1 & H16 & Hop);
    [|discriminate|exact Hmode].
  apply bind_Return in H as (codes & i2 & Hprep & H).
  apply (prepared_codes input i) in Hprep as [Hcodes ->]; [|exact H16|exact Hop].
  cbv zeta in H.
  apply bind_Return in H as ([] & i3 & Hw1 & H).
  apply wait_for_sensor_calls in Hw1.
  apply bind_Return in H as (s1 & i4 & Hv1 & H).
  apply valves_control_calls in Hv1.
  apply bind_Return in H as ([] & i5 & Hw2 & H).
  apply wait_for_sensor_calls in Hw2.
  apply bind_Return in H as (s2 & i6 & Hv2 & H).
  apply valves_control_calls in Hv2.
  injection H as _ <-.
  exists codes. split; [exact Hcodes|].
  unfold same in Hw1, Hw2. rewrite Hv2, Hw2, Hv1, Hw1, Hc1, <- app_assoc.
  reflexivity.
Qed.

Lemma punch_calls input (i : interface) u i' :
  operation_mode cfg i = Some "punching" ->
  punch cfg cv off input i = (Return u, i') ->
  exists codes,
    fst (prepare_signals cfg cv input i) = Return codes /\
    calls i' = (calls i ++ [valves_event codes; ValvesOff])%list.
Proof.
  intros Hmode H. unfold punch in H.
  apply bind_Return in H as (u0 & i1 & Hset & H).
  apply operation_mode_setter_pins in Hset as (Hc1 & H16 & Hop);
    [|discriminate|exact Hmode].
  apply bind_Return in H as (codes & i2 & Hprep & H).
  apply (prepared_codes input i) in Hprep as [Hcodes ->]; [|exact H16|exact Hop].
  apply bind_Return in H as (s1 & i3 & Hv1 & H).
  apply valves_control_calls in Hv1.
  apply bind_Return in H as ([] & i4 & Hs1 & H).
  apply time_sleep_respects_calls in Hs1.
  apply bind_Return in H as (s2 & i5 & Hv2 & H).
  apply valves_control_calls in Hv2.
  apply time_sleep_respects_calls in H.
  exists codes. split; [exact Hcodes|].
  unfold same in Hs1, H. rewrite H, Hv2, Hs1, Hv1, Hc1, <- app_assoc.
  reflexivity.
Qed.

Lemma test_calls input (i : interface) u i' :
  operation_mode cfg i = None ->
  test cfg cv off input i = (Return u, i') ->
  exists codes,
    fst (prepare_signals cfg cv input i) = Return codes /\
    calls i' = (calls i ++ [ValvesOff; valves_event codes])%list.
Proof.
  intros Hmode H. unfold test in H.
  apply bind_Return in H as (u0 & i1 & Hset & H).
  apply operation_mode_setter_pins in Hset as (Hc1 & H16 & Hop);
    [|discriminate|exact Hmode].
  apply bind_Return in H as (codes & i2 & Hprep & H).
  apply (prepared_codes input i) in Hprep as [Hcodes ->]; [|exact H16|exact Hop].
  apply bind_Return in H as (s1 & i3 & Hv1 & H).
  apply valves_control_calls in Hv1.
  apply bind_Return in H as (s2 & i4 & Hv2 & H).
  apply valves_control_calls in Hv2.
  injection H as _ <-.
  exists codes. split; [exact Hcodes|].
  rewrite Hv2, Hv1, Hc1, <- app_assoc. reflexivity.
Qed.

End Cycles.

(** X17: the driver calls of one cycle.  A [send_signals] that returns
    normally made exactly two calls on the output driver, for the set
    [prepare_signals] computes from the input: while casting or punching,
    first that set and then valves off, so the valves are released when
    it returns; while testing, first valves off and then that set, so the
    previous combination goes down before the new one comes up.  An empty
    prepared set counts as valves off. *)
Theorem send_signals_driver_calls cfg cv off fuel sigs timeout
    (i : interface) u i' :
  send_signals cfg cv off fuel sigs timeout i = (Return u, i') ->
  exists codes,
    fst (prepare_signals cfg cv sigs i) = Return codes /\
    calls i' =
    (calls i ++ match operation_mode cfg i with
                | Some _ => [valves_event codes; ValvesOff]
                | None => [ValvesOff; valves_event codes]
                end)%list.
Proof.
  intros H. unfold send_signals in H.
  apply bind_Return in H as (started & i0 & [= <- <-] & H).
  destruct (negb (working (st i))); [discriminate|].
  apply bind_Return in H as (mode & i0 & [= <- <-] & H).
  apply bind_Return in H as (action & i1 & Hget & H).
  pose proof (dict_get_Return _ _ _ _ _ Hget) as [-> _].
  apply bind_Return in H as ([] & i2 & [= <-] & H).
  assert (Hback : forall (calls' : gset string -> list event),
             (exists codes,
                 fst (prepare_signals cfg cv sigs
                        (set_sent (sent i ++ [(sigs, timeout)])%list i))
                 = Return codes /\
                 calls i' = (calls i ++ calls' codes)%list) ->
             exists codes,
               fst (prepare_signals cfg cv sigs i) = Return codes /\
               calls i' = (calls i ++ calls' codes)%list).
  { intros calls' (codes & Hc & Hcalls). exists codes. split; [|exact Hcalls].
    rewrite (prepare_signals_modes cfg cv sigs
               (set_sent (sent i ++ [(sigs, timeout)])%list i) i
               eq_refl eq_refl) in Hc.
    exact Hc. }
  destruct (operation_mode cfg i) as [m|] eqn:Hmode.
  - destruct (decide (m = "casting")) as [->|Hc].
    + rewrite dict_get_head in Hget. injection Hget as <-.
      apply cast_calls in H; [|exact Hmode].
      apply (Hback (fun codes => [valves_event codes; ValvesOff])), H.
    + rewrite dict_get_skip in Hget by congruence.
      destruct (decide (m = "punching")) as [->|Hp].
      * rewrite dict_get_head in Hget. injection Hget as <-.
        apply punch_calls in H; [|exact Hmode].
        apply (Hback (fun codes => [valves_event codes; ValvesOff])), H.
      * rewrite !dict_get_skip in Hget by congruence. discriminate Hget.
  - rewrite !dict_get_skip, dict_get_head in Hget by discriminate.
    injection Hget as <-.
    apply test_calls in H; [|exact Hmode].
    apply (Hback (fun codes => [ValvesOff; valves_event codes])), H.
Qed.

Lemma send_signals_driver_calls_witness :
  let run := send_signals punching_config row16_unused
               (machine_off punching_config row16_unused 10) 10 ["A"; "B"] None
               punching_started in
  exists codes,
    fst (prepare_signals punching_config row16_unused ["A"; "B"]
           punching_started) = Return codes /\
    calls (snd run) =
    (calls punching_started ++
     match operation_mode punching_config punching_started with
     | Some _ => [valves_event codes; ValvesOff]
     | None => [ValvesOff; valves_event codes]
     end)%list.
Proof.
  intros run.
  apply (send_signals_driver_calls punching_config row16_unused
           (machine_off punching_config row16_unused 10) 10 ["A"; "B"] None
           punching_started tt).
  vm_compute. exact eq_refl.
Defined.

(** ** Starting the machine *)

Lemma quiet_fields (i i' : interface) :
  quiet i i' ->
  wedge_0005 (st i') = wedge_0005 (st i) /\ wedge_0075 (st i') = wedge_0075 (st i) /\
  working (st i') = working (st i) /\ water (st i') = water (st i) /\
  air (st i') = air (st i) /\ motor (st i') = motor (st i) /\
  pump (st i') = pump (st i) /\ signals i' = signals i /\
  _operation_mode i' = _operation_mode i /\ _row16_mode i' = _row16_mode i /\
  outputs (hw i') = outputs (hw i) /\ sent i' = sent i.
Proof.
  unfold quiet, same, control. intros H. injection H. intros. repeat split; assumption.
Qed.

Lemma check_rotation_quiet cfg off fuel n :
  respects quiet (check_rotation cfg off fuel n).
Proof.
  unfold check_rotation. apply respects_for_range.
  - apply same_refl.
  - apply same_trans.
  - apply same_bind; [|intros _]; apply wait_for_sensor_quiet.
Qed.

Lemma air_on_Return cfg off (i : interface) r i' :
  air_control cfg off (Some true) i = (Return r, i') ->
  i' = with_st (set_air true)
         (with_hw (fun h => set_outputs (<[air_gpio cfg := true]> (outputs h)) h) i).
Proof.
  intros H. apply handle_machine_stop_Return in H as (_ & H & _).
  unfold turn_on in H.
  apply bind_Return in H as ([] & i1 & [= <-] & H).
  apply bind_Return in H as ([] & i2 & [= <-] & H).
  injection H as _ <-. reflexivity.
Qed.

Lemma water_on_Return cfg off (i : interface) r i' :
  water_control cfg off (Some true) i = (Return r, i') ->
  i' = with_st (set_water true)
         (with_hw (fun h => set_outputs (<[water_gpio cfg := true]> (outputs h)) h) i).
Proof.
  intros H. apply handle_machine_stop_Return in H as (_ & H & _).
  unfold turn_on in H.
  apply bind_Return in H as ([] & i1 & [= <-] & H).
  apply bind_Return in H as ([] & i2 & [= <-] & H).
  injection H as _ <-. reflexivity.
Qed.

Lemma motor_on_Return cfg off (i : interface) r i' :
  motor_control cfg off (Some true) i = (Return r, i') ->
  motor (st i') = true /\
  working (st i') = working (st i) /\ water (st i') = water (st i) /\
  air (st i') = air (st i) /\ pump (st i') = pump (st i) /\
  signals i' = signals i /\ sent i' = sent i.
Proof.
  intros H. apply handle_machine_stop_Return in H as (_ & H & _).
  unfold turn_on, turn_off in H.
  apply bind_Return in H as ([] & i1 & [= <-] & H).
  apply bind_Return in H as ([] & i2 & Hsleep & H).
  apply bind_Return in H as ([] & i3 & [= <-] & H).
  apply bind_Return in H as ([] & i4 & [= <-] & H).
  injection H as _ <-.
  apply time_sleep_respects_quiet, quiet_fields in Hsleep.
  simpl in Hsleep. simpl. tauto.
Qed.

(** X18: a [machine_control(on)] that returns normally found the
    interface not working and leaves it working, with the air on and the
    working LED lit; pump flag, stored signals and the record of sent
    combinations are as before.  In casting mode water and motor are on
    as well; in the other modes water, motor and the clock are
    untouched. *)
Theorem machine_control_on_spec cfg cv fuel (i : interface) r i' :
  machine_control cfg cv fuel (Some true) i = (Return r, i') ->
  working (st i) = false /\ r = true /\
  working (st i') = true /\ air (st i') = true /\
  led (working_led_gpio cfg) i' = true /\
  pump (st i') = pump (st i) /\ signals i' = signals i /\ sent i' = sent i /\
  (operation_mode cfg i = Some "casting" ->
   water (st i') = true /\ motor (st i') = true) /\
  (operation_mode cfg i <> Some "casting" ->
   water (st i') = water (st i) /\ motor (st i') = motor (st i) /\
   clock (hw i') = clock (hw i)).
Proof.
  intros H. unfold machine_control, machine_control_with in H.
  apply bind_Return in H as ([] & i1 & Hstart & [= <- <-]).
  unfold start in Hstart.
  apply bind_Return in Hstart as (busy & i0 & [= <- <-] & H).
  destruct (working (st i)) eqn:Hw; [discriminate|].
  apply bind_Return in H as ([] & i2 & [= <-] & H).
  apply bind_Return in H as (b & i3 & Hair & H).
  apply air_on_Return in Hair. subst i3.
  apply bind_Return in H as (mode & i0 & [= <- <-] & H).
  apply bind_Return in H as ([] & i4 & Hcast & H).
  unfold turn_on in H.
  apply bind_Return in H as ([] & i5 & [= <-] & H).
  injection H as <-.
  change (operation_mode cfg
            (with_st (set_air true)
               (with_hw (fun h => set_outputs (<[air_gpio cfg:=true]> (outputs h)) h)
                  (set_meter_events [] i))))
    with (operation_mode cfg i) in Hcast.
  unfold led. simpl. rewrite lookup_insert_eq.
  destruct (bool_decide (operation_mode cfg i = Some "casting")) eqn:Hmode.
  - apply bool_decide_eq_true_1 in Hmode.
    apply bind_Return in Hcast as (b1 & j1 & Hwater & Hcast).
    apply water_on_Return in Hwater. subst j1.
    apply bind_Return in Hcast as (b2 & j2 & Hmotor & Hrot).
    apply motor_on_Return in Hmotor.
    simpl in Hmotor. destruct Hmotor as (Hm & Hwk & Hwa & Hai & Hpu & Hsg & Hsn).
    apply check_rotation_quiet, quiet_fields in Hrot.
    destruct Hrot as (_ & _ & _ & Rwa & Rai & Rmo & Rpu & Rsg & _ & _ & _ & Rsn).
    repeat split; congruence.
  - apply bool_decide_eq_false_1 in Hmode. injection Hcast as <-.
    simpl. repeat split; try reflexivity; congruence.
Qed.

Lemma machine_control_on_spec_witness :
  working (st (init [])) = false /\
  working (st (perform punching_config row16_unused 10 (MachineControl (Some true))
                 (init []))) = true.
Proof.
  destruct (machine_control_on_spec punching_config row16_unused 10 (init [])
              true
              (perform punching_config row16_unused 10
                 (MachineControl (Some true)) (init [])))
    as (H0 & _ & H1 & _).
  - vm_compute. exact eq_refl.
  - auto.
Defined.

(** ** After machine-stopped the interface is released *)

Section Stops.

Variable Q : interface -> Prop.

Lemma stops_ret {A} (a : A) : stops Q (ret a).
Proof. intros i i'. discriminate. Qed.

Lemma stops_raise {A} e : e <> MachineStopped -> stops Q (raise (A := A) e).
Proof. intros He i i' [= -> _]. contradiction. Qed.

Lemma stops_exhausted {A} : stops Q (exhausted (A := A)).
Proof. intros i i'. discriminate. Qed.

Lemma stops_gets {A} (f : interface -> A) : stops Q (gets f).
Proof. intros i i'. discriminate. Qed.

Lemma stops_modify f : stops Q (modify f).
Proof. intros i i'. discriminate. Qed.

Lemma stops_time_sleep seconds : stops Q (time_sleep seconds).
Proof.
  intros i i'. unfold time_sleep. destruct (Qle_bool 0 seconds); discriminate.
Qed.

Lemma stops_bind {A B} (m : M A) (k : A -> M B) :
  stops Q m -> (forall a, stops Q (k a)) -> stops Q (bind m k).
Proof.
  intros Hm Hk i i' H. unfold bind in H.
  destruct (m i) as [[a|e|] i1] eqn:E.
  - eapply Hk. exact H.
  - injection H as -> <-. eapply Hm. exact E.
  - discriminate.
Qed.

Lemma stops_dict_get {V} (d : list (option string * V)) key :
  stops Q (dict_get d key).
Proof.
  induction d as [|[k v] d IH]; simpl.
  - apply stops_raise. discriminate.
  - destruct (bool_decide (k = key)); [apply stops_ret | exact IH].
Qed.

Lemma stops_dict_get_bind {V B} (d : list (option string * V)) key
      (k : V -> M B) :
  (forall v, In v (map snd d) -> stops Q (k v)) ->
  stops Q (bind (dict_get d key) k).
Proof.
  induction d as [|[k0 v0] d IH]; intros Hk.
  - intros i i'. discriminate.
  - simpl dict_get. destruct (bool_decide (k0 = key)).
    + intros i i' H. eapply (Hk v0); [left; reflexivity | exact H].
    + apply IH. intros v Hv. apply Hk. right. exact Hv.
Qed.

Lemma stops_for_range n (body : M unit) :
  stops Q body -> stops Q (for_range n body).
Proof.
  intros Hb. induction n; simpl.
  - apply stops_ret.
  - apply stops_bind; auto.
Qed.

(** Whatever the routine is, machine-stopped leaves the wrapper only
    through [machine_control(off)]. *)
Lemma stops_handle_machine_stop {A} off (routine : M A) :
  settles Q off -> stops Q (handle_machine_stop off routine).
Proof.
  intros Hoff i i' H. unfold handle_machine_stop in H.
  destruct ((check_emergency_stop >>
             (let* retval := routine in check_emergency_stop >> ret retval)) i)
    as [[a|e|] i1]; try discriminate.
  destruct e; try discriminate;
    unfold bind in H; destruct (off i1) as [[b|e|] i2] eqn:E;
    try discriminate.
  - injection H as <-. apply (Hoff i1 i2). left. eauto.
  - injection H as -> <-. apply (Hoff i1 i2). right. exact E.
  - injection H as <-. apply (Hoff i1 i2). left. eauto.
  - injection H as -> <-. apply (Hoff i1 i2). right. exact E.
Qed.

End Stops.

Ltac stops_step :=
  lazymatch goal with
  | |- stops _ (let _ := _ in _) => cbv zeta
  | |- stops _ (if ?b then _ else _) => destruct b
  | |- stops _ (match ?x with _ => _ end) => destruct x
  | |- stops _ (bind (dict_get _ _) _) =>
      apply stops_dict_get_bind; intros ? ?
  | |- stops _ (bind _ _) => apply stops_bind; [|intros ?]
  | |- stops _ (ret _) => apply stops_ret
  | |- stops _ (raise _) => apply stops_raise; discriminate
  | |- stops _ exhausted => apply stops_exhausted
  | |- stops _ (gets _) => apply stops_gets
  | |- stops _ (modify _) => apply stops_modify
  | |- stops _ (dict_get _ _) => apply stops_dict_get
  | |- stops _ (time_sleep _) => apply stops_time_sleep
  | |- stops _ (handle_machine_stop _ _) =>
      apply stops_handle_machine_stop; assumption
  end.

Section StopsInterface.

Variable Q : interface -> Prop.
Variable cfg : config.
Variable cv : converters.
Variable off : M bool.
Variable fuel : nat.
Hypothesis off_settles : settles Q off.

Lemma stops_operation_mode_setter mode : stops Q (operation_mode_setter cfg mode).
Proof. unfold operation_mode_setter. repeat stops_step. Qed.

Lemma stops_row16_mode_setter mode : stops Q (row16_mode_setter cfg mode).
Proof. unfold row16_mode_setter. repeat stops_step. Qed.

Lemma stops_prepare_signals input : stops Q (prepare_signals cfg cv input).
Proof. unfold prepare_signals. repeat stops_step. Qed.

Lemma stops_wait_for_sensor new_state timeout :
  stops Q (wait_for_sensor cfg off fuel new_state timeout).
Proof. unfold wait_for_sensor. stops_step. Qed.

Lemma stops_valves_control state : stops Q (valves_control cfg off state).
Proof. unfold valves_control. stops_step. Qed.

Lemma stops_motor_control state : stops Q (motor_control cfg off state).
Proof. unfold motor_control. stops_step. Qed.

Lemma stops_air_control state : stops Q (air_control cfg off state).
Proof. unfold air_control. stops_step. Qed.

Lemma stops_water_control state : stops Q (water_control cfg off state).
Proof. unfold water_control. stops_step. Qed.

Lemma stops_check_rotation n : stops Q (check_rotation cfg off fuel n).
Proof.
  unfold check_rotation. apply stops_for_range.
  apply stops_bind; [|intros _]; apply stops_wait_for_sensor.
Qed.

Ltac stops_call :=
  lazymatch goal with
  | |- stops _ (operation_mode_setter _ _) => apply stops_operation_mode_setter
  | |- stops _ (prepare_signals _ _ _) => apply stops_prepare_signals
  | |- stops _ (wait_for_sensor _ _ _ _ _) => apply stops_wait_for_sensor
  | |- stops _ (valves_control _ _ _) => apply stops_valves_control
  | |- stops _ (motor_control _ _ _) => apply stops_motor_control
  | |- stops _ (air_control _ _ _) => apply stops_air_control
  | |- stops _ (water_control _ _ _) => apply stops_water_control
  | |- stops _ (check_rotation _ _ _ _) => apply stops_check_rotation
  | |- _ => stops_step
  end.

Lemma stops_send_signals sigs timeout :
  stops Q (send_signals cfg cv off fuel sigs timeout).
Proof.
  unfold send_signals.
  apply stops_bind; [apply stops_gets|intros started].
  destruct (negb started); [apply stops_raise; discriminate|].
  apply stops_bind; [apply stops_gets|intros mode].
  apply stops_dict_get_bind. intros action Haction.
  apply stops_bind; [apply stops_modify|intros _].
  simpl in Haction. destruct Haction as [<-|[<-|[<-|[]]]].
  - unfold cast. repeat stops_call.
  - unfold punch. repeat stops_call.
  - unfold test. repeat stops_call.
Qed.

Lemma stops_pump_stop_loop n code timeout :
  stops Q (pump_stop_loop cfg cv off fuel n code timeout).
Proof.
  induction n as [|n IH]; intros i i'; cbn [pump_stop_loop];
    destruct (pump (st i)); try discriminate.
  revert i i'.
  change (stops Q (send_signals cfg cv off fuel code (Some timeout) >>
                   send_signals cfg cv off fuel code (Some timeout) >>
                   pump_stop_loop cfg cv off fuel n code timeout)).
  repeat (apply stops_bind; [apply stops_send_signals|intros _]).
  exact IH.
Qed.

Lemma stops_pump_control state : stops Q (pump_control cfg cv off fuel state).
Proof.
  unfold pump_control, pump_start, pump_stop, get_state, turn_on, turn_off.
  repeat lazymatch goal with
         | |- stops _ (send_signals _ _ _ _ _ _) => apply stops_send_signals
         | |- stops _ (pump_stop_loop _ _ _ _ _ _ _) => apply stops_pump_stop_loop
         | |- _ => stops_step
         end.
Qed.

Lemma stops_justification galley_trip arg_0005 arg_0075 :
  stops Q (justification cfg cv off fuel galley_trip arg_0005 arg_0075).
Proof.
  unfold justification.
  repeat lazymatch goal with
         | |- stops _ (send_signals _ _ _ _ _ _) => apply stops_send_signals
         | |- _ => stops_step
         end.
Qed.

Lemma stops_machine_control_with state :
  stops Q (machine_control_with cfg cv off fuel state).
Proof.
  unfold machine_control_with, start, stop, turn_on, turn_off.
  repeat lazymatch goal with
         | |- stops _ (pump_control _ _ _ _ _) => apply stops_pump_control
         | |- _ => stops_call
         end.
Qed.

End StopsInterface.

Lemma machine_off_settles cfg cv fuel :
  settles (fun i => working (st i) = false) (machine_off cfg cv fuel).
Proof.
  induction fuel as [|n IH]; intros i i' H.
  - destruct H as [[b H]|H]; discriminate H.
  - cbn [machine_off] in H. destruct H as [[b H]|H].
    + unfold machine_control_with in H.
      apply bind_Return in H as ([] & i1 & Hstop & [= _ <-]).
      destruct (working (st i)) eqn:Hw.
      * apply stop_working_Return in Hstop; [tauto | exact Hw].
      * unfold stop in Hstop. rewrite bind_gets, Hw in Hstop.
        injection Hstop as <-. exact Hw.
    + eapply (stops_machine_control_with _ cfg cv _ n IH). exact H.
Qed.

(** X19: whichever call raises machine-stopped -- an emergency stop edge
    seen by the wrapper, or a sensor timeout -- the interface is not
    working afterwards: [machine_control(off)] has run to its end before
    the exception reached the caller. *)
Theorem machine_stopped_releases cfg cv fuel (c : call) (i i' : interface) :
  attempt cfg cv fuel c i = (Raise MachineStopped, i') ->
  working (st i') = false /\ i' = perform cfg cv fuel c i.
Proof.
  intros H.
  pose proof (machine_off_settles cfg cv fuel) as Hoff.
  split.
  - revert i i' H.
    change (stops (fun i => working (st i) = false) (attempt cfg cv fuel c)).
    destruct c as [s|s|s|s|s|s|g a5 a75|sigs t|mode|mode|ns t|n|d];
      unfold attempt, machine_control; cbv zeta.
    + apply stops_bind; [apply stops_machine_control_with, Hoff
                        |intros _; apply stops_ret].
    + apply stops_bind; [apply stops_pump_control, Hoff|intros _; apply stops_ret].
    + apply stops_bind; [apply stops_valves_control, Hoff|intros _; apply stops_ret].
    + apply stops_bind; [apply stops_motor_control, Hoff|intros _; apply stops_ret].
    + apply stops_bind; [apply stops_air_control, Hoff|intros _; apply stops_ret].
    + apply stops_bind; [apply stops_water_control, Hoff|intros _; apply stops_ret].
    + apply stops_justification, Hoff.
    + apply stops_send_signals, Hoff.
    + apply stops_operation_mode_setter.
    + apply stops_row16_mode_setter.
    + apply stops_wait_for_sensor, Hoff.
    + apply stops_check_rotation, Hoff.
    + apply stops_time_sleep.
  - destruct c as [s|s|s|s|s|s|g a5 a75|sigs t|mode|mode|ns t|n|d];
      unfold attempt, perform in *; cbv zeta in H |- *;
      try (rewrite H; reflexivity);
      unfold bind in H;
      match type of H with
      | match ?m with _ => _ end = _ =>
          destruct m as [[a|e|] j]; unfold ret in H; simpl; congruence
      end.
Qed.

Lemma machine_stopped_releases_witness :
  working (st failed_start) = false.
Proof.
  apply (machine_stopped_releases casting_config row16_unused 3100
           (MachineControl (Some true)) (init []) failed_start).
  vm_compute. exact eq_refl.
Defined.

(** ** The meter keeps at most three timestamps *)

Lemma deque_append_length {A} (d : list A) (x : A) :
  (length d <= 3)%nat -> (length (deque_append 3 d x) <= 3)%nat.
Proof.
  intros H. unfold deque_append.
  destruct (3 <=? length d)%nat eqn:E.
  - rewrite length_app. destruct d as [|y d]; simpl in *; lia.
  - apply Nat.leb_gt in E. rewrite length_app. simpl. lia.
Qed.

Lemma callback_meter_ok t e (i : interface) :
  meter_ok i -> meter_ok (callback t e i).
Proof.
  unfold meter_ok. destruct e as [[|]|]; simpl; auto.
  apply deque_append_length.
Qed.

Lemma time_sleep_meter_ok seconds : preserves meter_ok (time_sleep seconds).
Proof.
  intros i Hi. unfold time_sleep.
  destruct (Qle_bool 0 seconds); [|exact Hi]. unfold asleep. simpl.
  match goal with |- meter_ok (fold_left _ ?due ?j) =>
    assert (Hj : meter_ok j) by exact Hi; generalize dependent j; generalize due
  end.
  intros due. induction due as [|[t e] due IH]; intros j Hj; simpl; auto.
  apply IH, callback_meter_ok, Hj.
Qed.

Lemma update_pump_and_wedges_meter_ok (i : interface) :
  meter_ok i -> meter_ok (update_pump_and_wedges i).
Proof.
  unfold meter_ok, update_pump_and_wedges. cbv zeta.
  repeat match goal with |- context [if ?b then _ else _] => destruct b end;
    auto.
Qed.

Ltac meter_step :=
  lazymatch goal with
  | |- preserves _ (let _ := _ in _) => cbv zeta
  | |- preserves _ (if ?b then _ else _) => destruct b
  | |- preserves _ (match ?x with _ => _ end) => destruct x
  | |- preserves _ (bind (dict_get _ _) _) =>
      apply preserves_dict_get_bind; intros ? ?
  | |- preserves _ (bind _ _) => apply preserves_bind; [|intros ?]
  | |- preserves _ (ret _) => apply preserves_ret
  | |- preserves _ (raise _) => apply preserves_raise
  | |- preserves _ exhausted => apply preserves_exhausted
  | |- preserves _ (gets _) => apply preserves_gets
  | |- preserves _ (dict_get _ _) => apply preserves_dict_get
  | |- preserves _ (time_sleep _) => apply time_sleep_meter_ok
  | |- preserves _ (modify update_pump_and_wedges) =>
      apply preserves_modify; intros ? ?;
      apply update_pump_and_wedges_meter_ok; assumption
  | |- preserves _ (modify (set_meter_events [])) =>
      apply preserves_modify; intros ? ?; unfold meter_ok; simpl; lia
  | |- preserves _ (modify _) => apply preserves_modify; intros ? ?; assumption
  | |- preserves _ (handle_machine_stop _ _) =>
      apply preserves_handle_machine_stop;
      [intros ? ? ?; assumption | assumption |]
  end.

Section MeterBound.

Variable cfg : config.
Variable cv : converters.
Variable off : M bool.
Variable fuel : nat.
Hypothesis off_ok : preserves meter_ok off.

Lemma operation_mode_setter_meter_ok mode :
  preserves meter_ok (operation_mode_setter cfg mode).
Proof. unfold operation_mode_setter. repeat meter_step. Qed.

Lemma row16_mode_setter_meter_ok mode :
  preserves meter_ok (row16_mode_setter cfg mode).
Proof. unfold row16_mode_setter. repeat meter_step. Qed.

Lemma wait_loop_meter_ok n new_state timeout start_time :
  preserves meter_ok (wait_loop n new_state timeout start_time).
Proof.
  induction n as [|n IH]; intros i Hi; simpl;
    destruct (eqb _ _); auto; destruct (negb _); auto.
  apply (preserves_bind meter_ok (time_sleep (1 # 100))
           (fun _ => wait_loop n new_state timeout start_time));
    [apply time_sleep_meter_ok | intros _; exact IH | exact Hi].
Qed.

Lemma wait_for_sensor_meter_ok new_state timeout :
  preserves meter_ok (wait_for_sensor cfg off fuel new_state timeout).
Proof.
  unfold wait_for_sensor, time_time. repeat meter_step.
  apply wait_loop_meter_ok.
Qed.

Lemma check_rotation_meter_ok n :
  preserves meter_ok (check_rotation cfg off fuel n).
Proof.
  unfold check_rotation. apply preserves_for_range.
  apply preserves_bind; [|intros _]; apply wait_for_sensor_meter_ok.
Qed.

Lemma valves_control_meter_ok state :
  preserves meter_ok (valves_control cfg off state).
Proof.
  unfold valves_control, output_valves_on, output_valves_off.
  repeat meter_step.
Qed.

Lemma motor_control_meter_ok state :
  preserves meter_ok (motor_control cfg off state).
Proof. unfold motor_control, turn_on, turn_off. repeat meter_step. Qed.

Lemma air_control_meter_ok state :
  preserves meter_ok (air_control cfg off state).
Proof. unfold air_control, turn_on, turn_off. repeat meter_step. Qed.

Lemma water_control_meter_ok state :
  preserves meter_ok (water_control cfg off state).
Proof. unfold water_control, turn_on, turn_off. repeat meter_step. Qed.

Lemma prepare_signals_meter_ok input :
  preserves meter_ok (prepare_signals cfg cv input).
Proof. unfold prepare_signals. repeat meter_step. Qed.

Ltac meter_call :=
  lazymatch goal with
  | |- preserves _ (operation_mode_setter _ _) =>
      apply operation_mode_setter_meter_ok
  | |- preserves _ (prepare_signals _ _ _) => apply prepare_signals_meter_ok
  | |- preserves _ (wait_for_sensor _ _ _ _ _) => apply wait_for_sensor_meter_ok
  | |- preserves _ (valves_control _ _ _) => apply valves_control_meter_ok
  | |- preserves _ (motor_control _ _ _) => apply motor_control_meter_ok
  | |- preserves _ (air_control _ _ _) => apply air_control_meter_ok
  | |- preserves _ (water_control _ _ _) => apply water_control_meter_ok
  | |- preserves _ (check_rotation _ _ _ _) => apply check_rotation_meter_ok
  | |- _ => meter_step
  end.

Lemma send_signals_meter_ok sigs timeout :
  preserves meter_ok (send_signals cfg cv off fuel sigs timeout).
Proof.
  unfold send_signals.
  apply preserves_bind; [apply preserves_gets|intros started].
  destruct (negb started); [apply preserves_raise|].
  apply preserves_bind; [apply preserves_gets|intros mode].
  apply preserves_dict_get_bind. intros action Haction.
  apply preserves_bind; [apply preserves_modify; intros ? H; exact H|intros _].
  simpl in Haction. destruct Haction as [<-|[<-|[<-|[]]]].
  - unfold cast. repeat meter_call.
  - unfold punch. repeat meter_call.
  - unfold test. repeat meter_call.
Qed.

Lemma pump_stop_loop_meter_ok n code timeout :
  preserves meter_ok (pump_stop_loop cfg cv off fuel n code timeout).
Proof.
  induction n as [|n IH]; intros i Hi; simpl;
    destruct (pump (st i)); auto.
  revert i Hi.
  change (preserves meter_ok
            (send_signals cfg cv off fuel code (Some timeout) >>
             send_signals cfg cv off fuel code (Some timeout) >>
             pump_stop_loop cfg cv off fuel n code timeout)).
  repeat (apply preserves_bind; [apply send_signals_meter_ok|intros _]).
  exact IH.
Qed.

Lemma pump_control_meter_ok state :
  preserves meter_ok (pump_control cfg cv off fuel state).
Proof.
  unfold pump_control, pump_start, pump_stop, get_state, turn_on, turn_off.
  repeat lazymatch goal with
         | |- preserves _ (send_signals _ _ _ _ _ _) =>
             apply send_signals_meter_ok
         | |- preserves _ (pump_stop_loop _ _ _ _ _ _ _) =>
             apply pump_stop_loop_meter_ok
         | |- _ => meter_step
         end.
Qed.

Lemma justification_meter_ok galley_trip arg_0005 arg_0075 :
  preserves meter_ok
    (justification cfg cv off fuel galley_trip arg_0005 arg_0075).
Proof.
  unfold justification.
  repeat lazymatch goal with
         | |- preserves _ (send_signals _ _ _ _ _ _) =>
             apply send_signals_meter_ok
         | |- _ => meter_step
         end.
Qed.

Lemma machine_control_with_meter_ok state :
  preserves meter_ok (machine_control_with cfg cv off fuel state).
Proof.
  unfold machine_control_with, start, stop, turn_on, turn_off.
  repeat lazymatch goal with
         | |- preserves _ (pump_control _ _ _ _ _) => apply pump_control_meter_ok
         | |- _ => meter_call
         end.
Qed.

End MeterBound.

Lemma machine_off_meter_ok cfg cv fuel :
  preserves meter_ok (machine_off cfg cv fuel).
Proof.
  induction fuel as [|n IH]; simpl.
  - apply preserves_exhausted.
  - apply machine_control_with_meter_ok. exact IH.
Qed.

Lemma perform_meter_ok cfg cv fuel c (i : interface) :
  meter_ok i -> meter_ok (perform cfg cv fuel c i).
Proof.
  pose proof (machine_off_meter_ok cfg cv fuel) as Hoff.
  intros Hi.
  destruct c as [s|s|s|s|s|s|g a5 a75|sigs t|mode|mode|ns t|n|d];
    unfold perform, machine_control.
  - exact (machine_control_with_meter_ok cfg cv _ fuel Hoff s i Hi).
  - exact (pump_control_meter_ok cfg cv _ fuel Hoff s i Hi).
  - exact (valves_control_meter_ok cfg _ Hoff s i Hi).
  - exact (motor_control_meter_ok cfg _ Hoff s i Hi).
  - exact (air_control_meter_ok cfg _ Hoff s i Hi).
  - exact (water_control_meter_ok cfg _ Hoff s i Hi).
  - exact (justification_meter_ok cfg cv _ fuel Hoff g a5 a75 i Hi).
  - exact (send_signals_meter_ok cfg cv _ fuel Hoff sigs t i Hi).
  - exact (operation_mode_setter_meter_ok cfg mode i Hi).
  - exact (row16_mode_setter_meter_ok cfg mode i Hi).
  - exact (wait_for_sensor_meter_ok cfg _ fuel Hoff ns t i Hi).
  - exact (check_rotation_meter_ok cfg _ fuel Hoff n i Hi).
  - exact (time_sleep_meter_ok d i Hi).
Qed.

(** X20: in every reachable state the speed meter holds at most three
    timestamps: the sensor callback appends to a deque of length 3, and
    nothing else adds to it. *)
Theorem meter_events_bounded cfg cv (i : interface) :
  reachable cfg cv i -> (length (meter_events i) <= 3)%nat.
Proof.
  intros Hreach. change (meter_ok i).
  induction Hreach as [edges|i c fuel _ IH].
  - unfold meter_ok. simpl. lia.
  - apply perform_meter_ok, IH.
Qed.

Lemma meter_events_bounded_witness :
  (length (meter_events pump_running_8_3) <= 3)%nat.
Proof.
  apply (meter_events_bounded casting_config row16_unused).
  unfold pump_running_8_3.
  repeat apply reachable_call. apply reachable_init.
Defined.

(** ** The polling loop and its timeout *)

Lemma callback_clock t e (i : interface) :
  clock (hw (callback t e i)) = clock (hw i).
Proof. destruct e as [[|]|]; reflexivity. Qed.

Lemma time_sleep_clock seconds (i : interface) :
  Qle_bool 0 seconds = true ->
  clock (hw (snd (time_sleep seconds i))) = Qred (clock (hw i) + seconds).
Proof.
  intros Hs. rewrite time_sleep_nonneg by exact Hs. unfold asleep. simpl.
  match goal with |- clock (hw (fold_left _ ?due ?j)) = _ =>
    change (clock (hw (fold_left (fun i te => callback (fst te) (snd te) i)
                         due j)) = clock (hw j));
    generalize j; generalize due
  end.
  intros due. induction due as [|[t e] due IH]; intros j; simpl; auto.
  rewrite IH. apply callback_clock.
Qed.

Lemma wait_loop_step n new_state timeout start_time (i : interface) :
  wait_loop (S n) new_state timeout start_time i
  = if eqb (sensor (st i)) new_state then (Return tt, i)
    else if negb (Qle_bool (clock (hw i) - start_time) timeout)
         then (Raise MachineStopped, i)
         else wait_loop n new_state timeout start_time
                (snd (time_sleep (1 # 100) i)).
Proof. reflexivity. Qed.

(** X21: the polling loop respects its timeout to within one polling
    period.  Entered no later than timeout + 10 ms after the start time,
    it ends no later than that, and the clock never goes back.  It
    returns normally only with the sensor in the desired state (at once
    and unchanged if the sensor is there already); the only exception it
    raises is machine-stopped, and only once more than the timeout has
    elapsed with the sensor still in the other state.  It needs at most
    one iteration per 10 ms of remaining time. *)
Theorem wait_loop_timing n new_state (timeout start_time : Q) (i : interface) :
  (clock (hw i) - start_time <= timeout + (1 # 100))%Q ->
  let run := wait_loop n new_state timeout start_time i in
  (clock (hw (snd run)) - start_time <= timeout + (1 # 100))%Q /\
  (clock (hw i) <= clock (hw (snd run)))%Q /\
  (sensor (st i) = new_state -> run = (Return tt, i)) /\
  (forall u, fst run = Return u -> sensor (st (snd run)) = new_state) /\
  (forall e, fst run = Raise e ->
             e = MachineStopped /\ sensor (st (snd run)) <> new_state /\
             (timeout < clock (hw (snd run)) - start_time)%Q) /\
  (((timeout - (clock (hw i) - start_time)) * 100 < inject_Z (Z.of_nat n))%Q ->
   fst run <> Exhausted).
Proof.
  revert i. induction n as [|n IH]; intros i Hentry; cbv zeta.
  - simpl. destruct (eqb (sensor (st i)) new_state) eqn:Es.
    + apply eqb_prop in Es. simpl. repeat split; auto; try lra; discriminate.
    + assert (Hs : sensor (st i) <> new_state).
      { intros H. rewrite H, eqb_reflx in Es. discriminate. }
      destruct (Qle_bool (clock (hw i) - start_time) timeout) eqn:Et; simpl.
      * apply Qle_bool_iff in Et.
        repeat split; try lra; try discriminate; try contradiction.
        intros Hfuel. change (inject_Z (Z.of_nat 0)) with 0%Q in Hfuel. lra.
      * assert (Hlate : (timeout < clock (hw i) - start_time)%Q).
        { apply Qnot_le_lt. intros H. apply Qle_bool_iff in H. congruence. }
        repeat split; try lra; try discriminate; try contradiction;
          try congruence.
  - rewrite wait_loop_step.
    destruct (eqb (sensor (st i)) new_state) eqn:Es.
    + apply eqb_prop in Es. simpl. repeat split; auto; try lra; discriminate.
    + assert (Hs : sensor (st i) <> new_state).
      { intros H. rewrite H, eqb_reflx in Es. discriminate. }
      destruct (Qle_bool (clock (hw i) - start_time) timeout) eqn:Et; simpl negb;
        cbv iota.
      * apply Qle_bool_iff in Et.
        pose proof (time_sleep_clock (1 # 100) i eq_refl) as Hc.
        assert (Hc' : (clock (hw (snd (time_sleep (1 # 100) i)))
                       == clock (hw i) + (1 # 100))%Q).
        { rewrite Hc. apply Qred_correct. }
        specialize (IH (snd (time_sleep (1 # 100) i))).
        cbv zeta in IH.
        destruct IH as (Hend & Hmono & _ & Hret & Hraise & Hfuel); [lra|].
        split; [exact Hend|]. split; [lra|]. split; [contradiction|].
        split; [exact Hret|]. split; [exact Hraise|].
        intros Hn. apply Hfuel.
        rewrite Nat2Z.inj_succ in Hn. unfold Z.succ in Hn.
        rewrite inject_Z_plus in Hn. change (inject_Z 1) with 1%Q in Hn. lra.
      * assert (Hlate : (timeout < clock (hw i) - start_time)%Q).
        { apply Qnot_le_lt. intros H. apply Qle_bool_iff in H. congruence. }
        simpl. repeat split; try lra; try discriminate; try contradiction;
          try congruence.
Qed.

Lemma wait_loop_timing_witness :
  fst (wait_loop 501 true 5 0 (init [])) <> Exhausted.
Proof.
  apply (wait_loop_timing 501 true 5 0 (init [])).
  - vm_compute. discriminate.
  - vm_compute. reflexivity.
Defined.

(** ** Blinking an LED *)

Lemma callback_outputs t e (i : interface) :
  outputs (hw (callback t e i)) = outputs (hw i).
Proof. destruct e as [[|]|]; reflexivity. Qed.

Lemma blink_once line seconds (i : interface) :
  Qle_bool 0 seconds = true ->
  exists i',
    (turn_off line >> time_sleep seconds >> turn_on line >> time_sleep seconds) i
    = (Return tt, i') /\
    outputs (hw i') = <[line := true]> (<[line := false]> (outputs (hw i))) /\
    trace (hw i') = (trace (hw i) ++ [Sleep seconds; Sleep seconds])%list /\
    sent i' = sent i /\ signals i' = signals i /\
    working (st i') = working (st i) /\ pump (st i') = pump (st i).
Proof.
  intros Hs.
  set (i1 := with_hw (fun h => set_outputs (<[line := false]> (outputs h)) h) i).
  set (i2 := asleep seconds i1).
  set (i3 := with_hw (fun h => set_outputs (<[line := true]> (outputs h)) h) i2).
  assert (E1 : time_sleep seconds i1 = (Return tt, i2))
    by (apply time_sleep_nonneg, Hs).
  assert (E3 : time_sleep seconds i3 = (Return tt, asleep seconds i3))
    by (apply time_sleep_nonneg, Hs).
  exists (asleep seconds i3). split.
  - unfold bind, turn_off, turn_on, modify. fold i1. rewrite E1.
    fold i3. rewrite E3. reflexivity.
  - pose proof (quiet_fields _ _ (time_sleep_quiet seconds i3)) as H3.
    pose proof (quiet_fields _ _ (time_sleep_quiet seconds i1)) as H1.
    pose proof (time_sleep_trace seconds i3 Hs) as T3.
    pose proof (time_sleep_trace seconds i1 Hs) as T1.
    rewrite E3 in H3, T3. rewrite E1 in H1, T1. simpl snd in *.
    destruct H3 as (_ & _ & Hw3 & _ & _ & _ & Hp3 & Hs3 & _ & _ & Ho3 & Hn3).
    destruct H1 as (_ & _ & Hw1 & _ & _ & _ & Hp1 & Hs1 & _ & _ & Ho1 & Hn1).
    rewrite Ho3, Hn3, Hs3, Hw3, Hp3, T3.
    subst i3. simpl.
    rewrite Ho1, Hn1, Hs1, Hw1, Hp1, T1.
    subst i1. simpl. rewrite <- app_assoc. auto 10.
Qed.

Lemma blink_loop line seconds times (i : interface) :
  Qle_bool 0 seconds = true ->
  exists i',
    for_range times
      (turn_off line >> time_sleep seconds >> turn_on line >> time_sleep seconds) i
    = (Return tt, i') /\
    (forall other, other <> line -> led other i' = led other i) /\
    led line i' = match times with O => led line i | S _ => true end /\
    trace (hw i') = (trace (hw i) ++ repeat (Sleep seconds) (2 * times))%list /\
    sent i' = sent i /\ signals i' = signals i /\
    working (st i') = working (st i) /\ pump (st i') = pump (st i).
Proof.
  intros Hs. revert i. induction times as [|n IH]; intros i.
  - exists i. simpl. rewrite app_nil_r. auto 10.
  - destruct (blink_once line seconds i Hs)
      as (i1 & H1 & Ho1 & Ht1 & Hn1 & Hs1 & Hw1 & Hp1).
    destruct (IH i1) as (i2 & H2 & Hother & Hline & Ht2 & Hn2 & Hs2 & Hw2 & Hp2).
    exists i2. split.
    + cbn [for_range]. unfold bind at 1. rewrite H1. exact H2.
    + split; [|split; [|split]].
      * intros other Hne. rewrite Hother by exact Hne. unfold led.
        rewrite Ho1, !lookup_insert_ne by congruence. reflexivity.
      * rewrite Hline. destruct n; [|reflexivity].
        unfold led. rewrite Ho1, lookup_insert_eq. reflexivity.
      * rewrite Ht2, Ht1, repeat_double, <- app_assoc. reflexivity.
      * repeat split; congruence.
Qed.

(** X22: [blink] does nothing at all for a name that is not registered
    and for a registered line number 0.  Otherwise, with a period that is
    not negative it returns, having slept 2 * times periods; it leaves
    every other line as it was and, if it blinked at least once, leaves
    the LED on.  With a negative period and at least one round it puts
    the LED out and raises [ValueError] from the first sleep. *)
Theorem blink_spec (LEDS : gmap string Z) gpio seconds times (i : interface) :
  match gpio ≫= (fun name => LEDS !! name) with
  | None => blink LEDS gpio seconds times i = (Return tt, i)
  | Some line =>
      if line =? 0 then blink LEDS gpio seconds times i = (Return tt, i)
      else
        (Qle_bool 0 seconds = true ->
         exists i',
           blink LEDS gpio seconds times i = (Return tt, i') /\
           (forall other, other <> line -> led other i' = led other i) /\
           led line i' = match times with O => led line i | S _ => true end /\
           trace (hw i')
           = (trace (hw i) ++ repeat (Sleep seconds) (2 * times))%list /\
           sent i' = sent i /\ signals i' = signals i /\
           working (st i') = working (st i) /\ pump (st i') = pump (st i)) /\
        (Qle_bool 0 seconds = false ->
         blink LEDS gpio seconds times i
         = match times with
           | O => (Return tt, i)
           | S _ =>
               (Raise ValueError,
                with_hw (fun h => set_outputs (<[line := false]> (outputs h)) h) i)
           end)
  end.
Proof.
  unfold blink. cbv zeta.
  destruct gpio as [name|]; simpl; [|reflexivity].
  destruct (LEDS !! name) as [line|]; simpl; [|reflexivity].
  destruct (line =? 0); [reflexivity|]. split.
  - intros Hs. apply blink_loop, Hs.
  - intros Hs. destruct times as [|n]; [reflexivity|].
    cbn [for_range]. unfold bind, turn_off, modify.
    rewrite time_sleep_negative by exact Hs. reflexivity.
Qed.

(** Three rounds of half a second on the ready LED. *)
Lemma blink_spec_witness :
  exists i',
    blink {["ready" := 18]} (Some "ready") (1 # 2) 3 (init []) = (Return tt, i') /\
    led 18 i' = true /\
    trace (hw i') = repeat (Sleep (1 # 2)) 6.
Proof.
  pose proof (blink_spec {["ready" := 18]} (Some "ready") (1 # 2) 3 (init []))
    as H.
  simpl in H. rewrite lookup_singleton_eq in H. simpl in H.
  destruct H as [H _].
  destruct (H eq_refl) as (i' & Hrun & _ & Hled & Htrace & _).
  exists i'. split; [exact Hrun|]. split; [exact Hled | exact Htrace].
Defined.

(** ** Stopping the machine: motor, water and the modes *)

Lemma quiet_actuators cfg (i i' : interface) :
  quiet i i' -> same (actuators cfg) i i'.
Proof.
  intros H. apply quiet_fields in H.
  destruct H as (_ & _ & Hw & Hwa & Ha & Hm & _ & _ & Hop & H16 & _).
  unfold same, actuators, operation_mode, row16_mode. congruence.
Qed.

Lemma update_pump_and_wedges_actuators cfg (i : interface) :
  same (actuators cfg) i (update_pump_and_wedges i).
Proof.
  unfold update_pump_and_wedges.
  repeat match goal with |- context [if ?b then _ else _] => destruct b end;
    reflexivity.
Qed.

Ltac actuators_step :=
  first
    [ apply (respects_weaken quiet);
      [ apply quiet_actuators
      | first [ apply time_sleep_respects_quiet
              | apply prepare_signals_quiet
              | apply wait_for_sensor_quiet ] ]
    | apply respects_modify; apply update_pump_and_wedges_actuators
    | same_step ].

Lemma insert_false_stays (m : gmap Z bool) (k k' : Z) :
  default false (m !! k) = false ->
  default false (<[k' := false]> m !! k) = false.
Proof.
  intros H. destruct (decide (k' = k)) as [->|Hne].
  - rewrite lookup_insert_eq. reflexivity.
  - rewrite lookup_insert_ne by exact Hne. exact H.
Qed.

Section Actuators.

Variable cfg : config.
Variable cv : converters.
Variable off : M bool.
Variable fuel : nat.

Lemma valves_control_actuators state :
  respects (same (actuators cfg)) (valves_control cfg off state).
Proof.
  unfold valves_control, output_valves_on, output_valves_off.
  repeat actuators_step.
Qed.

Lemma operation_mode_setter_actuators (m : option string) (i : interface) u i' :
  m <> Some "reset" ->
  operation_mode cfg i = m ->
  operation_mode_setter cfg m i = (Return u, i') ->
  same (actuators cfg) i i'.
Proof.
  intros Hreset Hm H. unfold operation_mode_setter in H.
  rewrite bool_decide_eq_false_2 in H by exact Hreset.
  assert (Hset : same (actuators cfg) i (set__operation_mode (Some m) i)).
  { unfold same, actuators. rewrite Hm. reflexivity. }
  destruct m as [m|].
  - destruct (inb m (supported_modes cfg)); [|discriminate].
    injection H as _ <-. exact Hset.
  - injection H as _ <-. exact Hset.
Qed.

Ltac after_setter H Hset :=
  eapply same_trans; [exact Hset|];
  match type of H with
  | ?m ?j = (Return ?u, ?j') =>
      let Hr := fresh "Hr" in
      assert (Hr : respects (same (actuators cfg)) m);
      [ repeat first [ apply valves_control_actuators | actuators_step ]
      | exact (Hr j u j' H) ]
  end.

Lemma cast_actuators input timeout (i : interface) u i' :
  operation_mode cfg i = Some "casting" ->
  cast cfg cv off fuel input timeout i = (Return u, i') ->
  same (actuators cfg) i i'.
Proof.
  intros Hmode H. unfold cast in H.
  apply bind_Return in H as (u0 & i1 & Hset & H).
  apply operation_mode_setter_actuators in Hset; [|discriminate|exact Hmode].
  after_setter H Hset.
Qed.

Lemma punch_actuators input (i : interface) u i' :
  operation_mode cfg i = Some "punching" ->
  punch cfg cv off input i = (Return u, i') ->
  same (actuators cfg) i i'.
Proof.
  intros Hmode H. unfold punch in H.
  apply bind_Return in H as (u0 & i1 & Hset & H).
  apply operation_mode_setter_actuators in Hset; [|discriminate|exact Hmode].
  after_setter H Hset.
Qed.

Lemma test_actuators input (i : interface) u i' :
  operation_mode cfg i = None ->
  test cfg cv off input i = (Return u, i') ->
  same (actuators cfg) i i'.
Proof.
  intros Hmode H. unfold test in H.
  apply bind_Return in H as (u0 & i1 & Hset & H).
  apply operation_mode_setter_actuators in Hset; [|discriminate|exact Hmode].
  after_setter H Hset.
Qed.

Lemma send_signals_actuators sigs timeout :
  respects (same (actuators cfg)) (send_signals cfg cv off fuel sigs timeout).
Proof.
  intros i u i' H. unfold send_signals in H.
  apply bind_Return in H as (started & i0 & [= <- <-] & H).
  destruct (negb (working (st i))); [discriminate|].
  apply bind_Return in H as (mode & i0 & [= <- <-] & H).
  apply bind_Return in H as (action & i1 & Hget & H).
  pose proof (dict_get_Return _ _ _ _ _ Hget) as [-> _].
  apply bind_Return in H as ([] & i2 & [= <-] & H).
  destruct (operation_mode cfg i) as [m|] eqn:Hmode.
  - destruct (decide (m = "casting")) as [->|Hc].
    + rewrite dict_get_head in Hget. injection Hget as <-.
      apply cast_actuators in H; [exact H | exact Hmode].
    + rewrite dict_get_skip in Hget by congruence.
      destruct (decide (m = "punching")) as [->|Hp].
      * rewrite dict_get_head in Hget. injection Hget as <-.
        apply punch_actuators in H; [exact H | exact Hmode].
      * rewrite !dict_get_skip in Hget by congruence. discriminate Hget.
  - rewrite !dict_get_skip, dict_get_head in Hget by discriminate.
    injection Hget as <-.
    apply test_actuators in H; [exact H | exact Hmode].
Qed.

Lemma pump_stop_loop_actuators n code timeout :
  respects (same (actuators cfg)) (pump_stop_loop cfg cv off fuel n code timeout).
Proof.
  induction n as [|n IH]; intros i u i'; cbn [pump_stop_loop];
    destruct (pump (st i)); try discriminate.
  - intros [= _ <-]. reflexivity.
  - intros H.
    apply bind_Return in H as ([] & i1 & H1 & H).
    apply bind_Return in H as ([] & i2 & H2 & H).
    apply send_signals_actuators in H1, H2. apply IH in H.
    unfold same in *. congruence.
  - intros [= _ <-]. reflexivity.
Qed.

Lemma pump_control_off_actuators :
  respects (same (actuators cfg)) (pump_control cfg cv off fuel (Some false)).
Proof.
  unfold pump_control, pump_stop, get_state, turn_on, turn_off.
  repeat first [ apply pump_stop_loop_actuators | actuators_step ].
Qed.

(** [motor_control(off)], [water_control(off)], [air_control(off)] and the
    working LED going out, in this order from a state [i]. *)
Lemma switches_off_Return (i : interface) u i' :
  (motor_control cfg off (Some false) >>
   water_control cfg off (Some false) >>
   air_control cfg off (Some false) >>
   turn_off (working_led_gpio cfg) >>
   modify (with_st (set_working false))) i = (Return u, i') ->
  operation_mode cfg i' = operation_mode cfg i /\
  row16_mode cfg i' = row16_mode cfg i /\
  motor (st i') = false /\ water (st i') = false /\ air (st i') = false /\
  meter_events i' = [] /\
  led (working_led_gpio cfg) i' = false /\ led (air_gpio cfg) i' = false /\
  led (water_gpio cfg) i' = false /\ led (motor_stop_gpio cfg) i' = false.
Proof.
  intros H.
  apply bind_Return in H as (b1 & i1 & Hmotor & H).
  apply handle_machine_stop_Return in Hmotor as (_ & Hmotor & _).
  unfold turn_on, turn_off in Hmotor.
  apply bind_Return in Hmotor as ([] & j1 & [= <-] & Hmotor).
  apply bind_Return in Hmotor as ([] & j2 & Hsleep & Hmotor).
  apply bind_Return in Hmotor as ([] & j3 & [= <-] & Hmotor).
  apply bind_Return in Hmotor as ([] & j4 & [= <-] & Hmotor).
  apply bind_Return in Hmotor as ([] & j5 & [= <-] & Hmotor).
  injection Hmotor as _ <-.
  apply bind_Return in H as (b2 & i2 & Hwater & H).
  apply handle_machine_stop_Return in Hwater as (_ & Hwater & _).
  unfold turn_off in Hwater.
  apply bind_Return in Hwater as ([] & j6 & [= <-] & Hwater).
  apply bind_Return in Hwater as ([] & j7 & [= <-] & Hwater).
  injection Hwater as _ <-.
  apply bind_Return in H as (b3 & i3 & Hair & H).
  apply handle_machine_stop_Return in Hair as (_ & Hair & _).
  unfold turn_off in Hair, H.
  apply bind_Return in Hair as ([] & j8 & [= <-] & Hair).
  apply bind_Return in Hair as ([] & j9 & [= <-] & Hair).
  injection Hair as _ <-.
  apply bind_Return in H as ([] & i4 & [= <-] & H).
  injection H as _ <-.
  apply time_sleep_respects_quiet, quiet_fields in Hsleep.
  destruct Hsleep as (_ & _ & _ & _ & _ & _ & _ & _ & Hop & H16 & _).
  simpl in Hop, H16.
  unfold operation_mode, row16_mode, led. simpl. rewrite Hop, H16.
  repeat split.
  - rewrite lookup_insert_eq. reflexivity.
  - apply insert_false_stays. rewrite lookup_insert_eq. reflexivity.
  - do 2 apply insert_false_stays. rewrite lookup_insert_eq. reflexivity.
  - do 3 apply insert_false_stays. rewrite lookup_insert_eq. reflexivity.
Qed.

End Actuators.

(** X24: what a stop switches.  On a working interface, a
    [machine_control(off)] that returns normally leaves the operation mode
    and the row 16 mode in force as they were and puts out the working
    LED and the air line.  In casting mode the motor and the cooling water
    are off as well, their lines are low and the meter holds no timestamp;
    in the other modes the motor and water flags are left as they were. *)
Theorem machine_control_off_switches cfg cv fuel (i : interface) r i' :
  working (st i) = true ->
  machine_control cfg cv fuel (Some false) i = (Return r, i') ->
  operation_mode cfg i' = operation_mode cfg i /\
  row16_mode cfg i' = row16_mode cfg i /\
  led (working_led_gpio cfg) i' = false /\
  led (air_gpio cfg) i' = false /\
  (operation_mode cfg i = Some "casting" ->
   motor (st i') = false /\ water (st i') = false /\ meter_events i' = [] /\
   led (water_gpio cfg) i' = false /\ led (motor_stop_gpio cfg) i' = false) /\
  (operation_mode cfg i <> Some "casting" ->
   motor (st i') = motor (st i) /\ water (st i') = water (st i)).
Proof.
  intros Hw H. unfold machine_control, machine_control_with in H.
  apply bind_Return in H as ([] & i1 & H & [= <- <-]).
  unfold stop in H.
  apply bind_Return in H as (started & i0 & [= <- <-] & H).
  rewrite Hw in H. simpl negb in H. cbv iota in H.
  apply bind_Return in H as (b & j1 & Hpump & H).
  apply pump_control_off_actuators in Hpump.
  apply bind_Return in H as (sigs & j2 & Hvalves & H).
  apply valves_control_actuators in Hvalves.
  apply bind_Return in H as ([] & j3 & [= <-] & H).
  apply bind_Return in H as (mode & j0 & [= <- <-] & H).
  assert (Hsame : same (actuators cfg) i (set_signals [] j2)).
  { unfold same in *. rewrite <- Hpump, <- Hvalves. reflexivity. }
  unfold same, actuators in Hsame.
  injection Hsame as Hop H16 _ Hwa _ Hmo.
  rewrite Hop in H.
  destruct (bool_decide (operation_mode cfg i = Some "casting")) eqn:Hmode.
  - apply bool_decide_eq_true_1 in Hmode.
    assert (Hoff : (motor_control cfg (machine_off cfg cv fuel) (Some false) >>
                    water_control cfg (machine_off cfg cv fuel) (Some false) >>
                    air_control cfg (machine_off cfg cv fuel) (Some false) >>
                    turn_off (working_led_gpio cfg) >>
                    modify (with_st (set_working false))) (set_signals [] j2)
                   = (Return tt, i1)).
    { revert H. unfold bind.
      destruct (motor_control _ _ _ _) as [[?| |] ?]; try discriminate.
      destruct (water_control _ _ _ _) as [[?| |] ?]; try discriminate.
      simpl. auto. }
    apply switches_off_Return in Hoff.
    destruct Hoff as (Hop' & H16' & Hm & Hwt & _ & Hev & Hl1 & Hl2 & Hl3 & Hl4).
    split; [congruence|]. split; [congruence|].
    split; [exact Hl1|]. split; [exact Hl2|].
    split; [auto 10 | intros Hne; contradiction].
  - apply bool_decide_eq_false_1 in Hmode.
    apply bind_Return in H as ([] & j4 & [= <-] & H).
    apply bind_Return in H as (b3 & j5 & Hair & H).
    apply handle_machine_stop_Return in Hair as (_ & Hair & _).
    unfold turn_off in Hair, H.
    apply bind_Return in Hair as ([] & j8 & [= <-] & Hair).
    apply bind_Return in Hair as ([] & j9 & [= <-] & Hair).
    injection Hair as _ <-.
    apply bind_Return in H as ([] & j6 & [= <-] & H).
    injection H as <-.
    split; [exact Hop|]. split; [exact H16|].
    unfold led. simpl.
    split; [rewrite lookup_insert_eq; reflexivity|].
    split; [apply insert_false_stays; rewrite lookup_insert_eq; reflexivity|].
    split; [intros Hc; contradiction | intros _; auto].
Qed.

Lemma machine_control_off_switches_witness :
  let i := pump_running_8_3 in
  let i' := snd (machine_control casting_config row16_unused 100 (Some false) i) in
  motor (st i) = true /\ water (st i) = true /\
  motor (st i') = false /\ water (st i') = false /\ meter_events i' = [].
Proof.
  intros i i'.
  assert (Hw : working (st i) = true) by (vm_compute; reflexivity).
  assert (Hmode : operation_mode casting_config i = Some "casting")
    by (vm_compute; reflexivity).
  destruct (machine_control_off_switches casting_config row16_unused 100
              i false i' Hw) as (_ & _ & _ & _ & Hcast & _).
  - vm_compute. reflexivity.
  - destruct (Hcast Hmode) as (Hm & Hwt & Hev & _).
    split; [vm_compute; reflexivity|]. split; [vm_compute; reflexivity|]. auto.
Defined.
